(** * NYC Green Taxi dashboard (app.py): loader, filters, aggregates, tests

    A shallow embedding of the data pipeline of [app.py]:
    [load_data], the sidebar filter chain, the key metrics, the weekday
    counts, the scatter-plot sample and the guards of the statistical tests.

    Conventions of the embedding.
    - A pandas DataFrame is an index (row labels) and an ordered list of
      named columns; a column is a list of cells with its dtype.
    - A float64 cell is [option Q]: [None] is NaN, [Some q] a finite value.
      Arithmetic on finite values is exact rational arithmetic; a value is
      rounded to binary64 only where it is printed ([format_fixed]).
    - A datetime64[ns] cell is [option Z]: [None] is NaT, [Some t] a count
      of nanoseconds since 1970-01-01T00:00:00.  The difference of two
      timestamps is checked int64 arithmetic ([trip_durations]).
    - An object cell is [option string]: [None] is a missing label.
    - A Python exception (KeyError, AttributeError, ValueError,
      OverflowError) is the [None] of the outer [option] a fallible
      operation returns. *)

From Stdlib Require Import ZArith QArith Qround Qabs Bool Lia.
From Stdlib Require Import String Ascii DecimalString.
From Stdlib Require Import List Permutation.
Import ListNotations.

Local Open Scope Z_scope.

(** ** Option as the exception monad *)

Definition bind {A B : Type} (m : option A) (k : A -> option B) : option B :=
  match m with
  | Some a => k a
  | None => None
  end.

Notation "x <- m ;; k" := (bind m (fun x => k))
  (at level 61, m at next level, right associativity).

Fixpoint mapM {A B : Type} (f : A -> option B) (l : list A) : option (list B) :=
  match l with
  | [] => Some []
  | a :: r => b <- f a ;; bs <- mapM f r ;; Some (b :: bs)
  end.

(** ** The calendar behind the [.dt] accessor

    pandas stores a timestamp as a count of nanoseconds since the epoch and
    computes the calendar fields in the proleptic Gregorian calendar. *)

Module Calendar.

Definition ns_per_second : Z := 1000000000.
Definition ns_per_hour : Z := 3600 * ns_per_second.
Definition ns_per_day : Z := 86400 * ns_per_second.

(** Whole days since 1970-01-01 (floor, so instants before the epoch fall in
    the day they belong to). *)
Definition days_since_epoch (t : Z) : Z := t / ns_per_day.

(** Day of the 400-year era, counted from March 1st of a year divisible
    by 400. *)
Definition day_of_era (days : Z) : Z := (days + 719468) mod 146097.

Definition year_of_era (doe : Z) : Z :=
  (doe - doe / 1460 + doe / 36524 - doe / 146096) / 365.

(** Day of the year that starts on March 1st. *)
Definition day_of_year (doe : Z) : Z :=
  let yoe := year_of_era doe in
  doe - (365 * yoe + yoe / 4 - yoe / 100).

Definition day_from_doy (doy : Z) : Z :=
  let mp := (5 * doy + 2) / 153 in
  doy - (153 * mp + 2) / 5 + 1.

(** [Series.dt.day] *)
Definition day (t : Z) : Z :=
  day_from_doy (day_of_year (day_of_era (days_since_epoch t))).

(** [Series.dt.hour] *)
Definition hour (t : Z) : Z := (t mod ns_per_day) / ns_per_hour.

(** Monday is 0; 1970-01-01 was a Thursday. *)
Definition weekday_index (t : Z) : Z := (days_since_epoch t + 3) mod 7.

Definition day_names : list string :=
  ["Monday"; "Tuesday"; "Wednesday"; "Thursday"; "Friday"; "Saturday";
   "Sunday"]%string.

(** [Series.dt.day_name()] *)
Definition day_name (t : Z) : string :=
  nth (Z.to_nat (weekday_index t)) day_names "Sunday"%string.

(** [Timedelta.total_seconds()] of a difference of two timestamps. *)
Definition total_seconds (delta : Z) : Q := inject_Z delta / inject_Z ns_per_second.

(** *** Civil dates, to state what the accessors return *)

Definition is_leap (y : Z) : bool :=
  ((y mod 4 =? 0) && negb (y mod 100 =? 0)) || (y mod 400 =? 0).

Definition days_in_month (y m : Z) : Z :=
  if m =? 2 then (if is_leap y then 29 else 28)
  else if (m =? 4) || (m =? 6) || (m =? 9) || (m =? 11) then 30
  else 31.

(** Year [y], month [m] and day [d] name a day of the Gregorian calendar. *)
Definition valid_date (y m d : Z) : Prop :=
  1 <= m <= 12 /\ 1 <= d <= days_in_month y m.

(** The number of days from 1970-01-01 to the given date. *)
Definition days_from_civil (y m d : Z) : Z :=
  let y' := if m <=? 2 then y - 1 else y in
  let era := y' / 400 in
  let yoe := y' mod 400 in
  let mp := if m <=? 2 then m + 9 else m - 3 in
  let doy := (153 * mp + 2) / 5 + d - 1 in
  let doe := yoe * 365 + yoe / 4 - yoe / 100 + doy in
  era * 146097 + doe - 719468.

(** The instant [off] nanoseconds into the day of the given date. *)
Definition timestamp (y m d off : Z) : Z := days_from_civil y m d * ns_per_day + off.

End Calendar.

(** ** Columns and frames *)

Inductive column : Type :=
| NumCol (xs : list (option Q))
| ObjCol (xs : list (option string))
| TimeCol (xs : list (option Z)).

Record DataFrame : Type := mkFrame {
  index : list nat;
  cols : list (string * column)
}.

Definition col_len (c : column) : nat :=
  match c with
  | NumCol xs => length xs
  | ObjCol xs => length xs
  | TimeCol xs => length xs
  end.

(** [len(df)] *)
Definition len (df : DataFrame) : nat := length (index df).

(** Every column has one cell per row label. *)
Definition wf_frame (df : DataFrame) : bool :=
  forallb (fun nc => Nat.eqb (col_len (snd nc)) (len df)) (cols df).

Fixpoint assoc {A : Type} (name : string) (l : list (string * A)) : option A :=
  match l with
  | [] => None
  | (n, a) :: r => if String.eqb n name then Some a else assoc name r
  end.

(** [df[name]]; a missing name is a KeyError. *)
Definition get (df : DataFrame) (name : string) : option column :=
  assoc name (cols df).

(** [name in df.columns] *)
Definition has_column (df : DataFrame) (name : string) : bool :=
  existsb (fun nc => String.eqb (fst nc) name) (cols df).

(** [Series.dt] exists on datetime columns only. *)
Definition get_time (df : DataFrame) (name : string) : option (list (option Z)) :=
  c <- get df name ;;
  match c with
  | TimeCol ts => Some ts
  | _ => None
  end.

Fixpoint set_assoc {A : Type} (name : string) (a : A) (l : list (string * A))
  : list (string * A) :=
  match l with
  | [] => [(name, a)]
  | (n, b) :: r =>
      if String.eqb n name then (n, a) :: r else (n, b) :: set_assoc name a r
  end.

(** [df[name] = c]: overwrite in place, or append as the last column. *)
Definition set_col (df : DataFrame) (name : string) (c : column) : DataFrame :=
  mkFrame (index df) (set_assoc name c (cols df)).

(** [df.drop(columns=names, errors='ignore')] *)
Definition drop_columns (names : list string) (df : DataFrame) : DataFrame :=
  mkFrame (index df)
    (filter (fun nc => negb (existsb (String.eqb (fst nc)) names)) (cols df)).

Fixpoint zip_with {A B C : Type} (f : A -> B -> C) (l : list A) (m : list B)
  : list C :=
  match l, m with
  | a :: l', b :: m' => f a b :: zip_with f l' m'
  | _, _ => []
  end.

(** ** Cell arithmetic of the loader *)

(** datetime64[ns] and timedelta64[ns] cells are int64 nanosecond counts;
    the least int64 is the NaT sentinel of both dtypes. *)
Definition int64_min : Z := - 2 ^ 63.
Definition int64_max : Z := 2 ^ 63 - 1.

Definition fits_int64 (z : Z) : bool := (int64_min <=? z) && (z <=? int64_max).

(** [(dropoff - pickup).total_seconds() / 60] on one row whose difference
    fits int64: a difference equal to the sentinel reads as NaT, and NaT
    gives NaN. *)
Definition trip_duration (dropoff pickup : option Z) : option Q :=
  match dropoff, pickup with
  | Some d, Some p =>
      if d - p =? int64_min then None
      else Some (Calendar.total_seconds (d - p) / inject_Z 60)%Q
  | _, _ => None
  end.

(** The subtraction of line 45 is checked int64 arithmetic: a row with both
    timestamps whose difference does not fit raises OverflowError. *)
Definition sub_overflows (dropoff pickup : option Z) : bool :=
  match dropoff, pickup with
  | Some d, Some p => negb (fits_int64 (d - p))
  | _, _ => false
  end.

(** Line 45 on the two columns. *)
Definition trip_durations (dropoff pickup : list (option Z))
  : option (list (option Q)) :=
  if existsb (fun b : bool => b) (zip_with sub_overflows dropoff pickup) then None
  else Some (zip_with trip_duration dropoff pickup).

(** Python's [//] on finite values. *)
Definition floordiv (x y : Q) : Q := inject_Z (Qfloor (x / y)).

(** [((day_of_month - 1) // 7) + 1] *)
Definition week_of_month (day_of_month : Q) : Q :=
  (floordiv (day_of_month - inject_Z 1) (inject_Z 7) + inject_Z 1)%Q.

(** [Series.map(dict)] with integer keys: a value that is no key, and a
    missing value, map to a missing label. *)
Definition map_codes (table : list (Z * string)) (x : option Q) : option string :=
  match x with
  | None => None
  | Some q =>
      option_map snd (find (fun kv => Qeq_bool q (inject_Z (fst kv))) table)
  end.

Definition series_map (table : list (Z * string)) (c : column) : column :=
  match c with
  | NumCol xs => ObjCol (map (map_codes table) xs)
  | ObjCol xs => ObjCol (map (fun _ => None) xs)
  | TimeCol xs => ObjCol (map (fun _ => None) xs)
  end.

Definition week_names : list (Z * string) :=
  [(1, "1st Week"); (2, "2nd Week"); (3, "3rd Week"); (4, "4th Week");
   (5, "5th Week")]%string.

Definition payment_mapping : list (Z * string) :=
  [(1, "Credit Card"); (2, "Cash"); (3, "No Charge")]%string.

Definition trip_type_mapping : list (Z * string) :=
  [(1, "Street-hail"); (2, "Dispatch")]%string.

(** ** Missing values: [fillna(median)] and [fillna(method='ffill')] *)

Fixpoint present {A : Type} (xs : list (option A)) : list A :=
  match xs with
  | [] => []
  | Some a :: r => a :: present r
  | None :: r => present r
  end.

Fixpoint insert_sorted {A : Type} (le : A -> A -> bool) (a : A) (l : list A)
  : list A :=
  match l with
  | [] => [a]
  | b :: r => if le a b then a :: l else b :: insert_sorted le a r
  end.

Definition sort {A : Type} (le : A -> A -> bool) (l : list A) : list A :=
  fold_right (insert_sorted le) [] l.

(** Adjacent elements are in order. *)
Fixpoint sorted_by {A : Type} (le : A -> A -> bool) (l : list A) : bool :=
  match l with
  | [] => true
  | a :: r =>
      match r with
      | [] => true
      | b :: _ => le a b && sorted_by le r
      end
  end.

(** [Series.median()]: missing cells are skipped; the middle value of the
    sorted rest, or the mean of the two middle values; NaN when nothing is
    left. *)
Definition median (xs : list (option Q)) : option Q :=
  let vs := sort Qle_bool (present xs) in
  let n := length vs in
  match n with
  | O => None
  | _ =>
      if Nat.even n
      then Some ((nth (n / 2 - 1) vs 0%Q + nth (n / 2) vs 0%Q) / inject_Z 2)%Q
      else Some (nth (n / 2) vs 0%Q)
  end.

Definition fillna_value {A : Type} (v : option A) (x : option A) : option A :=
  match x with
  | Some _ => x
  | None => v
  end.

(** [df.fillna(df.median(numeric_only=True))] on one column: only numeric
    columns have an entry in the Series of medians. *)
Definition fillna_median_col (c : column) : column :=
  match c with
  | NumCol xs => NumCol (map (fillna_value (median xs)) xs)
  | _ => c
  end.

Definition map_cols (f : column -> column) (df : DataFrame) : DataFrame :=
  mkFrame (index df) (map (fun nc => (fst nc, f (snd nc))) (cols df)).

Definition fillna_median (df : DataFrame) : DataFrame :=
  map_cols fillna_median_col df.

(** Forward fill: a missing cell takes the last value seen above it. *)
Fixpoint ffill_from {A : Type} (last : option A) (xs : list (option A))
  : list (option A) :=
  match xs with
  | [] => []
  | x :: r => let v := fillna_value last x in v :: ffill_from v r
  end.

Definition ffill {A : Type} (xs : list (option A)) : list (option A) :=
  ffill_from None xs.

Definition ffill_col (c : column) : column :=
  match c with
  | NumCol xs => NumCol (ffill xs)
  | ObjCol xs => ObjCol (ffill xs)
  | TimeCol xs => TimeCol (ffill xs)
  end.

Definition ffill_frame (df : DataFrame) : DataFrame := map_cols ffill_col df.

(** Lines 60-61 of [load_data]. *)
Definition fill_missing (df : DataFrame) : DataFrame :=
  ffill_frame (fillna_median df).

(** ** [load_data] *)

Definition qcell (z : Z) : Q := inject_Z z.

(** Lines 44-58: drop two columns, derive the duration and calendar
    columns. *)
Definition derive_columns (raw : DataFrame) : option DataFrame :=
  let df := drop_columns ["ehail_fee"; "fare_amount"]%string raw in
  dropoff <- get_time df "lpep_dropoff_datetime" ;;
  pickup <- get_time df "lpep_pickup_datetime" ;;
  durations <- trip_durations dropoff pickup ;;
  let df := set_col df "trip_duration" (NumCol durations) in
  dropoff <- get_time df "lpep_dropoff_datetime" ;;
  let df := set_col df "weekday"
              (ObjCol (map (option_map Calendar.day_name) dropoff)) in
  dropoff <- get_time df "lpep_dropoff_datetime" ;;
  let df := set_col df "hourofday"
              (NumCol (map (option_map (fun t => qcell (Calendar.hour t))) dropoff)) in
  pickup <- get_time df "lpep_pickup_datetime" ;;
  let day_of_month := map (option_map (fun t => qcell (Calendar.day t))) pickup in
  let df := set_col df "day_of_month" (NumCol day_of_month) in
  let week := map (option_map week_of_month) day_of_month in
  let df := set_col df "week_of_month" (NumCol week) in
  let df := set_col df "week_name" (ObjCol (map (map_codes week_names) week)) in
  Some df.

(** Lines 63-77: the payment and trip type labels. *)
Definition name_columns (df : DataFrame) : option DataFrame :=
  payment_type <- get df "payment_type" ;;
  let df := set_col df "payment_type_name"
              (series_map payment_mapping payment_type) in
  if has_column df "trip_type"
  then
    trip_type <- get df "trip_type" ;;
    Some (set_col df "trip_type_name" (series_map trip_type_mapping trip_type))
  else Some df.

(** [load_data()] applied to the frame [pd.read_parquet] returns. *)
Definition load_data (raw : DataFrame) : option DataFrame :=
  df <- derive_columns raw ;;
  name_columns (fill_missing df).

(** ** Scalars, masks and boolean indexing *)

Inductive scalar : Type :=
| SNum (q : Q)
| SStr (s : string)
| STime (t : Z).

Definition scalar_eqb (a b : scalar) : bool :=
  match a, b with
  | SNum x, SNum y => Qeq_bool x y
  | SStr x, SStr y => String.eqb x y
  | STime x, STime y => Z.eqb x y
  | _, _ => false
  end.

(** The order [groupby] and [crosstab] sort their keys in; a column holds
    scalars of one kind only. *)
Definition scalar_leb (a b : scalar) : bool :=
  match a, b with
  | SNum x, SNum y => Qle_bool x y
  | SStr x, SStr y => String.leb x y
  | STime x, STime y => Z.leb x y
  | SNum _, _ => true
  | SStr _, STime _ => true
  | _, _ => false
  end.

Definition cells (c : column) : list (option scalar) :=
  match c with
  | NumCol xs => map (option_map SNum) xs
  | ObjCol xs => map (option_map SStr) xs
  | TimeCol xs => map (option_map STime) xs
  end.

(** One cell of [series == v]: a missing cell equals nothing. *)
Definition cell_eqb (v : scalar) (x : option scalar) : bool :=
  match x with
  | Some y => scalar_eqb y v
  | None => false
  end.

(** [df[name] == v] *)
Definition mask_eq (c : column) (v : scalar) : list bool :=
  map (cell_eqb v) (cells c).

Fixpoint select_mask {A : Type} (m : list bool) (xs : list A) : list A :=
  match m, xs with
  | b :: m', x :: xs' =>
      if b then x :: select_mask m' xs' else select_mask m' xs'
  | _, _ => []
  end.

Definition col_select (m : list bool) (c : column) : column :=
  match c with
  | NumCol xs => NumCol (select_mask m xs)
  | ObjCol xs => ObjCol (select_mask m xs)
  | TimeCol xs => TimeCol (select_mask m xs)
  end.

(** [df[mask]]: the rows, with their labels, at which the mask is True. *)
Definition take_rows (m : list bool) (df : DataFrame) : DataFrame :=
  mkFrame (select_mask m (index df))
          (map (fun nc => (fst nc, col_select m (snd nc))) (cols df)).

(** [df[df[name] == v]] *)
Definition select (name : string) (v : scalar) (df : DataFrame)
  : option DataFrame :=
  c <- get df name ;;
  Some (take_rows (mask_eq c v) df).

(** ** The sidebar filter chain (lines 136-150) *)

Record selection : Type := mkSelection {
  selected_week : string;
  selected_weekday : string;
  selected_payment : string;
  selected_passenger : Q;
  selected_trip_type : string;
  selected_hour : Q
}.

Definition apply_filters (df : DataFrame) (s : selection) : option DataFrame :=
  let filtered_df := df in
  filtered_df <-
    (if String.eqb (selected_week s) "All Weeks" then Some filtered_df
     else select "week_name" (SStr (selected_week s)) filtered_df) ;;
  filtered_df <- select "weekday" (SStr (selected_weekday s)) filtered_df ;;
  filtered_df <- select "payment_type_name" (SStr (selected_payment s)) filtered_df ;;
  filtered_df <- select "passenger_count" (SNum (selected_passenger s)) filtered_df ;;
  filtered_df <-
    (if has_column df "trip_type_name"
     then select "trip_type_name" (SStr (selected_trip_type s)) filtered_df
     else Some filtered_df) ;;
  select "hourofday" (SNum (selected_hour s)) filtered_df.

(** The filters of the statistical tests tab (lines 320-326). *)
Definition test_filters (df : DataFrame) (test_weekday test_payment test_week : string)
  : option DataFrame :=
  let test_df := df in
  test_df <-
    (if String.eqb test_weekday "All" then Some test_df
     else select "weekday" (SStr test_weekday) test_df) ;;
  test_df <-
    (if String.eqb test_payment "All" then Some test_df
     else select "payment_type_name" (SStr test_payment) test_df) ;;
  if String.eqb test_week "All" then Some test_df
  else select "week_name" (SStr test_week) test_df.

(** ** Key metrics (lines 157-161) *)

Definition Qsum (l : list Q) : Q := fold_right Qplus 0%Q l.

(** [Series.mean()] of a numeric column: missing cells are skipped and the
    mean of nothing is NaN.  Only numeric columns are modelled. *)
Definition series_mean (c : column) : option (option Q) :=
  match c with
  | NumCol xs =>
      match present xs with
      | [] => Some None
      | vs => Some (Some (Qsum vs / inject_Z (Z.of_nat (length vs)))%Q)
      end
  | _ => None
  end.

Definition round_half_even (q : Q) : Z :=
  let f := Qfloor q in
  match Qcompare (q - inject_Z f) (1 # 2) with
  | Lt => f
  | Gt => f + 1
  | Eq => if Z.even f then f else f + 1
  end.

Definition show_nat (n : nat) : string := NilZero.string_of_uint (Nat.to_uint n).

Definition show_N (n : N) : string := NilZero.string_of_uint (N.to_uint n).

Fixpoint pad_left (fuel width : nat) (s : string) : string :=
  match fuel with
  | O => s
  | S f =>
      if Nat.ltb (String.length s) width then pad_left f width (String "0" s)
      else s
  end.

Definition zero_pad (width : nat) (s : string) : string := pad_left width width s.

(** The exponent of the greatest power of two that is at most [a > 0]. *)
Definition floor_log2 (a : Q) : Z :=
  let e := Z.log2 (Qnum a) - Z.log2 (Zpos (Qden a)) in
  if Qle_bool ((2 # 1) ^ e) a then e else e - 1.

(** The binary64 float nearest to [q], ties to even: 53 bits of mantissa,
    least exponent -1074.  A Python float is such a value; overflow to
    infinity is not modelled. *)
Definition binary64 (q : Q) : Q :=
  if Qeq_bool q 0 then 0%Q
  else
    let a := Qabs q in
    let ulp := ((2 # 1) ^ Z.max (floor_log2 a - 52) (-1074))%Q in
    let v := Qred (inject_Z (round_half_even (a / ulp)) * ulp) in
    if Qnum q <? 0 then (- v)%Q else v.

(** [f"{x:.Nf}"]: the float is printed from its exact binary value, rounded
    to [N] decimals, ties to even. *)
Definition format_fixed (digits : nat) (x : option Q) : string :=
  match x with
  | None => "nan"%string
  | Some q =>
      let scale := 10 ^ Z.of_nat digits in
      let r := Z.abs (round_half_even (binary64 q * inject_Z scale)) in
      let sign := if Qnum q <? 0 then "-"%string else EmptyString in
      let whole := show_N (Z.to_N (r / scale)) in
      let fraction := zero_pad digits (show_N (Z.to_N (r mod scale))) in
      (sign ++ whole ++ "." ++ fraction)%string
  end.

Record key_metrics_t : Type := mkMetrics {
  total_trips : nat;
  avg_trip_distance : string;
  avg_trip_duration : string;
  avg_total_amount : string
}.

Definition key_metrics (filtered_df : DataFrame) : option key_metrics_t :=
  let n := len filtered_df in
  distance <- get filtered_df "trip_distance" ;;
  distance <- series_mean distance ;;
  duration <- get filtered_df "trip_duration" ;;
  duration <- series_mean duration ;;
  amount <- get filtered_df "total_amount" ;;
  amount <- series_mean amount ;;
  Some (mkMetrics n
          (format_fixed 2 distance ++ " miles")
          (format_fixed 2 duration ++ " mins")
          ("$" ++ format_fixed 2 amount))%string.

(** ** Grouped counts (line 178) *)

Definition dedup {A : Type} (eqb : A -> A -> bool) (l : list A) : list A :=
  fold_right (fun a acc => if existsb (eqb a) acc then acc else a :: acc) [] l.

Definition count_of (v : scalar) (l : list scalar) : nat :=
  length (filter (scalar_eqb v) l).

(** [Series.value_counts()]: one entry per distinct non-missing value.  The
    order of the entries is not modelled; [reindex] looks entries up by
    label. *)
Definition value_counts (c : column) : list (scalar * nat) :=
  let vs := present (cells c) in
  map (fun v => (v, count_of v vs)) (dedup scalar_eqb vs).

Definition lookup {A : Type} (k : scalar) (l : list (scalar * A)) : option A :=
  option_map snd (find (fun kv => scalar_eqb (fst kv) k) l).

(** [Series.reindex(labels)]: the labels in the given order; a label the
    Series has no entry for gets NaN. *)
Definition reindex {A : Type} (labels : list scalar) (s : list (scalar * A))
  : list (scalar * option A) :=
  map (fun l => (l, lookup l s)) labels.

Definition weekday_order : list scalar := map SStr Calendar.day_names.

Definition weekday_counts (filtered_df : DataFrame)
  : option (list (scalar * option nat)) :=
  weekday <- get filtered_df "weekday" ;;
  Some (reindex weekday_order (value_counts weekday)).

(** ** The scatter-plot sample (line 202) *)

Fixpoint remove_nth {A : Type} (k : nat) (l : list A) : list A :=
  match l, k with
  | [], _ => []
  | _ :: r, O => r
  | a :: r, S k' => a :: remove_nth k' r
  end.

(** [n] draws without replacement from [pool]; the generator's output is the
    explicit list [entropy], one number per draw. *)
Fixpoint draw (entropy : list nat) (n : nat) (pool : list nat) : list nat :=
  match n with
  | O => []
  | S n' =>
      match pool with
      | [] => []
      | p0 :: _ =>
          let k := Nat.modulo (hd O entropy) (length pool) in
          nth k pool p0 :: draw (tl entropy) n' (remove_nth k pool)
      end
  end.

(** [Generator.choice(population, size=n, replace=False)]: a sample larger
    than the population is a ValueError. *)
Definition choice (entropy : list nat) (n population : nat) : option (list nat) :=
  if Nat.ltb population n then None
  else Some (draw entropy n (seq O population)).

(** Positional indexing; a position past the end is an IndexError. *)
Definition pick {A : Type} (positions : list nat) (xs : list A) : option (list A) :=
  mapM (nth_error xs) positions.

Definition col_pick (positions : list nat) (c : column) : option column :=
  match c with
  | NumCol xs => option_map NumCol (pick positions xs)
  | ObjCol xs => option_map ObjCol (pick positions xs)
  | TimeCol xs => option_map TimeCol (pick positions xs)
  end.

(** [df.iloc[positions]] *)
Definition iloc (positions : list nat) (df : DataFrame) : option DataFrame :=
  labels <- pick positions (index df) ;;
  columns <- mapM (fun nc => c <- col_pick positions (snd nc) ;; Some (fst nc, c))
                  (cols df) ;;
  Some (mkFrame labels columns).

(** [df.sample(n)] *)
Definition sample (entropy : list nat) (n : nat) (df : DataFrame)
  : option DataFrame :=
  positions <- choice entropy n (len df) ;;
  iloc positions df.

Definition sample_size (filtered_df : DataFrame) : nat :=
  Nat.min 1000 (len filtered_df).

Definition sample_df (entropy : list nat) (filtered_df : DataFrame)
  : option DataFrame :=
  sample entropy (sample_size filtered_df) filtered_df.

(** ** Grouping and the contingency table *)

Definition group_keys (c : column) : list scalar :=
  sort scalar_leb (dedup scalar_eqb (present (cells c))).

(** [df.groupby(name)]: one sub-frame per distinct non-missing key, keys in
    sorted order. *)
Definition groupby (df : DataFrame) (name : string)
  : option (list (scalar * DataFrame)) :=
  c <- get df name ;;
  Some (map (fun k => (k, take_rows (mask_eq c k) df)) (group_keys c)).

(** [[g['total_amount'] for _, g in test_df.groupby(name)]] *)
Definition amount_groups (test_df : DataFrame) (name : string)
  : option (list column) :=
  groups <- groupby test_df name ;;
  mapM (fun kg => get (snd kg) "total_amount") groups.

Record crosstab_t : Type := mkCrosstab {
  row_labels : list scalar;
  col_labels : list scalar;
  counts : list (list nat)
}.

Definition both_present (ab : option scalar * option scalar)
  : option (scalar * scalar) :=
  match ab with
  | (Some a, Some b) => Some (a, b)
  | _ => None
  end.

Definition pair_eqb (p q : scalar * scalar) : bool :=
  scalar_eqb (fst p) (fst q) && scalar_eqb (snd p) (snd q).

(** [pd.crosstab(a, b)]: rows with a missing key are dropped; the labels of
    each axis are the sorted distinct keys that remain. *)
Definition crosstab (a b : column) : crosstab_t :=
  let pairs := present (map both_present (combine (cells a) (cells b))) in
  let rows := sort scalar_leb (dedup scalar_eqb (map fst pairs)) in
  let columns := sort scalar_leb (dedup scalar_eqb (map snd pairs)) in
  mkCrosstab rows columns
    (map (fun r => map (fun c => length (filter (pair_eqb (r, c)) pairs)) columns)
         rows).

(** [contingency.shape] *)
Definition shape (t : crosstab_t) : nat * nat :=
  (length (row_labels t), length (col_labels t)).

(** ** The statistical tests (lines 333-395) *)

Inductive test_report : Type :=
| Performed (statistic p_value : option Q) (significant : bool)
| CannotPerform (message : string).

(** [p < 0.05]; a comparison with NaN is False. *)
Definition below_alpha (p : option Q) : bool :=
  match p with
  | Some q => negb (Qle_bool (5 # 100) q)
  | None => false
  end.

(** [len(groups) >= 2 and all(len(group) > 0 for group in groups)] *)
Definition anova_guard (groups : list column) : bool :=
  Nat.leb 2 (length groups) && forallb (fun g => Nat.ltb 0 (col_len g)) groups.

(** [contingency.shape[0] >= 2 and contingency.shape[1] >= 2] *)
Definition chi2_guard (t : crosstab_t) : bool :=
  Nat.leb 2 (fst (shape t)) && Nat.leb 2 (snd (shape t)).

Definition show_shape (sh : nat * nat) : string :=
  ("(" ++ show_nat (fst sh) ++ ", " ++ show_nat (snd sh) ++ ")")%string.

Section StatisticalTests.

(** [scipy.stats.f_oneway] and [scipy.stats.chi2_contingency] are library
    functions: the F statistic with its p-value, and the statistic, p-value,
    degrees of freedom and expected frequencies. *)
Variable f_oneway : list column -> option Q * option Q.
Variable chi2_contingency :
  list (list nat) -> option Q * option Q * nat * list (list Q).

Definition anova (groups : list column) (warning : string) : test_report :=
  if anova_guard groups
  then
    let '(f_stat, p_value) := f_oneway groups in
    Performed f_stat p_value (below_alpha p_value)
  else CannotPerform warning.

(** Lines 334-346; [None] when the frame has no trip type column. *)
Definition anova_trip_type (test_df : DataFrame) : option (option test_report) :=
  if has_column test_df "trip_type_name"
  then
    trip_type_groups <- amount_groups test_df "trip_type_name" ;;
    Some (Some (anova trip_type_groups
      "Cannot perform ANOVA test on trip types - need at least 2 groups with data"))
  else Some None.

(** Lines 349-360. *)
Definition anova_weekday (test_df : DataFrame) : option test_report :=
  weekday_groups <- amount_groups test_df "weekday" ;;
  Some (anova weekday_groups
    ("Cannot perform ANOVA test on weekdays - need at least 2 weekdays with data (found "
       ++ show_nat (length weekday_groups) ++ ")")%string).

(** Lines 363-374. *)
Definition anova_week (test_df : DataFrame) : option test_report :=
  week_groups <- amount_groups test_df "week_name" ;;
  Some (anova week_groups
    ("Cannot perform ANOVA test on weeks - need at least 2 weeks with data (found "
       ++ show_nat (length week_groups) ++ ")")%string).

(** Lines 377-395; [None] when the frame has no trip type column. *)
Definition chi_square (test_df : DataFrame) : option (option test_report) :=
  if has_column test_df "trip_type_name"
  then
    trip_type <- get test_df "trip_type_name" ;;
    payment <- get test_df "payment_type_name" ;;
    let contingency := crosstab trip_type payment in
    if chi2_guard contingency
    then
      let '(chi2, p, _, _) := chi2_contingency (counts contingency) in
      Some (Some (Performed chi2 p (below_alpha p)))
    else
      Some (Some (CannotPerform
        ("Cannot perform chi-square test - need at least 2 categories in both dimensions (current shape: "
           ++ show_shape (shape contingency) ++ ")")%string))
  else Some None.

End StatisticalTests.

(** ** Reading one cell, for the statements below *)

(** The cell of column [name] at row position [i]. *)
Definition cell_at (df : DataFrame) (name : string) (i : nat)
  : option (option scalar) :=
  c <- get df name ;;
  nth_error (cells c) i.

(** The ordinal label of a week number, from the table of [load_data]. *)
Definition week_label (w : Z) : option string :=
  option_map snd (find (fun kv => Z.eqb (fst kv) w) week_names).

(** ** A small dataset, used to exercise the statements *)

Definition aug2023 (d h m : Z) : option Z :=
  Some (((19570 + d - 1) * 86400 + h * 3600 + m * 60) * 1000000000).

Definition num (a : Z) (b : positive) : option Q := Some (a # b).

(** Five trips of August 2023; the fourth has no pickup time and the second
    is dropped off before it is picked up. *)
Definition demo_raw : DataFrame :=
  mkFrame [0; 1; 2; 3; 4]%nat
    [("lpep_pickup_datetime",
      TimeCol [aug2023 3 10 0; aug2023 10 11 30; aug2023 3 9 0; None;
               aug2023 31 23 50]);
     ("lpep_dropoff_datetime",
      TimeCol [aug2023 3 10 20; aug2023 10 11 15; aug2023 3 9 45;
               aug2023 20 1 0; aug2023 32 0 10]);
     ("passenger_count", NumCol [num 1 1; num 2 1; None; num 1 1; num 1 1]);
     ("trip_distance", NumCol [num 12 10; num 3 1; num 5 2; None; num 7 1]);
     ("fare_amount", NumCol [num 8 1; num 15 1; num 25 1; None; num 40 1]);
     ("payment_type", NumCol [num 1 1; num 2 1; num 1 1; num 2 1; None]);
     ("trip_type", NumCol [num 1 1; num 1 1; num 1 1; num 2 1; None]);
     ("total_amount", NumCol [num 10 1; num 20 1; num 30 1; None; num 44 1]);
     ("store_and_fwd_flag", ObjCol [None; Some "N"; None; Some "Y"; None])]%string.

Definition demo_df : DataFrame :=
  Eval vm_compute in
    match load_data demo_raw with
    | Some df => df
    | None => demo_raw
    end.

(** The rows at which two exact-match predicates hold together: the
    element-wise AND of the two masks, applied once. *)
Definition select_both (a : string) (x : scalar) (b : string) (y : scalar)
           (df : DataFrame) : option DataFrame :=
  ca <- get df a ;;
  cb <- get df b ;;
  Some (take_rows (zip_with andb (mask_eq ca x) (mask_eq cb y)) df).

Definition is_numeric (df : DataFrame) (name : string) : bool :=
  match get df name with
  | Some (NumCol _) => true
  | _ => false
  end.

(** The view of [demo_df] for a Monday: no trip matches. *)
Definition demo_monday : DataFrame :=
  Eval vm_compute in
    match apply_filters demo_df
            (mkSelection "All Weeks" "Monday" "Credit Card" 1 "Street-hail" 10) with
    | Some df => df
    | None => demo_df
    end.

(** A view the sidebar can produce: the Thursday trips paid by card with one
    passenger, hailed in the street and dropped off between 10 and 11.  The
    first trip of the demo file is the only one. *)
Definition demo_selection : selection :=
  mkSelection "All Weeks" "Thursday" "Credit Card" 1 "Street-hail" 10.

Definition demo_view : DataFrame :=
  Eval vm_compute in
    match apply_filters demo_df demo_selection with
    | Some df => df
    | None => demo_df
    end.

(** The nearest non-missing value at or above row [i], searching upwards
    in row order. *)
Fixpoint nearest_preceding {A : Type} (xs : list (option A)) (i : nat)
  : option A :=
  match nth_error xs i with
  | Some (Some v) => Some v
  | _ =>
      match i with
      | O => None
      | S j => nearest_preceding xs j
      end
  end.

(** The two fill steps in the other order, for comparison. *)
Definition fill_missing_swapped (df : DataFrame) : DataFrame :=
  fillna_median (ffill_frame df).

(** One numeric column with a gap between two different values. *)
Definition demo_gap : DataFrame :=
  mkFrame [0; 1; 2; 3]%nat
    [("total_amount"%string, NumCol [num 1 1; None; num 3 1; num 100 1])].

(** The frames of the tests tab for three choices of its weekday filter. *)
Definition demo_tests (test_weekday : string) : DataFrame :=
  match test_filters demo_df test_weekday "All" "All" with
  | Some df => df
  | None => demo_df
  end.

Definition demo_all : DataFrame := Eval vm_compute in demo_tests "All".
Definition demo_thursday : DataFrame := Eval vm_compute in demo_tests "Thursday".
Definition demo_no_trip : DataFrame := Eval vm_compute in demo_tests "Monday".

(** An instance of the library test for running the examples: Pearson's
    statistic from the marginal sums, without a p-value. *)
Definition sum_nat (l : list nat) : nat := fold_right Nat.add O l.

Definition pearson (table : list (list nat))
  : option Q * option Q * nat * list (list Q) :=
  let row_sums := map sum_nat table in
  let width := length (hd [] table) in
  let col_sums :=
    map (fun j => sum_nat (map (fun r => nth j r O) table)) (seq O width) in
  let total := sum_nat row_sums in
  let expected :=
    map (fun r => map (fun c => Z.of_nat (r * c) # Pos.of_nat total) col_sums)
        row_sums in
  let term (o : nat) (e : Q) := ((inject_Z (Z.of_nat o) - e) ^ 2 / e)%Q in
  (Some (Qred (Qsum (concat (zip_with (zip_with term) table expected)))), None,
   ((length table - 1) * (width - 1))%nat, expected).

(** ** Names used by the further properties *)

(** The names [derive_columns] assigns. *)
Definition derived_names : list string :=
  ["trip_duration"; "weekday"; "hourofday"; "day_of_month"; "week_of_month";
   "week_name"]%string.

Definition dropped_names : list string := ["ehail_fee"; "fare_amount"]%string.


(** The label a table of [load_data] gives an integer code, if any. *)
Definition code_label (table : list (Z * string)) (k : Z) : option string :=
  option_map snd (find (fun kv => Z.eqb (fst kv) k) table).

(** ** The filter chain as a list of predicates *)

(** The exact-match predicates the sidebar supplies, in the order lines
    139-150 apply them. *)
Definition criteria (df : DataFrame) (s : selection) : list (string * scalar) :=
  (if String.eqb (selected_week s) "All Weeks" then []
   else [("week_name"%string, SStr (selected_week s))]) ++
  [("weekday"%string, SStr (selected_weekday s));
   ("payment_type_name"%string, SStr (selected_payment s));
   ("passenger_count"%string, SNum (selected_passenger s))] ++
  (if has_column df "trip_type_name"
   then [("trip_type_name"%string, SStr (selected_trip_type s))]
   else []) ++
  [("hourofday"%string, SNum (selected_hour s))].

(** The predicates of the tests tab (lines 321-326). *)
Definition test_criteria (test_weekday test_payment test_week : string)
  : list (string * scalar) :=
  (if String.eqb test_weekday "All" then []
   else [("weekday"%string, SStr test_weekday)]) ++
  (if String.eqb test_payment "All" then []
   else [("payment_type_name"%string, SStr test_payment)]) ++
  (if String.eqb test_week "All" then []
   else [("week_name"%string, SStr test_week)]).

(** One boolean-index filter after the other. *)
Fixpoint select_all (l : list (string * scalar)) (df : DataFrame)
  : option DataFrame :=
  match l with
  | [] => Some df
  | (name, v) :: r => df' <- select name v df ;; select_all r df'
  end.

(** The mask of one predicate on the unfiltered frame. *)
Definition criterion_mask (df : DataFrame) (nv : string * scalar)
  : option (list bool) :=
  c <- get df (fst nv) ;;
  Some (mask_eq c (snd nv)).

(** The element-wise AND of the masks of all predicates, each computed on
    the unfiltered frame; [Some None] when there is no predicate. *)
Fixpoint combined_mask (l : list (string * scalar)) (df : DataFrame)
  : option (option (list bool)) :=
  match l with
  | [] => Some None
  | nv :: r =>
      m <- criterion_mask df nv ;;
      rest <- combined_mask r df ;;
      Some (Some (match rest with
                  | None => m
                  | Some m' => zip_with andb m m'
                  end))
  end.

Definition take_rows_opt (m : option (list bool)) (df : DataFrame) : DataFrame :=
  match m with
  | None => df
  | Some m => take_rows m df
  end.

(** All predicates at once: one boolean index with the AND of the masks. *)
Definition filter_by_all (l : list (string * scalar)) (df : DataFrame)
  : option DataFrame :=
  m <- combined_mask l df ;;
  Some (take_rows_opt m df).

(** Every cell of column [name] equals [v]. *)
Definition all_match (df : DataFrame) (name : string) (v : scalar) : bool :=
  match get df name with
  | Some c => forallb (cell_eqb v) (cells c)
  | None => false
  end.

(** ** The other grouped aggregates of the charts *)

(** [Series.sort_index()] *)
Definition sort_index {A : Type} (s : list (scalar * A)) : list (scalar * A) :=
  sort (fun a b => scalar_leb (fst a) (fst b)) s.

(** Line 191. *)
Definition hour_counts (filtered_df : DataFrame) : option (list (scalar * nat)) :=
  hourofday <- get filtered_df "hourofday" ;;
  Some (sort_index (value_counts hourofday)).

(** Line 216. *)
Definition week_counts (filtered_df : DataFrame) : option (list (scalar * nat)) :=
  week_name <- get filtered_df "week_name" ;;
  Some (sort_index (value_counts week_name)).

(** Line 234. *)
Definition payment_counts (filtered_df : DataFrame) : option (list (scalar * nat)) :=
  payment <- get filtered_df "payment_type_name" ;;
  Some (value_counts payment).

(** Lines 246-247; [None] inside when the frame has no trip type labels. *)
Definition trip_counts (filtered_df : DataFrame)
  : option (option (list (scalar * nat))) :=
  if has_column filtered_df "trip_type_name"
  then
    trip_type <- get filtered_df "trip_type_name" ;;
    Some (Some (value_counts trip_type))
  else Some None.

(** No two keys of the list are equal. *)
Fixpoint distinct_keys (ks : list scalar) : bool :=
  match ks with
  | [] => true
  | k :: r => negb (existsb (scalar_eqb k) r) && distinct_keys r
  end.

Definition key_leb {A : Type} (a b : scalar * A) : bool :=
  scalar_leb (fst a) (fst b).

(** ** Mean total amount per group (lines 259 and 272) *)

(** [df.groupby(name)['total_amount'].mean()]: both columns are looked up
    first; one mean per key, keys in sorted order. *)
Definition group_means (df : DataFrame) (name : string)
  : option (list (scalar * option Q)) :=
  c <- get df name ;;
  amount <- get df "total_amount" ;;
  mapM (fun k => m <- series_mean (col_select (mask_eq c k) amount) ;; Some (k, m))
       (group_keys c).

(** [reindex] on a Series of floats: a label without entry gets NaN, which
    is also what a mean over missing cells is. *)
Definition reindex_float (labels : list scalar) (s : list (scalar * option Q))
  : list (scalar * option Q) :=
  map (fun l => (l, match lookup l s with Some m => m | None => None end)) labels.

Definition week_order : list scalar :=
  map SStr ["1st Week"; "2nd Week"; "3rd Week"; "4th Week"; "5th Week"]%string.

Definition avg_amount (filtered_df : DataFrame)
  : option (list (scalar * option Q)) :=
  means <- group_means filtered_df "weekday" ;;
  Some (reindex_float weekday_order means).

Definition avg_amount_by_week (filtered_df : DataFrame)
  : option (list (scalar * option Q)) :=
  means <- group_means filtered_df "week_name" ;;
  Some (reindex_float week_order means).

(** The mean of the amounts of the rows whose key equals [d]; NaN when
    there is no such row or none of them has an amount. *)
Definition mean_where (c : column) (d : scalar) (amounts : list (option Q))
  : option Q :=
  match present (select_mask (mask_eq c d) amounts) with
  | [] => None
  | vs => Some (Qsum vs / inject_Z (Z.of_nat (length vs)))%Q
  end.

(** ** The raw data preview (line 399) *)

Definition col_head (n : nat) (c : column) : column :=
  match c with
  | NumCol xs => NumCol (firstn n xs)
  | ObjCol xs => ObjCol (firstn n xs)
  | TimeCol xs => TimeCol (firstn n xs)
  end.

(** [df.head(n)] *)
Definition head (n : nat) (df : DataFrame) : DataFrame :=
  mkFrame (firstn n (index df))
          (map (fun nc => (fst nc, col_head n (snd nc))) (cols df)).

Definition raw_data_preview (filtered_df : DataFrame) : DataFrame :=
  head 100 filtered_df.

(** An instance of the library ANOVA for running the examples: the F
    statistic of the groups, without a p-value; NaN when it is undefined. *)
Definition f_statistic (groups : list column) : option Q * option Q :=
  let values g := match g with NumCol xs => present xs | _ => [] end in
  let gs := map values groups in
  let all := concat gs in
  let count (l : list Q) := inject_Z (Z.of_nat (length l)) in
  let mean (l : list Q) := (Qsum l / count l)%Q in
  let grand := mean all in
  let between :=
    Qsum (map (fun g => count g * (mean g - grand) ^ 2)%Q gs) in
  let within :=
    Qsum (map (fun g => Qsum (map (fun x => (x - mean g) ^ 2)%Q g)) gs) in
  let k := length gs in
  let n := length all in
  if Nat.leb k 1 || Nat.leb n k || Qeq_bool within 0
  then (None, None)
  else (Some (Qred ((between / inject_Z (Z.of_nat (k - 1)))
                    / (within / inject_Z (Z.of_nat (n - k))))%Q), None).

(** ** The marginal totals of the contingency table *)

Definition row_totals (t : crosstab_t) : list nat := map sum_nat (counts t).

Definition col_totals (t : crosstab_t) : list nat :=
  map (fun j => sum_nat (map (fun row => nth j row O) (counts t)))
      (seq O (length (col_labels t))).

(** The rows of two columns at which both cells are present. *)
Definition labelled_pairs (a b : column) : list (scalar * scalar) :=
  present (map both_present (combine (cells a) (cells b))).


(** A file with one trip, picked up on 1678-01-01 and dropped off on
    2262-01-01: both instants are datetime64[ns] values, their difference
    is no int64. *)
Definition demo_overflow : DataFrame :=
  mkFrame [0%nat]
    [("lpep_pickup_datetime", TimeCol [Some (Calendar.timestamp 1678 1 1 0)]);
     ("lpep_dropoff_datetime", TimeCol [Some (Calendar.timestamp 2262 1 1 0)]);
     ("payment_type", NumCol [num 1 1])]%string.

(** The demo file with codes outside the two tables: payment code 4 and
    trip type code 3 on the second trip; the trip type of the last trip is
    missing and its median fill is 1.5. *)
Definition demo_codes : DataFrame :=
  set_col
    (set_col demo_raw "payment_type"
       (NumCol [num 1 1; num 4 1; num 1 1; num 2 1; num 2 1]))
    "trip_type" (NumCol [num 1 1; num 3 1; num 1 1; num 2 1; None]).

Definition demo_codes_df : DataFrame :=
  Eval vm_compute in
    match load_data demo_codes with
    | Some df => df
    | None => demo_codes
    end.

(** * Properties *)

(** ** Association lists and frames *)

Lemma assoc_set_same {A : Type} (n : string) (a : A) (l : list (string * A)) :
  assoc n (set_assoc n a l) = Some a.
Proof.
  induction l as [|[m b] r IH]; simpl.
  - now rewrite String.eqb_refl.
  - destruct (String.eqb m n) eqn:E; simpl; rewrite E; auto.
Qed.

Lemma assoc_set_other {A : Type} (n n' : string) (a : A) (l : list (string * A)) :
  String.eqb n n' = false ->
  assoc n' (set_assoc n a l) = assoc n' l.
Proof.
  intros Hne. induction l as [|[m b] r IH]; simpl.
  - now rewrite Hne.
  - destruct (String.eqb m n) eqn:E; simpl.
    + apply String.eqb_eq in E. subst m. now rewrite Hne.
    + destruct (String.eqb m n'); auto.
Qed.

Lemma assoc_drop {A : Type} (names : list string) (n : string)
      (l : list (string * A)) :
  existsb (fun m => String.eqb m n) names = false ->
  assoc n (filter (fun nc => negb (existsb (String.eqb (fst nc)) names)) l)
  = assoc n l.
Proof.
  intros Hn. induction l as [|[m b] r IH]; simpl; auto.
  destruct (String.eqb m n) eqn:E.
  - apply String.eqb_eq in E. subst m.
    assert (Hd : existsb (String.eqb n) names = false).
    { rewrite <- Hn. clear. induction names as [|x r IH]; simpl; auto.
      now rewrite IH, String.eqb_sym. }
    rewrite Hd. simpl. now rewrite String.eqb_refl.
  - destruct (existsb (String.eqb m) names); simpl; auto. now rewrite E.
Qed.

Lemma assoc_map_cols {A B : Type} (f : A -> B) (n : string) (l : list (string * A)) :
  assoc n (map (fun nc => (fst nc, f (snd nc))) l) = option_map f (assoc n l).
Proof.
  induction l as [|[m b] r IH]; simpl; auto.
  destruct (String.eqb m n); auto.
Qed.

Lemma get_set_same df n c : get (set_col df n c) n = Some c.
Proof. apply assoc_set_same. Qed.

Lemma get_set_other df n n' c :
  String.eqb n n' = false -> get (set_col df n c) n' = get df n'.
Proof. apply assoc_set_other. Qed.

Lemma get_time_set_other df n n' c :
  String.eqb n n' = false -> get_time (set_col df n c) n' = get_time df n'.
Proof. intros H. unfold get_time. now rewrite get_set_other. Qed.

Lemma get_map_cols f df n : get (map_cols f df) n = option_map f (get df n).
Proof. apply assoc_map_cols. Qed.

Lemma get_fill_missing df n :
  get (fill_missing df) n
  = option_map (fun c => ffill_col (fillna_median_col c)) (get df n).
Proof.
  unfold fill_missing, ffill_frame, fillna_median.
  rewrite !get_map_cols. now destruct (get df n).
Qed.

Lemma get_name_columns df df' n :
  name_columns df = Some df' ->
  String.eqb "payment_type_name" n = false ->
  String.eqb "trip_type_name" n = false ->
  get df' n = get df n.
Proof.
  unfold name_columns. intros H Hp Ht.
  destruct (get df "payment_type") as [pt|]; simpl in H; [|discriminate].
  destruct (has_column _ "trip_type").
  - destruct (get _ "trip_type") as [tt|]; simpl in H; [|discriminate].
    injection H as <-. now rewrite !get_set_other.
  - injection H as <-. now rewrite get_set_other.
Qed.

Lemma trip_durations_some dropoff pickup durations :
  trip_durations dropoff pickup = Some durations ->
  existsb (fun b : bool => b) (zip_with sub_overflows dropoff pickup) = false /\
  durations = zip_with trip_duration dropoff pickup.
Proof.
  unfold trip_durations.
  destruct (existsb _ (zip_with sub_overflows dropoff pickup)); [discriminate|].
  intros [= <-]. auto.
Qed.

(** The frame [derive_columns] builds, column by column. *)
Lemma derive_columns_inv raw df :
  derive_columns raw = Some df ->
  exists dropoff pickup,
    get_time raw "lpep_dropoff_datetime" = Some dropoff /\
    get_time raw "lpep_pickup_datetime" = Some pickup /\
    let day_of_month := map (option_map (fun t => qcell (Calendar.day t))) pickup in
    let week := map (option_map week_of_month) day_of_month in
    get df "trip_duration" = Some (NumCol (zip_with trip_duration dropoff pickup)) /\
    get df "weekday" = Some (ObjCol (map (option_map Calendar.day_name) dropoff)) /\
    get df "hourofday"
      = Some (NumCol (map (option_map (fun t => qcell (Calendar.hour t))) dropoff)) /\
    get df "day_of_month" = Some (NumCol day_of_month) /\
    get df "week_of_month" = Some (NumCol week) /\
    get df "week_name" = Some (ObjCol (map (map_codes week_names) week)).
Proof.
  unfold derive_columns. intros H.
  assert (Hd : forall n, existsb (fun m => String.eqb m n) ["ehail_fee"; "fare_amount"]%string = false ->
                         get_time (drop_columns ["ehail_fee"; "fare_amount"]%string raw) n
                         = get_time raw n).
  { intros n Hn. unfold get_time, get, drop_columns. cbn [cols].
    now rewrite assoc_drop. }
  rewrite !Hd in H by reflexivity.
  destruct (get_time raw "lpep_dropoff_datetime") as [dropoff|] eqn:Ed;
    simpl in H; [|discriminate].
  destruct (get_time raw "lpep_pickup_datetime") as [pickup|] eqn:Ep;
    simpl in H; [|discriminate].
  destruct (trip_durations dropoff pickup) as [durations|] eqn:Et;
    simpl in H; [|discriminate].
  apply trip_durations_some in Et. destruct Et as [_ ->].
  rewrite !get_time_set_other, !Hd, Ed in H by reflexivity. simpl in H.
  rewrite !get_time_set_other, !Hd, Ed in H by reflexivity. simpl in H.
  rewrite !get_time_set_other, !Hd, Ep in H by reflexivity. simpl in H.
  injection H as <-.
  exists dropoff, pickup. repeat split.
  all: repeat (first [ apply get_set_same
                     | rewrite get_set_other by reflexivity ]).
Qed.

(** A frame is derived only when no subtraction of line 45 overflows. *)
Lemma derive_columns_no_overflow raw df dropoff pickup :
  derive_columns raw = Some df ->
  get_time raw "lpep_dropoff_datetime" = Some dropoff ->
  get_time raw "lpep_pickup_datetime" = Some pickup ->
  existsb (fun b : bool => b) (zip_with sub_overflows dropoff pickup) = false.
Proof.
  unfold derive_columns. intros H Ed Ep.
  assert (Hd : forall n, existsb (fun m => String.eqb m n) ["ehail_fee"; "fare_amount"]%string = false ->
                         get_time (drop_columns ["ehail_fee"; "fare_amount"]%string raw) n
                         = get_time raw n).
  { intros n Hn. unfold get_time, get, drop_columns. cbn [cols].
    now rewrite assoc_drop. }
  rewrite !Hd, Ed, Ep in H by reflexivity. cbn [bind] in H.
  destruct (trip_durations dropoff pickup) as [durations|] eqn:Et;
    [|discriminate].
  now apply trip_durations_some in Et.
Qed.

(** Some subtraction of line 45 overflows exactly when a row that has both
    timestamps has a difference outside int64. *)
Lemma overflow_row dropoff pickup :
  existsb (fun b : bool => b) (zip_with sub_overflows dropoff pickup) = true <->
  exists i d p,
    nth_error dropoff i = Some (Some d) /\
    nth_error pickup i = Some (Some p) /\
    fits_int64 (d - p) = false.
Proof.
  revert pickup. induction dropoff as [|x dropoff IH]; intros [|y pickup].
  - simpl. split; [discriminate|]. now intros ([|i] & d & p & H & _).
  - simpl. split; [discriminate|]. now intros ([|i] & d & p & H & _).
  - simpl. split; [discriminate|]. now intros ([|i] & d & p & _ & H & _).
  - cbn [zip_with existsb]. rewrite orb_true_iff, IH. split.
    + intros [H|(i & d & p & Hd & Hp & Hf)].
      * exists O. destruct x as [d|], y as [p|]; try discriminate.
        exists d, p. simpl in *. repeat split.
        now apply negb_true_iff in H.
      * exists (S i), d, p. auto.
    + intros ([|i] & d & p & Hd & Hp & Hf); simpl in Hd, Hp.
      * injection Hd as ->. injection Hp as ->. left. simpl. now rewrite Hf.
      * right. exists i, d, p. auto.
Qed.

Lemma no_overflow_row dropoff pickup i d p :
  existsb (fun b : bool => b) (zip_with sub_overflows dropoff pickup) = false ->
  nth_error dropoff i = Some (Some d) ->
  nth_error pickup i = Some (Some p) ->
  int64_min <= d - p <= int64_max.
Proof.
  intros Ho Hd Hp.
  destruct (fits_int64 (d - p)) eqn:Hf.
  - unfold fits_int64 in Hf. apply andb_true_iff in Hf. lia.
  - assert (E : existsb (fun b : bool => b) (zip_with sub_overflows dropoff pickup) = true).
    { apply overflow_row. exists i, d, p. auto. }
    congruence.
Qed.

(** ** The calendar *)

Lemma day_of_year_range doe :
  0 <= doe < 146097 -> 0 <= Calendar.day_of_year doe <= 365.
Proof.
  unfold Calendar.day_of_year, Calendar.year_of_era. intros H. cbv zeta.
  Z.div_mod_to_equations. lia.
Qed.

Lemma day_from_doy_range doy :
  0 <= doy <= 365 -> 1 <= Calendar.day_from_doy doy <= 31.
Proof.
  unfold Calendar.day_from_doy. intros H. cbv zeta.
  Z.div_mod_to_equations. lia.
Qed.

(** [dt.day] is a day of a month, whatever the instant. *)
Lemma day_range t : 1 <= Calendar.day t <= 31.
Proof.
  unfold Calendar.day. apply day_from_doy_range, day_of_year_range.
  unfold Calendar.day_of_era. apply Z.mod_pos_bound. lia.
Qed.

Lemma hour_range t : 0 <= Calendar.hour t <= 23.
Proof.
  unfold Calendar.hour, Calendar.ns_per_day, Calendar.ns_per_hour,
    Calendar.ns_per_second.
  Z.div_mod_to_equations. lia.
Qed.

Lemma yoe_rec yoe doy :
  0 <= yoe <= 399 ->
  0 <= doy <= 364 + ((yoe + 1) / 4 - yoe / 4) - ((yoe + 1) / 100 - yoe / 100) + (yoe + 1) / 400 ->
  Calendar.year_of_era (yoe * 365 + yoe / 4 - yoe / 100 + doy) = yoe.
Proof.
  intros H1 H2. unfold Calendar.year_of_era.
  Z.div_mod_to_equations. lia.
Qed.

Lemma doy_day mp d :
  0 <= mp <= 11 ->
  1 <= d <= (153 * (mp + 1) + 2) / 5 - (153 * mp + 2) / 5 ->
  Calendar.day_from_doy ((153 * mp + 2) / 5 + d - 1) = d.
Proof.
  intros Hm Hd. unfold Calendar.day_from_doy. cbv zeta.
  assert (C : mp = 0 \/ mp = 1 \/ mp = 2 \/ mp = 3 \/ mp = 4 \/ mp = 5 \/ mp = 6
              \/ mp = 7 \/ mp = 8 \/ mp = 9 \/ mp = 10 \/ mp = 11) by lia.
  (repeat (destruct C as [C|C])); subst; Z.div_mod_to_equations; lia.
Qed.

Lemma civil_doe y m d :
  Calendar.valid_date y m d ->
  let y' := if m <=? 2 then y - 1 else y in
  let yoe := y' mod 400 in
  let mp := if m <=? 2 then m + 9 else m - 3 in
  let doy := (153 * mp + 2) / 5 + d - 1 in
  0 <= yoe <= 399 /\ 0 <= mp <= 11 /\
  1 <= d <= (153 * (mp + 1) + 2) / 5 - (153 * mp + 2) / 5 /\
  0 <= doy <= 364 + ((yoe + 1) / 4 - yoe / 4) - ((yoe + 1) / 100 - yoe / 100) + (yoe + 1) / 400.
Proof.
  intros [Hm Hd]. cbv zeta. unfold Calendar.days_in_month, Calendar.is_leap in Hd.
  assert (C : m = 1 \/ m = 2 \/ m = 3 \/ m = 4 \/ m = 5 \/ m = 6 \/ m = 7
              \/ m = 8 \/ m = 9 \/ m = 10 \/ m = 11 \/ m = 12) by lia.
  (repeat (destruct C as [C|C])); subst;
    cbn [Z.eqb Z.leb Z.compare Pos.compare Pos.compare_cont Pos.eqb orb] in *;
    repeat match goal with
           | H : context [?a =? ?b] |- _ => destruct (Z.eqb_spec a b)
           end; cbn [andb orb negb] in *;
    (split; [|split; [|split]]); Z.div_mod_to_equations; lia.
Qed.

(** [dt.day] of an instant of the day [y]-[m]-[d] is [d]. *)
Lemma day_of_civil y m d off :
  Calendar.valid_date y m d -> 0 <= off < Calendar.ns_per_day ->
  Calendar.day (Calendar.timestamp y m d off) = d.
Proof.
  intros Hv Hoff. unfold Calendar.timestamp, Calendar.day, Calendar.days_since_epoch.
  assert (E : (Calendar.days_from_civil y m d * Calendar.ns_per_day + off) / Calendar.ns_per_day
              = Calendar.days_from_civil y m d).
  { unfold Calendar.ns_per_day, Calendar.ns_per_second in *.
    generalize (Calendar.days_from_civil y m d). intros days.
    Z.div_mod_to_equations. lia. }
  rewrite E. clear E off Hoff.
  destruct (civil_doe y m d Hv) as (Hy & Hm & Hd & Hdoy).
  unfold Calendar.days_from_civil. cbv zeta.
  set (yoe := (if m <=? 2 then y - 1 else y) mod 400) in *.
  set (era := (if m <=? 2 then y - 1 else y) / 400).
  set (mp := if m <=? 2 then m + 9 else m - 3) in *.
  set (doy := (153 * mp + 2) / 5 + d - 1) in *.
  assert (Hdoe : Calendar.day_of_era (era * 146097 + (yoe * 365 + yoe / 4 - yoe / 100 + doy) - 719468)
                 = yoe * 365 + yoe / 4 - yoe / 100 + doy).
  { unfold Calendar.day_of_era. clearbody doy yoe era. Z.div_mod_to_equations. lia. }
  rewrite Hdoe. unfold Calendar.day_of_year. rewrite (yoe_rec yoe doy Hy Hdoy).
  replace (yoe * 365 + yoe / 4 - yoe / 100 + doy - (365 * yoe + yoe / 4 - yoe / 100))
    with doy by lia.
  now apply doy_day.
Qed.

(** [days_from_civil] counts the days of the Gregorian calendar: it is 0 on
    1970-01-01 and grows by one from each day to the next, within a month,
    across months and across years. *)
Lemma days_from_civil_steps :
  Calendar.days_from_civil 1970 1 1 = 0 /\
  (forall y m d, Calendar.days_from_civil y m (d + 1) = Calendar.days_from_civil y m d + 1) /\
  (forall y m, 1 <= m <= 11 ->
     Calendar.days_from_civil y (m + 1) 1 = Calendar.days_from_civil y m (Calendar.days_in_month y m) + 1) /\
  (forall y, Calendar.days_from_civil (y + 1) 1 1 = Calendar.days_from_civil y 12 31 + 1).
Proof.
  split; [reflexivity|]. split; [intros; unfold Calendar.days_from_civil; lia|]. split.
  - intros y m Hm. unfold Calendar.days_from_civil, Calendar.days_in_month, Calendar.is_leap.
    assert (C : m = 1 \/ m = 2 \/ m = 3 \/ m = 4 \/ m = 5 \/ m = 6 \/ m = 7
                \/ m = 8 \/ m = 9 \/ m = 10 \/ m = 11) by lia.
    (repeat (destruct C as [C|C])); subst;
      cbn [Z.eqb Z.leb Z.add Pos.add Pos.succ Z.compare Pos.compare Pos.compare_cont Pos.eqb orb] in *;
      repeat match goal with
             | |- context [?a =? ?b] => destruct (Z.eqb_spec a b)
             end; cbn [andb orb negb];
      Z.div_mod_to_equations; lia.
  - intros y. unfold Calendar.days_from_civil. cbn [Z.leb Z.compare Pos.compare Pos.compare_cont].
    Z.div_mod_to_equations. lia.
Qed.

(** ** Week of month *)

Lemma week_number_range d : 1 <= d <= 31 -> 1 <= (d - 1) / 7 + 1 <= 5.
Proof. intros H. Z.div_mod_to_equations. lia. Qed.

Lemma floordiv_inject (a b : Z) :
  (floordiv (inject_Z a) (inject_Z b) == inject_Z (a / b))%Q.
Proof. unfold floordiv. now rewrite <- Zdiv_Qdiv. Qed.

(** On an integer day the float expression of line 51 is the integer
    expression. *)
Lemma week_of_month_integer (d : Z) :
  (week_of_month (inject_Z d) == inject_Z ((d - 1) / 7 + 1))%Q.
Proof.
  unfold week_of_month, floordiv.
  assert (E : (inject_Z d - inject_Z 1 == inject_Z (d - 1))%Q).
  { unfold Z.sub. now rewrite inject_Z_plus, inject_Z_opp. }
  rewrite E, <- Zdiv_Qdiv, <- inject_Z_plus. reflexivity.
Qed.

Lemma map_codes_integer table (q : Q) (w : Z) :
  (q == inject_Z w)%Q ->
  map_codes table (Some q)
  = option_map snd (find (fun kv => Z.eqb (fst kv) w) table).
Proof.
  intros E. unfold map_codes. f_equal.
  induction table as [|[k s] r IH]; simpl; auto.
  assert (Hk : Qeq_bool q (inject_Z k) = Z.eqb k w).
  { destruct (Z.eqb_spec k w) as [->|Hne].
    - now apply Qeq_bool_iff.
    - destruct (Qeq_bool q (inject_Z k)) eqn:Eq; auto.
      apply Qeq_bool_iff in Eq. rewrite E in Eq.
      unfold Qeq in Eq. simpl in Eq. lia. }
  rewrite Hk. destruct (Z.eqb k w); auto.
Qed.

Lemma week_label_defined w :
  1 <= w <= 5 ->
  week_label w = Some (nth (Z.to_nat (w - 1))
                         ["1st Week"; "2nd Week"; "3rd Week"; "4th Week";
                          "5th Week"]%string EmptyString).
Proof.
  intros H.
  assert (C : w = 1 \/ w = 2 \/ w = 3 \/ w = 4 \/ w = 5) by lia.
  destruct C as [-> | [-> | [-> | [-> | ->]]]]; reflexivity.
Qed.

(** ** Cells that are present survive the two fill steps *)

Lemma nth_error_zip_with {A B C : Type} (f : A -> B -> C) l m i a b :
  nth_error l i = Some a -> nth_error m i = Some b ->
  nth_error (zip_with f l m) i = Some (f a b).
Proof.
  revert m i. induction l as [|x l IH]; intros [|y m] [|i]; simpl;
    try discriminate.
  - now intros [= ->] [= ->].
  - apply IH.
Qed.

Lemma ffill_from_keeps {A : Type} (last : option A) xs i v :
  nth_error xs i = Some (Some v) ->
  nth_error (ffill_from last xs) i = Some (Some v).
Proof.
  revert last i. induction xs as [|x xs IH]; intros last [|i]; simpl;
    try discriminate.
  - now intros [= ->].
  - apply IH.
Qed.

Lemma fillna_keeps {A : Type} (m : option A) xs i v :
  nth_error xs i = Some (Some v) ->
  nth_error (map (fillna_value m) xs) i = Some (Some v).
Proof. intros H. rewrite nth_error_map, H. reflexivity. Qed.

Lemma nth_error_cells_some c i s :
  nth_error (cells c) i = Some (Some s) ->
  match c with
  | NumCol xs => exists q, s = SNum q /\ nth_error xs i = Some (Some q)
  | ObjCol xs => exists l, s = SStr l /\ nth_error xs i = Some (Some l)
  | TimeCol xs => exists t, s = STime t /\ nth_error xs i = Some (Some t)
  end.
Proof.
  destruct c as [xs|xs|xs]; simpl; rewrite nth_error_map;
    destruct (nth_error xs i) as [[v|]|]; simpl; try discriminate;
    intros [= <-]; eauto.
Qed.

Lemma fill_col_keeps c i s :
  nth_error (cells c) i = Some (Some s) ->
  nth_error (cells (ffill_col (fillna_median_col c))) i = Some (Some s).
Proof.
  intros H. apply nth_error_cells_some in H.
  destruct c as [xs|xs|xs]; destruct H as (v & -> & H); simpl;
    rewrite nth_error_map; unfold ffill.
  - erewrite ffill_from_keeps; [reflexivity|]. now apply fillna_keeps.
  - erewrite ffill_from_keeps; [reflexivity|]. exact H.
  - erewrite ffill_from_keeps; [reflexivity|]. exact H.
Qed.

(** A derived cell that is present is the cell of the loaded frame. *)
Lemma load_data_keeps raw d df name i s :
  derive_columns raw = Some d ->
  load_data raw = Some df ->
  String.eqb "payment_type_name" name = false ->
  String.eqb "trip_type_name" name = false ->
  cell_at d name i = Some (Some s) ->
  cell_at df name i = Some (Some s).
Proof.
  unfold load_data, cell_at. intros Hd Hl Hp Ht Hc. rewrite Hd in Hl.
  simpl in Hl. rewrite (get_name_columns _ _ _ Hl Hp Ht), get_fill_missing.
  destruct (get d name) as [c|]; simpl in *; [|discriminate].
  now apply fill_col_keeps.
Qed.

(** ** C1 and C2: the derived columns of the loaded frame *)

(** C1, counterexample to "every row of the loaded dataset": the fourth trip
    of the demo file has no pickup timestamp.  In the loaded frame its
    pickup cell is forward filled with an instant of day 3, its day of month
    and week of month are the column medians 6.5 and 1.5, and its week label
    is forward filled: the week of month is not [((6.5 - 1) // 7) + 1 = 1],
    the day is not the day of the pickup cell, and "1st Week" is not the
    label of 1.5, which has none. *)
Lemma week_of_month_of_filled_row :
  load_data demo_raw = Some demo_df /\
  (exists t, cell_at demo_df "lpep_pickup_datetime" 3 = Some (Some (STime t)) /\
             Calendar.day t = 3) /\
  cell_at demo_df "day_of_month" 3 = Some (Some (SNum (13 # 2))) /\
  cell_at demo_df "week_of_month" 3 = Some (Some (SNum (3 # 2))) /\
  cell_at demo_df "week_name" 3 = Some (Some (SStr "1st Week")) /\
  (week_of_month (13 # 2) == 1)%Q /\
  ~ (3 # 2 == week_of_month (13 # 2))%Q /\
  map_codes week_names (Some (3 # 2)) = None.
Proof.
  split; [vm_compute; reflexivity|].
  split; [eexists; split; [reflexivity|vm_compute; reflexivity]|].
  split; [reflexivity|]. split; [reflexivity|]. split; [reflexivity|].
  split; [reflexivity|]. split; [|reflexivity].
  vm_compute. discriminate.
Qed.

(** C1 (amended). A day of month between 1 and 31 gets the week number
    [((day - 1) // 7) + 1], a number from 1 to 5, and the ordinal label the
    table of [load_data] gives that number; [dt.day] of an instant of a
    calendar day is the number of that day in its month (the days counted
    as in [days_from_civil_steps]); and in the frame
    [load_data] returns, every row whose pickup timestamp is present in the
    file carries the day of that timestamp, this week number and this
    label. *)
Theorem week_of_month_of_loaded_rows :
  (week_label 1 = Some "1st Week"%string /\
   week_label 2 = Some "2nd Week"%string /\
   week_label 3 = Some "3rd Week"%string /\
   week_label 4 = Some "4th Week"%string /\
   week_label 5 = Some "5th Week"%string) /\
  (forall d : Z, 1 <= d <= 31 ->
     let w := (d - 1) / 7 + 1 in
     1 <= w <= 5 /\
     (week_of_month (inject_Z d) == inject_Z w)%Q /\
     map_codes week_names (Some (week_of_month (inject_Z d))) = week_label w /\
     week_label w <> None) /\
  (forall y m d off,
     Calendar.valid_date y m d -> 0 <= off < Calendar.ns_per_day ->
     Calendar.day (Calendar.timestamp y m d off) = d) /\
  (forall raw df pickup i t,
     load_data raw = Some df ->
     get_time raw "lpep_pickup_datetime" = Some pickup ->
     nth_error pickup i = Some (Some t) ->
     let d := Calendar.day t in
     let w := (d - 1) / 7 + 1 in
     1 <= d <= 31 /\
     (exists dq, cell_at df "day_of_month" i = Some (Some (SNum dq)) /\
                 (dq == inject_Z d)%Q) /\
     (exists wq, cell_at df "week_of_month" i = Some (Some (SNum wq)) /\
                 (wq == inject_Z w)%Q) /\
     (exists label, week_label w = Some label /\
                    cell_at df "week_name" i = Some (Some (SStr label)))).
Proof.
  split; [repeat split; reflexivity|]. split; [|split].
  - intros d Hd w. pose proof (week_number_range d Hd) as Hw. fold w in Hw.
    repeat split; try lia.
    + apply week_of_month_integer.
    + apply map_codes_integer, week_of_month_integer.
    + rewrite (week_label_defined w Hw). discriminate.
  - exact day_of_civil.
  - intros raw df pickup i t Hl Hp Hi d w.
    pose proof (day_range t) as Hd. fold d in Hd.
    pose proof (week_number_range d Hd) as Hw. fold w in Hw.
    destruct (derive_columns raw) as [d1|] eqn:Ed;
      [|unfold load_data in Hl; rewrite Ed in Hl; discriminate].
    destruct (derive_columns_inv _ _ Ed)
      as (dropoff & pickup' & _ & Hp' & _ & _ & _ & Hday & Hweek & Hname).
    rewrite Hp in Hp'. injection Hp' as <-.
    split; [exact Hd|]. split; [|split].
    + exists (qcell d). split; [|reflexivity].
      apply (load_data_keeps raw d1); auto.
      unfold cell_at. rewrite Hday. simpl.
      now rewrite !nth_error_map, Hi.
    + exists (week_of_month (qcell d)). split; [|apply week_of_month_integer].
      apply (load_data_keeps raw d1); auto.
      unfold cell_at. rewrite Hweek. simpl.
      now rewrite !nth_error_map, Hi.
    + rewrite (week_label_defined w Hw). eexists. split; [reflexivity|].
      apply (load_data_keeps raw d1); auto.
      unfold cell_at. rewrite Hname. cbn [bind cells].
      rewrite !nth_error_map, Hi. cbn [option_map]. do 2 f_equal.
      unfold qcell. rewrite (map_codes_integer _ _ w (week_of_month_integer d)).
      fold (week_label w). rewrite (week_label_defined w Hw). reflexivity.
Qed.

Lemma week_of_month_of_loaded_rows_witness :
  (1 <= (10 - 1) / 7 + 1 <= 5 /\
   map_codes week_names (Some (week_of_month (inject_Z 10))) = week_label 2) /\
  Calendar.day (Calendar.timestamp 2023 8 10 41400000000000) = 10 /\
  (exists dq, cell_at demo_df "day_of_month" 1 = Some (Some (SNum dq)) /\
              (dq == inject_Z 10)%Q) /\
  (exists label, week_label 2 = Some label /\
                 cell_at demo_df "week_name" 1 = Some (Some (SStr label))).
Proof.
  destruct week_of_month_of_loaded_rows as (_ & Hpure & Hday & Hrows). split.
  - destruct (Hpure 10 ltac:(lia)) as (Hw & _ & Hm & _). split; assumption.
  - assert (Hv : Calendar.valid_date 2023 8 10).
    { unfold Calendar.valid_date.
      change (Calendar.days_in_month 2023 8) with 31. lia. }
    assert (Ho : 0 <= 41400000000000 < Calendar.ns_per_day).
    { unfold Calendar.ns_per_day, Calendar.ns_per_second. lia. }
    pose proof (Hday 2023 8 10 41400000000000 Hv Ho) as E.
    split; [exact E|].
    assert (Hl : load_data demo_raw = Some demo_df) by (vm_compute; reflexivity).
    assert (Hp : get_time demo_raw "lpep_pickup_datetime"
                 = Some [aug2023 3 10 0; aug2023 10 11 30; aug2023 3 9 0; None;
                         aug2023 31 23 50]) by reflexivity.
    destruct (Hrows demo_raw demo_df _ 1%nat
                (Calendar.timestamp 2023 8 10 41400000000000) Hl Hp eq_refl)
      as (_ & Hd & _ & Hlabel).
    rewrite E in Hd, Hlabel. split; [exact Hd|exact Hlabel].
Defined.

(** C2, counterexample to "every row": the fourth trip of the demo file has
    no pickup timestamp.  In the loaded frame both its timestamp cells are
    present, 16 days and 16 hours apart, and its duration is the column
    median, 20 minutes. *)
Lemma trip_duration_of_filled_row :
  load_data demo_raw = Some demo_df /\
  exists d p q,
    cell_at demo_df "lpep_dropoff_datetime" 3 = Some (Some (STime d)) /\
    cell_at demo_df "lpep_pickup_datetime" 3 = Some (Some (STime p)) /\
    cell_at demo_df "trip_duration" 3 = Some (Some (SNum q)) /\
    (q == 20)%Q /\
    (Calendar.total_seconds (d - p) / inject_Z 60 == 24000)%Q /\
    ~ (q == Calendar.total_seconds (d - p) / inject_Z 60)%Q.
Proof.
  split; [vm_compute; reflexivity|].
  do 3 eexists. split; [reflexivity|]. split; [reflexivity|].
  split; [reflexivity|]. split; [reflexivity|]. split; [reflexivity|].
  vm_compute. discriminate.
Qed.

(** C2 (amended). In the frame [load_data] returns, every row whose two
    timestamps are present in the file has a difference dropoff minus
    pickup that fits int64 nanoseconds, and, unless that difference is the
    NaT sentinel, carries as [trip_duration] the difference in seconds
    divided by 60; the value is not clamped: it is negative exactly when the
    dropoff precedes the pickup. *)
Theorem trip_duration_of_loaded_rows raw df dropoff pickup i d p :
  load_data raw = Some df ->
  get_time raw "lpep_dropoff_datetime" = Some dropoff ->
  get_time raw "lpep_pickup_datetime" = Some pickup ->
  nth_error dropoff i = Some (Some d) ->
  nth_error pickup i = Some (Some p) ->
  int64_min <= d - p <= int64_max /\
  (d - p <> int64_min ->
   exists q,
     cell_at df "trip_duration" i = Some (Some (SNum q)) /\
     (q == Calendar.total_seconds (d - p) / inject_Z 60)%Q /\
     (q * inject_Z 60 * inject_Z Calendar.ns_per_second == inject_Z (d - p))%Q /\
     (d < p <-> (q < 0)%Q)).
Proof.
  intros Hl Hdo Hpu Hd Hp.
  destruct (derive_columns raw) as [d1|] eqn:Ed;
    [|unfold load_data in Hl; rewrite Ed in Hl; discriminate].
  pose proof (derive_columns_no_overflow raw d1 dropoff pickup Ed Hdo Hpu) as Ho.
  split; [exact (no_overflow_row dropoff pickup i d p Ho Hd Hp)|].
  intros Hnat.
  destruct (derive_columns_inv _ _ Ed)
    as (dropoff' & pickup' & Hdo' & Hpu' & Hdur & _).
  rewrite Hdo in Hdo'. injection Hdo' as <-.
  rewrite Hpu in Hpu'. injection Hpu' as <-.
  exists (Calendar.total_seconds (d - p) / inject_Z 60)%Q.
  split; [|split; [reflexivity|split]].
  - apply (load_data_keeps raw d1); auto.
    unfold cell_at. rewrite Hdur. simpl. rewrite nth_error_map.
    rewrite (nth_error_zip_with trip_duration _ _ _ _ _ Hd Hp).
    unfold trip_duration.
    destruct (Z.eqb_spec (d - p) int64_min); [contradiction|reflexivity].
  - unfold Calendar.total_seconds, Calendar.ns_per_second. field.
  - unfold Calendar.total_seconds, Calendar.ns_per_second, Qlt, Qdiv, Qmult,
      Qinv, inject_Z. simpl. lia.
Qed.

Lemma trip_duration_of_loaded_rows_witness :
  exists q,
    cell_at demo_df "trip_duration" 1 = Some (Some (SNum q)) /\
    (q == (-15 # 1))%Q /\ (q < 0)%Q.
Proof.
  assert (Hl : load_data demo_raw = Some demo_df) by (vm_compute; reflexivity).
  destruct (trip_duration_of_loaded_rows demo_raw demo_df _ _ 1%nat
              1691666100000000000 1691667000000000000 Hl eq_refl eq_refl
              eq_refl eq_refl) as (_ & Hcell).
  destruct Hcell as (q & Hc & Hq & _ & Hneg); [discriminate|].
  exists q. split; [exact Hc|]. split.
  - rewrite Hq. reflexivity.
  - apply Hneg. lia.
Defined.

(** ** C7: boolean indexing *)

Lemma select_mask_nil {A : Type} (m : list bool) : select_mask m (@nil A) = [].
Proof. now destruct m. Qed.

Lemma select_mask_map {A B : Type} (f : A -> B) m xs :
  select_mask m (map f xs) = map f (select_mask m xs).
Proof.
  revert xs. induction m as [|b m IH]; intros [|x xs]; simpl; auto.
  destruct b; simpl; now rewrite IH.
Qed.

Lemma select_mask_twice {A : Type} (m1 m2 : list bool) (xs : list A) :
  select_mask (select_mask m1 m2) (select_mask m1 xs)
  = select_mask (zip_with andb m1 m2) xs.
Proof.
  revert m2 xs. induction m1 as [|b m1 IH]; intros [|c m2] [|x xs]; simpl; auto.
  - now rewrite select_mask_nil.
  - destruct b; simpl; [|apply IH]. destruct c; now rewrite IH.
Qed.

Lemma zip_with_andb_comm m1 m2 : zip_with andb m1 m2 = zip_with andb m2 m1.
Proof.
  revert m2. induction m1 as [|b m1 IH]; intros [|c m2]; simpl; auto.
  now rewrite IH, andb_comm.
Qed.

Lemma cells_col_select m c : cells (col_select m c) = select_mask m (cells c).
Proof. destruct c; simpl; now rewrite select_mask_map. Qed.

Lemma mask_eq_col_select m c v :
  mask_eq (col_select m c) v = select_mask m (mask_eq c v).
Proof. unfold mask_eq. now rewrite cells_col_select, select_mask_map. Qed.

Lemma col_select_twice m1 m2 c :
  col_select (select_mask m1 m2) (col_select m1 c)
  = col_select (zip_with andb m1 m2) c.
Proof. destruct c; simpl; now rewrite select_mask_twice. Qed.

Lemma take_rows_twice m1 m2 df :
  take_rows (select_mask m1 m2) (take_rows m1 df)
  = take_rows (zip_with andb m1 m2) df.
Proof.
  unfold take_rows. simpl. rewrite select_mask_twice. f_equal.
  rewrite map_map. apply map_ext. intros [n c]. simpl.
  now rewrite col_select_twice.
Qed.

Lemma get_take_rows m df n :
  get (take_rows m df) n = option_map (col_select m) (get df n).
Proof. apply assoc_map_cols. Qed.

Lemma select_then_select a x b y df :
  (df1 <- select a x df ;; select b y df1) = select_both a x b y df.
Proof.
  unfold select, select_both.
  destruct (get df a) as [ca|]; simpl; auto.
  rewrite get_take_rows.
  destruct (get df b) as [cb|]; simpl; auto.
  now rewrite mask_eq_col_select, take_rows_twice.
Qed.

Lemma select_both_comm a x b y df :
  select_both a x b y df = select_both b y a x df.
Proof.
  unfold select_both.
  destruct (get df a), (get df b); simpl; auto.
  now rewrite zip_with_andb_comm.
Qed.

(** C7. Two exact-match filters commute: applied in either order they
    return the same frame (same row labels, same cells), the one that keeps
    the rows at which both predicates hold. *)
Theorem filters_commute a x b y df :
  (df1 <- select a x df ;; select b y df1)
  = (df2 <- select b y df ;; select a x df2)
  /\ (df1 <- select a x df ;; select b y df1) = select_both a x b y df.
Proof.
  split.
  - now rewrite !select_then_select, select_both_comm.
  - apply select_then_select.
Qed.

(** ** C3: the key metrics of an empty view *)

Lemma series_mean_nan xs :
  series_mean (NumCol xs) = Some None <-> present xs = [].
Proof.
  unfold series_mean. destruct (present xs); split; intros H;
    try reflexivity; discriminate.
Qed.

Lemma wf_frame_get df n c :
  wf_frame df = true -> get df n = Some c -> col_len c = len df.
Proof.
  unfold wf_frame, get. intros Hwf. rewrite forallb_forall in Hwf.
  induction (cols df) as [|[m b] r IH]; simpl; [discriminate|].
  destruct (String.eqb m n).
  - intros [= ->]. apply Nat.eqb_eq. apply (Hwf (m, c)). now left.
  - apply IH. intros x Hx. apply Hwf. now right.
Qed.

Lemma show_N_not_nan n rest : show_N n <> String "n" rest.
Proof. unfold show_N. destruct (N.to_uint n); discriminate. Qed.

(** The text of a finite value starts with a sign or a digit: it is never
    the text of NaN. *)
Lemma format_fixed_finite digits q : format_fixed digits (Some q) <> "nan"%string.
Proof.
  unfold format_fixed. cbv zeta.
  destruct (Qnum q <? 0); simpl; [discriminate|].
  destruct (show_N _) as [|c r] eqn:E; simpl; [discriminate|].
  intros [= -> _]. now apply show_N_not_nan in E.
Qed.

(** C3. On a view with no rows the three means are NaN: no exception is
    raised, the metrics read "nan miles", "nan mins" and "$nan", which is the
    text of no finite value, and the trip count is 0. *)
Theorem key_metrics_of_empty_view df :
  wf_frame df = true ->
  len df = 0%nat ->
  is_numeric df "trip_distance" = true ->
  is_numeric df "trip_duration" = true ->
  is_numeric df "total_amount" = true ->
  key_metrics df
  = Some (mkMetrics 0 "nan miles" "nan mins" "$nan")
  /\ (forall q, format_fixed 2 (Some q) <> format_fixed 2 None).
Proof.
  intros Hwf Hlen H1 H2 H3. split; [|intros q; apply format_fixed_finite].
  unfold key_metrics, is_numeric in *. rewrite Hlen.
  assert (Hnil : forall n xs, get df n = Some (NumCol xs) -> xs = []).
  { intros n xs Hg. apply (wf_frame_get _ _ _ Hwf) in Hg. rewrite Hlen in Hg.
    simpl in Hg. now apply length_zero_iff_nil. }
  destruct (get df "trip_distance") as [[xs| |]|] eqn:E1; try discriminate.
  destruct (get df "trip_duration") as [[ys| |]|] eqn:E2; try discriminate.
  destruct (get df "total_amount") as [[zs| |]|] eqn:E3; try discriminate.
  rewrite (Hnil _ _ E1), (Hnil _ _ E2), (Hnil _ _ E3). reflexivity.
Qed.

Lemma key_metrics_of_empty_view_witness :
  len demo_monday = 0%nat /\
  key_metrics demo_monday = Some (mkMetrics 0 "nan miles" "nan mins" "$nan").
Proof.
  split; [reflexivity|].
  apply (key_metrics_of_empty_view demo_monday); reflexivity.
Defined.

(** ** C4: counts per weekday *)

Lemma scalar_eqb_refl a : scalar_eqb a a = true.
Proof.
  destruct a; simpl.
  - apply Qeq_bool_refl.
  - apply String.eqb_refl.
  - apply Z.eqb_refl.
Qed.

Lemma scalar_eqb_sym a b : scalar_eqb a b = scalar_eqb b a.
Proof.
  destruct a, b; simpl; auto.
  - apply Qeq_bool_comm.
  - apply String.eqb_sym.
  - apply Z.eqb_sym.
Qed.

Lemma scalar_eqb_trans a b c :
  scalar_eqb a b = true -> scalar_eqb b c = true -> scalar_eqb a c = true.
Proof.
  destruct a, b, c; simpl; try discriminate.
  - apply Qeq_bool_trans.
  - rewrite !String.eqb_eq. congruence.
  - rewrite !Z.eqb_eq. congruence.
Qed.

(** Equal scalars compare alike with every third one. *)
Lemma scalar_eqb_congr a b c :
  scalar_eqb a b = true -> scalar_eqb a c = scalar_eqb b c.
Proof.
  intros Hab. destruct (scalar_eqb b c) eqn:Hbc.
  - now apply scalar_eqb_trans with b.
  - destruct (scalar_eqb a c) eqn:Hac; auto.
    rewrite <- Hbc. symmetry. apply scalar_eqb_trans with a; auto.
    now rewrite scalar_eqb_sym.
Qed.

Lemma dedup_cons {A : Type} (eqb : A -> A -> bool) a l :
  dedup eqb (a :: l)
  = if existsb (eqb a) (dedup eqb l) then dedup eqb l else a :: dedup eqb l.
Proof. reflexivity. Qed.

Lemma existsb_dedup v l :
  existsb (fun u => scalar_eqb u v) (dedup scalar_eqb l)
  = existsb (fun u => scalar_eqb u v) l.
Proof.
  induction l as [|a l IH]; [reflexivity|].
  rewrite dedup_cons. simpl.
  destruct (existsb (scalar_eqb a) (dedup scalar_eqb l)) eqn:E.
  - rewrite IH. destruct (scalar_eqb a v) eqn:Hav; auto. simpl.
    rewrite <- IH. apply existsb_exists in E. destruct E as (u & Hu & Hau).
    apply existsb_exists. exists u. split; auto.
    rewrite scalar_eqb_sym in Hau. now apply scalar_eqb_trans with a.
  - simpl. now rewrite IH.
Qed.

Lemma count_of_congr u v l :
  scalar_eqb u v = true -> count_of u l = count_of v l.
Proof.
  intros H. unfold count_of. f_equal. apply filter_ext.
  intros w. now apply scalar_eqb_congr.
Qed.

Lemma count_of_zero v l :
  count_of v l = 0%nat <-> existsb (fun u => scalar_eqb u v) l = false.
Proof.
  unfold count_of. induction l as [|a l IH]; simpl; [tauto|].
  rewrite (scalar_eqb_sym v a). destruct (scalar_eqb a v); simpl.
  - split; discriminate.
  - exact IH.
Qed.

Lemma find_map_pair {A : Type} (f : scalar -> A) v l :
  find (fun kv => scalar_eqb (fst kv) v) (map (fun u => (u, f u)) l)
  = option_map (fun u => (u, f u)) (find (fun u => scalar_eqb u v) l).
Proof.
  induction l as [|a l IH]; simpl; auto.
  destruct (scalar_eqb a v); auto.
Qed.

Lemma find_none_existsb {A : Type} (p : A -> bool) l :
  find p l = None <-> existsb p l = false.
Proof.
  induction l as [|a l IH]; simpl; [tauto|].
  destruct (p a); simpl; [split; discriminate|exact IH].
Qed.

(** [value_counts] has an entry for a value exactly when it occurs, and the
    entry is its number of occurrences. *)
Lemma lookup_value_counts c v :
  lookup v (value_counts c)
  = let n := count_of v (present (cells c)) in
    if Nat.eqb n 0 then None else Some n.
Proof.
  unfold lookup, value_counts. cbv zeta. rewrite find_map_pair.
  set (vs := present (cells c)).
  destruct (find (fun u => scalar_eqb u v) (dedup scalar_eqb vs)) as [u|] eqn:E.
  - pose proof (find_some _ _ E) as [_ Huv]. simpl.
    rewrite (count_of_congr u v vs Huv).
    destruct (Nat.eqb_spec (count_of v vs) 0) as [Hz|]; auto.
    apply count_of_zero in Hz.
    assert (Hin : existsb (fun w => scalar_eqb w v) vs = true).
    { rewrite <- existsb_dedup. apply not_false_iff_true. intros Hf.
      apply find_none_existsb in Hf. congruence. }
    congruence.
  - simpl. apply find_none_existsb in E. rewrite existsb_dedup in E.
    apply count_of_zero in E. now rewrite E.
Qed.

(** C4, counterexample to the zero count: in the view the sidebar gives
    for Thursday (card, one passenger, street-hail, hour 10) of the loaded
    demo frame there is one trip and none on a Monday, and Monday's entry
    in the counts per weekday is NaN, not 0. *)
Lemma weekday_counts_zero_is_nan_in_view :
  load_data demo_raw = Some demo_df /\
  apply_filters demo_df demo_selection = Some demo_view /\
  index demo_view = [0%nat] /\
  exists c counts,
    get demo_view "weekday" = Some c /\
    weekday_counts demo_view = Some counts /\
    count_of (SStr "Monday") (present (cells c)) = 0%nat /\
    lookup (SStr "Monday") counts = Some None /\
    lookup (SStr "Monday") counts <> Some (Some 0%nat).
Proof.
  split; [vm_compute; reflexivity|]. split; [vm_compute; reflexivity|].
  split; [reflexivity|].
  eexists. eexists. split; [reflexivity|]. split; [reflexivity|].
  split; [reflexivity|]. split; [reflexivity|]. discriminate.
Qed.

(** C4 (amended). The counts per weekday list the seven weekdays in the
    order Monday to Sunday; a weekday that occurs in the view carries its
    number of rows, a weekday that does not occur carries NaN. *)
Theorem weekday_counts_spec df c :
  get df "weekday" = Some c ->
  exists counts,
    weekday_counts df = Some counts /\
    map fst counts = weekday_order /\
    forall d, In d weekday_order ->
      lookup d counts
      = Some (let n := count_of d (present (cells c)) in
              if Nat.eqb n 0 then None else Some n).
Proof.
  intros Hg. unfold weekday_counts. rewrite Hg. cbn [bind].
  eexists. split; [reflexivity|]. split.
  - unfold reindex. rewrite map_map. reflexivity.
  - intros d Hd.
    assert (E : lookup d (reindex weekday_order (value_counts c))
                = Some (lookup d (value_counts c))).
    { simpl in Hd.
      repeat (destruct Hd as [<-|Hd]; [reflexivity|]). contradiction. }
    rewrite E, lookup_value_counts. reflexivity.
Qed.

Lemma weekday_counts_spec_witness :
  exists counts,
    weekday_counts demo_view = Some counts /\
    map fst counts = weekday_order /\
    lookup (SStr "Thursday") counts = Some (Some 1%nat) /\
    lookup (SStr "Monday") counts = Some None.
Proof.
  destruct (weekday_counts_spec demo_view _ eq_refl) as (counts & Hc & Ho & Hl).
  exists counts. split; [exact Hc|]. split; [exact Ho|]. split.
  - rewrite Hl; [reflexivity|]. simpl. tauto.
  - rewrite Hl; [reflexivity|]. simpl. tauto.
Defined.

(** ** C9: the scatter-plot sample *)

Lemma remove_nth_length {A : Type} k (l : list A) :
  (k < length l)%nat -> length (remove_nth k l) = (length l - 1)%nat.
Proof.
  revert k. induction l as [|a l IH]; intros [|k] H; simpl in *; try lia.
  rewrite IH by lia. lia.
Qed.

Lemma remove_nth_incl {A : Type} k (l : list A) x :
  In x (remove_nth k l) -> In x l.
Proof.
  revert k. induction l as [|a l IH]; intros [|k]; simpl; auto.
  intros [->|H]; eauto.
Qed.

Lemma draw_length entropy n pool :
  (n <= length pool)%nat -> length (draw entropy n pool) = n.
Proof.
  revert entropy pool. induction n as [|n IH]; intros entropy pool H; auto.
  destruct pool as [|p0 pool']; [simpl in H; lia|].
  cbn [draw]. cbn [length]. f_equal. apply IH.
  set (pool := p0 :: pool') in *.
  assert (Hk : (Nat.modulo (hd O entropy) (length pool) < length pool)%nat).
  { apply Nat.mod_upper_bound. simpl. lia. }
  rewrite remove_nth_length by exact Hk. lia.
Qed.

Lemma draw_incl entropy n pool x :
  In x (draw entropy n pool) -> In x pool.
Proof.
  revert entropy pool. induction n as [|n IH]; intros entropy pool; [contradiction|].
  destruct pool as [|p0 pool']; [contradiction|].
  cbn [draw]. set (pool := p0 :: pool').
  intros [<-|H].
  - apply nth_In. apply Nat.mod_upper_bound. simpl. lia.
  - apply IH in H. now apply remove_nth_incl in H.
Qed.

Lemma mapM_total {A B : Type} (f : A -> option B) l :
  (forall a, In a l -> f a <> None) ->
  exists bs, mapM f l = Some bs /\ length bs = length l.
Proof.
  induction l as [|a l IH]; intros H; simpl.
  - now exists [].
  - destruct (f a) as [b|] eqn:E; [|exfalso; apply (H a); [now left|exact E]].
    destruct IH as (bs & Hbs & Hlen); [intros x Hx; apply H; now right|].
    rewrite Hbs. simpl. exists (b :: bs). simpl. auto.
Qed.

Lemma pick_total {A : Type} positions (xs : list A) :
  (forall i, In i positions -> (i < length xs)%nat) ->
  exists ys, pick positions xs = Some ys /\ length ys = length positions.
Proof.
  intros H. apply mapM_total. intros i Hi. apply nth_error_Some. auto.
Qed.

Lemma col_pick_total positions c :
  (forall i, In i positions -> (i < col_len c)%nat) ->
  exists c', col_pick positions c = Some c' /\ col_len c' = length positions.
Proof.
  intros H. destruct c as [xs|xs|xs]; simpl in *;
    destruct (pick_total positions xs H) as (ys & -> & Hlen); simpl; eauto.
Qed.

Lemma iloc_total positions df :
  wf_frame df = true ->
  (forall i, In i positions -> (i < len df)%nat) ->
  exists s, iloc positions df = Some s /\
            len s = length positions /\ wf_frame s = true.
Proof.
  intros Hwf Hpos. unfold iloc.
  destruct (pick_total positions (index df) Hpos) as (labels & -> & Hlab).
  cbn [bind]. unfold wf_frame in Hwf. rewrite forallb_forall in Hwf.
  assert (Hcols : forall l : list (string * column),
            (forall nc, In nc l -> col_len (snd nc) = len df) ->
            exists cs,
              mapM (fun nc => c <- col_pick positions (snd nc) ;; Some (fst nc, c)) l
              = Some cs /\
              forallb (fun nc => Nat.eqb (col_len (snd nc)) (length positions)) cs
              = true).
  { induction l as [|[n c] l IH]; intros Hl; simpl.
    - now exists [].
    - destruct (col_pick_total positions c) as (c' & -> & Hc').
      { intros i Hi. change (i < col_len (snd (n, c)))%nat.
        rewrite (Hl (n, c)) by now left. auto. }
      destruct IH as (cs & -> & Hcs); [intros x Hx; apply Hl; now right|].
      simpl. exists ((n, c') :: cs). split; auto. simpl.
      now rewrite Hc', Nat.eqb_refl. }
  destruct (Hcols (cols df)) as (cs & -> & Hcs).
  { intros nc Hnc. apply Nat.eqb_eq. now apply Hwf. }
  simpl. eexists. split; [reflexivity|]. unfold len, wf_frame. simpl.
  split; [exact Hlab|]. unfold len. cbn [index]. now rewrite Hlab.
Qed.

(** C9. The sample of a view asks for [min(1000, len)] rows, which never
    exceeds the number of rows: the draw does not fail, and the sample is a
    frame of exactly that many rows. *)
Theorem sample_df_total entropy df :
  wf_frame df = true ->
  sample_size df = Nat.min 1000 (len df) /\
  (sample_size df <= len df)%nat /\
  choice entropy (sample_size df) (len df) <> None /\
  exists s, sample_df entropy df = Some s /\
            len s = Nat.min 1000 (len df) /\ wf_frame s = true.
Proof.
  intros Hwf. unfold sample_df, sample, choice, sample_size.
  assert (Hle : (Nat.min 1000 (len df) <= len df)%nat) by apply Nat.le_min_r.
  split; [reflexivity|]. split; [exact Hle|].
  destruct (Nat.ltb_spec (len df) (Nat.min 1000 (len df))) as [Hlt|_]; [lia|].
  split; [discriminate|]. cbn [bind].
  destruct (iloc_total (draw entropy (Nat.min 1000 (len df)) (seq 0 (len df))) df Hwf)
    as (s & Hs & Hlen & Hwfs).
  { intros i Hi. apply draw_incl in Hi. apply in_seq in Hi. lia. }
  exists s. split; [exact Hs|]. split; [|exact Hwfs].
  rewrite Hlen. apply draw_length. now rewrite length_seq.
Qed.

Lemma sample_df_total_witness :
  (exists s, sample_df [3; 1; 4; 1; 5]%nat demo_df = Some s /\ len s = 5%nat) /\
  (exists s, sample_df [] demo_monday = Some s /\ len s = 0%nat).
Proof.
  split.
  - destruct (sample_df_total [3; 1; 4; 1; 5]%nat demo_df eq_refl)
      as (_ & _ & _ & s & Hs & Hlen & _).
    exists s. split; [exact Hs|]. rewrite Hlen. reflexivity.
  - destruct (sample_df_total [] demo_monday eq_refl)
      as (_ & _ & _ & s & Hs & Hlen & _).
    exists s. split; [exact Hs|]. rewrite Hlen. reflexivity.
Defined.

(** ** C8: median imputation, then forward fill *)

Lemma insert_sorted_length {A : Type} (le : A -> A -> bool) a l :
  length (insert_sorted le a l) = S (length l).
Proof.
  induction l as [|b l IH]; simpl; auto.
  destruct (le a b); simpl; auto.
Qed.

Lemma sort_length {A : Type} (le : A -> A -> bool) l :
  length (sort le l) = length l.
Proof.
  induction l as [|a l IH]; simpl; auto.
  now rewrite insert_sorted_length, IH.
Qed.

(** A column has a median exactly when it has a value. *)
Lemma median_nan xs : median xs = None <-> present xs = [].
Proof.
  unfold median. cbv zeta. rewrite sort_length.
  destruct (present xs) as [|v vs]; simpl length.
  - tauto.
  - destruct (Nat.even (S (length vs))); split; discriminate.
Qed.

Lemma present_nil_all_missing {A : Type} (xs : list (option A)) :
  present xs = [] <-> forall x, In x xs -> x = None.
Proof.
  induction xs as [|[a|] xs IH]; simpl.
  - split; auto. intros _ x [].
  - split; [discriminate|]. intros H. now specialize (H (Some a) (or_introl eq_refl)).
  - rewrite IH. split.
    + intros H x [<-|Hx]; auto.
    + intros H x Hx. apply H. now right.
Qed.

Lemma ffill_from_no_gap {A : Type} (last : option A) xs :
  (forall x, In x xs -> x <> None) -> ffill_from last xs = xs.
Proof.
  revert last. induction xs as [|x xs IH]; intros last H; simpl; auto.
  destruct x as [a|]; [|exfalso; apply (H None); simpl; auto].
  simpl. f_equal. apply IH. intros y Hy. apply H. now right.
Qed.

Lemma nearest_preceding_cons {A : Type} (x : option A) xs i :
  nearest_preceding (x :: xs) (S i)
  = match nearest_preceding xs i with
    | Some v => Some v
    | None => x
    end.
Proof.
  induction i as [|i IH].
  - simpl. destruct xs as [|[v|] xs]; simpl; auto; now destruct x.
  - change (nearest_preceding (x :: xs) (S (S i)))
      with (match nth_error xs (S i) with
            | Some (Some v) => Some v
            | _ => nearest_preceding (x :: xs) (S i)
            end).
    rewrite IH.
    change (nearest_preceding xs (S i))
      with (match nth_error xs (S i) with
            | Some (Some v) => Some v
            | _ => nearest_preceding xs i
            end).
    destruct (nth_error xs (S i)) as [[v|]|]; auto.
Qed.

Lemma nth_error_ffill_from {A : Type} (last : option A) xs i :
  (i < length xs)%nat ->
  nth_error (ffill_from last xs) i
  = Some (match nearest_preceding xs i with
          | Some v => Some v
          | None => last
          end).
Proof.
  revert last i. induction xs as [|x xs IH]; intros last i H; simpl in H; [lia|].
  destruct i as [|i].
  - simpl. now destruct x.
  - cbn [ffill_from nth_error]. rewrite IH by lia.
    rewrite nearest_preceding_cons.
    destruct (nearest_preceding xs i); auto. now destruct x.
Qed.

(** Forward fill gives each row the nearest value at or above it. *)
Lemma nth_error_ffill {A : Type} (xs : list (option A)) i :
  (i < length xs)%nat ->
  nth_error (ffill xs) i = Some (nearest_preceding xs i).
Proof.
  intros H. unfold ffill. rewrite nth_error_ffill_from by exact H.
  now destruct (nearest_preceding xs i).
Qed.

Lemma insert_sorted_perm {A : Type} (le : A -> A -> bool) a l :
  Permutation (insert_sorted le a l) (a :: l).
Proof.
  induction l as [|b l IH]; simpl; [apply Permutation_refl|].
  destruct (le a b); [apply Permutation_refl|].
  eapply Permutation_trans; [apply perm_skip, IH|apply perm_swap].
Qed.

(** Sorting keeps the values, each as often as before. *)
Lemma sort_perm {A : Type} (le : A -> A -> bool) l :
  Permutation (sort le l) l.
Proof.
  induction l as [|a l IH]; simpl; [apply perm_nil|].
  eapply Permutation_trans; [apply insert_sorted_perm|now apply perm_skip].
Qed.

Lemma sorted_by_cons {A : Type} (le : A -> A -> bool) a b l :
  sorted_by le (a :: b :: l) = le a b && sorted_by le (b :: l).
Proof. reflexivity. Qed.

Lemma sorted_by_tail {A : Type} (le : A -> A -> bool) a l :
  sorted_by le (a :: l) = true -> sorted_by le l = true.
Proof.
  destruct l as [|b l]; [reflexivity|]. rewrite sorted_by_cons.
  intros H. now apply andb_prop in H.
Qed.

Lemma insert_sorted_sorted {A : Type} (le : A -> A -> bool) a l :
  (forall x y, le x y = false -> le y x = true) ->
  sorted_by le l = true -> sorted_by le (insert_sorted le a l) = true.
Proof.
  intros Htot. induction l as [|b l IH]; [reflexivity|].
  intros Hs. cbn [insert_sorted]. destruct (le a b) eqn:Eab.
  - now rewrite sorted_by_cons, Eab, Hs.
  - specialize (IH (sorted_by_tail le b l Hs)). destruct l as [|c l].
    + cbn [insert_sorted]. now rewrite sorted_by_cons, (Htot a b Eab).
    + rewrite sorted_by_cons in Hs. apply andb_prop in Hs. destruct Hs as [Hbc _].
      cbn [insert_sorted] in *. destruct (le a c).
      * now rewrite sorted_by_cons, (Htot a b Eab), IH.
      * now rewrite sorted_by_cons, Hbc, IH.
Qed.

(** The result of [sort] is in ascending order. *)
Lemma sort_sorted {A : Type} (le : A -> A -> bool) l :
  (forall x y, le x y = false -> le y x = true) ->
  sorted_by le (sort le l) = true.
Proof.
  intros Htot. induction l as [|a l IH]; [reflexivity|].
  simpl. now apply insert_sorted_sorted.
Qed.

Lemma Qle_bool_total x y : Qle_bool x y = false -> Qle_bool y x = true.
Proof.
  intros H. apply Qle_bool_iff. apply Qlt_le_weak, Qnot_le_lt.
  intros Hle. apply Qle_bool_iff in Hle. congruence.
Qed.

Lemma ffill_from_map {A B : Type} (f : A -> B) last xs :
  ffill_from (option_map f last) (map (option_map f) xs)
  = map (option_map f) (ffill_from last xs).
Proof.
  revert last. induction xs as [|x xs IH]; intros last; [reflexivity|].
  cbn [map ffill_from]. cbv zeta.
  assert (E : fillna_value (option_map f last) (option_map f x)
              = option_map f (fillna_value last x)) by now destruct x.
  rewrite E, IH. reflexivity.
Qed.

Lemma cells_length c : length (cells c) = col_len c.
Proof. destruct c; simpl; apply length_map. Qed.

(** Forward fill acts on the cells of a column, whatever its dtype. *)
Lemma cells_ffill_col c : cells (ffill_col c) = ffill (cells c).
Proof.
  destruct c as [xs|ys|ts]; cbn [ffill_col cells]; unfold ffill;
    symmetry; apply (ffill_from_map _ None).
Qed.

(** C8. [load_data] fills missing values in two steps, in this order.  The
    median of a numeric column is the middle value, or the mean of the two
    middle values, of its present cells in ascending order, and NaN when
    the column has no value.  Step 1 puts this median, taken over the whole
    column, into every missing cell of a numeric column and changes no
    other cell of any column.  Step 2 gives every cell, of whatever dtype,
    the nearest value at or above it in row order.  Every column of the
    loaded frame that the loader does not assign afterwards is the column
    of the derived frame after step 1, then step 2; a numeric column that
    has a value has no gap left for step 2; and the two steps do not
    commute. *)
Theorem fill_missing_order :
  (forall xs, exists s,
     Permutation s (present xs) /\
     sorted_by Qle_bool s = true /\
     let n := length s in
     median xs
     = match n with
       | O => None
       | _ =>
           if Nat.even n
           then Some ((nth (n / 2 - 1) s 0%Q + nth (n / 2) s 0%Q) / inject_Z 2)%Q
           else Some (nth (n / 2) s 0%Q)
       end) /\
  (forall c i,
     nth_error (cells (fillna_median_col c)) i
     = match c, nth_error (cells c) i with
       | NumCol xs, Some None => Some (option_map SNum (median xs))
       | _, cell => cell
       end) /\
  (forall c i,
     (i < col_len c)%nat ->
     nth_error (cells (ffill_col c)) i = Some (nearest_preceding (cells c) i)) /\
  (forall raw d df name,
     derive_columns raw = Some d ->
     load_data raw = Some df ->
     String.eqb "payment_type_name" name = false ->
     String.eqb "trip_type_name" name = false ->
     get df name = option_map (fun c => ffill_col (fillna_median_col c)) (get d name)) /\
  (forall xs,
     present xs <> [] ->
     ffill_col (fillna_median_col (NumCol xs)) = fillna_median_col (NumCol xs) /\
     forall x, In x (cells (fillna_median_col (NumCol xs))) -> x <> None) /\
  (cell_at (fill_missing demo_gap) "total_amount" 1 = Some (Some (SNum 3)) /\
   cell_at (fill_missing_swapped demo_gap) "total_amount" 1 = Some (Some (SNum 1))).
Proof.
  split; [|split; [|split; [|split; [|split]]]].
  - intros xs. exists (sort Qle_bool (present xs)).
    split; [apply sort_perm|]. split; [apply sort_sorted, Qle_bool_total|].
    reflexivity.
  - intros [xs|ys|ts] i; cbn [fillna_median_col cells].
    + rewrite !nth_error_map.
      destruct (nth_error xs i) as [[v|]|]; reflexivity.
    + now destruct (nth_error (map (option_map SStr) ys) i) as [[v|]|].
    + now destruct (nth_error (map (option_map STime) ts) i) as [[v|]|].
  - intros c i Hi. rewrite cells_ffill_col. apply nth_error_ffill.
    now rewrite cells_length.
  - intros raw d df name Hd Hl Hp Ht. unfold load_data in Hl.
    rewrite Hd in Hl. cbn [bind] in Hl.
    rewrite (get_name_columns _ _ _ Hl Hp Ht). apply get_fill_missing.
  - intros xs Hp.
    assert (Hfull : forall x, In x (map (fillna_value (median xs)) xs) -> x <> None).
    { destruct (median xs) as [m|] eqn:Em; [|now apply median_nan in Em].
      intros x Hx. apply in_map_iff in Hx.
      destruct Hx as ([v|] & <- & _); discriminate. }
    split.
    + cbn [fillna_median_col ffill_col]. f_equal.
      now apply ffill_from_no_gap.
    + cbn [fillna_median_col cells]. intros x Hx. apply in_map_iff in Hx.
      destruct Hx as (y & <- & Hy). specialize (Hfull y Hy).
      destruct y; [discriminate|congruence].
  - split; reflexivity.
Qed.

Lemma fill_missing_order_witness :
  (exists c,
     get demo_df "total_amount" = Some (ffill_col (fillna_median_col c)) /\
     nth_error (cells c) 3 = Some None /\
     (exists q, nth_error (cells (fillna_median_col c)) 3 = Some (Some (SNum q)) /\
                (q == 25)%Q) /\
     nth_error (cells (ffill_col c)) 3 = Some (Some (SNum 30))) /\
  nth_error (cells (ffill_col (ObjCol [None; Some "N"; None; Some "Y"; None]%string))) 2
  = Some (Some (SStr "N")) /\
  ffill_col (fillna_median_col (NumCol [num 1 1; None; num 3 1; num 100 1]))
  = NumCol [num 1 1; num 3 1; num 3 1; num 100 1].
Proof.
  destruct fill_missing_order as (_ & Hmed & Hff & Hload & Hgap & _).
  split; [|split].
  - assert (Hl : load_data demo_raw = Some demo_df) by (vm_compute; reflexivity).
    destruct (derive_columns demo_raw) as [d|] eqn:Ed; [|discriminate].
    pose proof (Hload demo_raw d demo_df "total_amount"%string Ed Hl eq_refl eq_refl)
      as Hg.
    assert (Hc : get d "total_amount"
                 = Some (NumCol [num 10 1; num 20 1; num 30 1; None; num 44 1])).
    { vm_compute in Ed. injection Ed as <-. reflexivity. }
    rewrite Hc in Hg. cbn [option_map] in Hg.
    eexists. split; [exact Hg|]. split; [reflexivity|]. split.
    + rewrite Hmed. eexists. split; reflexivity.
    + rewrite Hff; [reflexivity|]. simpl. lia.
  - rewrite Hff; [reflexivity|]. simpl. lia.
  - destruct (Hgap [num 1 1; None; num 3 1; num 100 1]) as [E _]; [discriminate|].
    rewrite E. reflexivity.
Defined.

(** ** C10: the groups of [groupby] *)

Lemma In_insert_sorted {A : Type} (le : A -> A -> bool) a l x :
  In x (insert_sorted le a l) <-> x = a \/ In x l.
Proof.
  induction l as [|b l IH]; simpl.
  - intuition.
  - destruct (le a b); simpl; [intuition|]. rewrite IH. intuition.
Qed.

Lemma In_sort {A : Type} (le : A -> A -> bool) l x :
  In x (sort le l) <-> In x l.
Proof.
  induction l as [|a l IH]; simpl; [tauto|].
  rewrite In_insert_sorted, IH. intuition.
Qed.

Lemma In_dedup {A : Type} (eqb : A -> A -> bool) l x :
  In x (dedup eqb l) -> In x l.
Proof.
  induction l as [|a l IH]; [auto|]. rewrite dedup_cons.
  destruct (existsb (eqb a) (dedup eqb l)); simpl; intuition.
Qed.

Lemma In_present {A : Type} (xs : list (option A)) x :
  In x (present xs) <-> In (Some x) xs.
Proof.
  induction xs as [|[a|] xs IH]; simpl.
  - tauto.
  - rewrite IH. split; intros [H|H]; auto; left; congruence.
  - rewrite IH. split; [auto|]. intros [H|H]; [discriminate|auto].
Qed.

(** A group key is a value of the key column. *)
Lemma group_keys_present c k : In k (group_keys c) -> In (Some k) (cells c).
Proof.
  unfold group_keys. rewrite In_sort. intros H. apply In_dedup in H.
  now apply In_present.
Qed.

Lemma mask_eq_has_true c k : In k (group_keys c) -> In true (mask_eq c k).
Proof.
  intros H. apply group_keys_present in H. unfold mask_eq.
  apply in_map_iff. exists (Some k). split; auto. apply scalar_eqb_refl.
Qed.

Lemma select_mask_nonempty {A : Type} m (xs : list A) :
  length m = length xs -> In true m -> (0 < length (select_mask m xs))%nat.
Proof.
  revert xs. induction m as [|b m IH]; intros [|x xs] Hlen Hin;
    simpl in *; try contradiction; try discriminate.
  destruct b; simpl; [lia|].
  apply IH; [lia|]. destruct Hin; [discriminate|assumption].
Qed.

Lemma col_select_length m c :
  col_len (col_select m c) = length (select_mask m (cells c)).
Proof. now rewrite <- cells_length, cells_col_select. Qed.

Lemma mapM_map_some {A B C : Type} (g : A -> B) (f : B -> option C) (h : A -> C) l :
  (forall a, In a l -> f (g a) = Some (h a)) ->
  mapM f (map g l) = Some (map h l).
Proof.
  induction l as [|a l IH]; intros H; simpl; auto.
  rewrite (H a) by now left. simpl. rewrite IH; auto.
  intros x Hx. apply H. now right.
Qed.

(** The groups are the [total_amount] cells of the rows of each key. *)
Lemma amount_groups_inv df name groups :
  amount_groups df name = Some groups ->
  exists c,
    get df name = Some c /\
    length groups = length (group_keys c) /\
    ((group_keys c = [] /\ groups = []) \/
     exists amount,
       get df "total_amount" = Some amount /\
       groups = map (fun k => col_select (mask_eq c k) amount) (group_keys c)).
Proof.
  unfold amount_groups, groupby. intros H.
  destruct (get df name) as [c|]; simpl in H; [|discriminate].
  exists c. split; [reflexivity|].
  destruct (get df "total_amount") as [amount|] eqn:Ea.
  - rewrite (mapM_map_some _ _ (fun k => col_select (mask_eq c k) amount)) in H.
    + injection H as <-. rewrite length_map. split; eauto.
    + intros k _. simpl. now rewrite get_take_rows, Ea.
  - destruct (group_keys c) as [|k ks]; simpl in H.
    + injection H as <-. split; auto.
    + rewrite get_take_rows, Ea in H. discriminate.
Qed.

Lemma groups_all_nonempty df name groups :
  wf_frame df = true ->
  amount_groups df name = Some groups ->
  forallb (fun g => Nat.ltb 0 (col_len g)) groups = true.
Proof.
  intros Hwf Hg.
  destruct (amount_groups_inv _ _ _ Hg) as (c & Hc & Hlen & Hgroups).
  destruct Hgroups as [[_ ->]|(amount & Ha & ->)]; [reflexivity|].
  apply forallb_forall. intros g Hin. apply in_map_iff in Hin.
  destruct Hin as (k & <- & Hk). apply Nat.ltb_lt.
  rewrite col_select_length. apply select_mask_nonempty.
  - unfold mask_eq. rewrite length_map, !cells_length.
    rewrite (wf_frame_get _ _ _ Hwf Hc), (wf_frame_get _ _ _ Hwf Ha).
    reflexivity.
  - now apply mask_eq_has_true.
Qed.

Lemma anova_guard_is_count df name groups :
  wf_frame df = true ->
  amount_groups df name = Some groups ->
  anova_guard groups = Nat.leb 2 (length groups).
Proof.
  intros Hwf Hg. unfold anova_guard.
  rewrite (groups_all_nonempty df name groups Hwf Hg). apply andb_true_r.
Qed.

(** C10. Every group the tests build has at least one row, because its key
    is a value of the key column; so the second conjunct of the ANOVA guard
    is always true and the guard is [2 <= number of distinct key values]. *)
Theorem groups_are_nonempty df name groups :
  wf_frame df = true ->
  amount_groups df name = Some groups ->
  forallb (fun g => Nat.ltb 0 (col_len g)) groups = true /\
  anova_guard groups = Nat.leb 2 (length groups) /\
  exists c, get df name = Some c /\
            length groups = length (group_keys c) /\
            forall k, In k (group_keys c) -> In (Some k) (cells c).
Proof.
  intros Hwf Hg.
  split; [now apply groups_all_nonempty with df name|].
  split; [now apply anova_guard_is_count with df name|].
  destruct (amount_groups_inv _ _ _ Hg) as (c & Hc & Hlen & _).
  exists c. split; [exact Hc|]. split; [exact Hlen|].
  apply group_keys_present.
Qed.

Lemma groups_are_nonempty_witness :
  exists groups,
    amount_groups demo_all "weekday" = Some groups /\
    length groups = 3%nat /\
    forallb (fun g => Nat.ltb 0 (col_len g)) groups = true /\
    anova_guard groups = true.
Proof.
  eexists. split; [reflexivity|]. split; [reflexivity|].
  destruct (groups_are_nonempty demo_all "weekday" _ eq_refl eq_refl)
    as (Hall & Hguard & _).
  split; [exact Hall|]. rewrite Hguard. reflexivity.
Defined.

(** ** C5 and C6: the guards of the statistical tests *)

Lemma has_column_get df n : has_column df n = true <-> get df n <> None.
Proof.
  unfold has_column, get. induction (cols df) as [|[m c] l IH]; simpl.
  - split; [discriminate|congruence].
  - destruct (String.eqb m n); simpl; [|exact IH]. split; [discriminate|auto].
Qed.

Section TestProperties.

Variable f_oneway : list column -> option Q * option Q.
Variable chi2_contingency :
  list (list nat) -> option Q * option Q * nat * list (list Q).

(** The ANOVA reports a statistic exactly when its guard holds, and then
    the flag is [p < 0.05]; otherwise it reports the warning. *)
Lemma anova_cases groups warning :
  (anova_guard groups = true /\
   anova f_oneway groups warning
   = Performed (fst (f_oneway groups)) (snd (f_oneway groups))
               (below_alpha (snd (f_oneway groups)))) \/
  (anova_guard groups = false /\
   anova f_oneway groups warning = CannotPerform warning).
Proof.
  unfold anova. destruct (anova_guard groups); [left|right]; split; auto.
  now destruct (f_oneway groups).
Qed.

(** On a frame of the tests tab the weekday and week ANOVA run exactly when
    two or more distinct keys are present, and otherwise report how many
    were found. *)
Lemma anova_weekday_cases df groups :
  wf_frame df = true ->
  amount_groups df "weekday" = Some groups ->
  (2 <= length groups)%nat /\
  anova_weekday f_oneway df
  = Some (Performed (fst (f_oneway groups)) (snd (f_oneway groups))
                    (below_alpha (snd (f_oneway groups)))) \/
  (length groups < 2)%nat /\
  anova_weekday f_oneway df
  = Some (CannotPerform
      ("Cannot perform ANOVA test on weekdays - need at least 2 weekdays with data (found "
         ++ show_nat (length groups) ++ ")")%string).
Proof.
  intros Hwf Hg. unfold anova_weekday. rewrite Hg. cbn [bind].
  pose proof (anova_guard_is_count df "weekday" groups Hwf Hg) as Hguard.
  destruct (anova_cases groups
    ("Cannot perform ANOVA test on weekdays - need at least 2 weekdays with data (found "
       ++ show_nat (length groups) ++ ")")%string) as [[G ->]|[G ->]];
    rewrite Hguard in G.
  - left. split; [now apply Nat.leb_le|reflexivity].
  - right. split; [now apply Nat.leb_gt|reflexivity].
Qed.

Lemma anova_week_cases df groups :
  wf_frame df = true ->
  amount_groups df "week_name" = Some groups ->
  (2 <= length groups)%nat /\
  anova_week f_oneway df
  = Some (Performed (fst (f_oneway groups)) (snd (f_oneway groups))
                    (below_alpha (snd (f_oneway groups)))) \/
  (length groups < 2)%nat /\
  anova_week f_oneway df
  = Some (CannotPerform
      ("Cannot perform ANOVA test on weeks - need at least 2 weeks with data (found "
         ++ show_nat (length groups) ++ ")")%string).
Proof.
  intros Hwf Hg. unfold anova_week. rewrite Hg. cbn [bind].
  pose proof (anova_guard_is_count df "week_name" groups Hwf Hg) as Hguard.
  destruct (anova_cases groups
    ("Cannot perform ANOVA test on weeks - need at least 2 weeks with data (found "
       ++ show_nat (length groups) ++ ")")%string) as [[G ->]|[G ->]];
    rewrite Hguard in G.
  - left. split; [now apply Nat.leb_le|reflexivity].
  - right. split; [now apply Nat.leb_gt|reflexivity].
Qed.

(** The trip type ANOVA has the same guard, and one fixed warning. *)
Lemma anova_trip_type_cases df groups :
  wf_frame df = true ->
  amount_groups df "trip_type_name" = Some groups ->
  (2 <= length groups)%nat /\
  anova_trip_type f_oneway df
  = Some (Some (Performed (fst (f_oneway groups)) (snd (f_oneway groups))
                          (below_alpha (snd (f_oneway groups))))) \/
  (length groups < 2)%nat /\
  anova_trip_type f_oneway df
  = Some (Some (CannotPerform
      "Cannot perform ANOVA test on trip types - need at least 2 groups with data")).
Proof.
  intros Hwf Hg. unfold anova_trip_type.
  assert (Hc : has_column df "trip_type_name" = true).
  { apply has_column_get. unfold amount_groups, groupby in Hg.
    destruct (get df "trip_type_name"); [discriminate|discriminate]. }
  rewrite Hc, Hg. cbn [bind].
  pose proof (anova_guard_is_count df "trip_type_name" groups Hwf Hg) as Hguard.
  destruct (anova_cases groups
    "Cannot perform ANOVA test on trip types - need at least 2 groups with data")
    as [[G ->]|[G ->]]; rewrite Hguard in G.
  - left. split; [now apply Nat.leb_le|reflexivity].
  - right. split; [now apply Nat.leb_gt|reflexivity].
Qed.

(** C5 (the code at the failing input). With a single trip type among the
    rows, and with no row at all, the trip type ANOVA is skipped with one
    and the same warning, which names no count; the weekday and week ANOVA
    on the same frames report the number of groups they found. *)
Theorem anova_trip_type_warning_has_no_count :
  amount_groups demo_thursday "trip_type_name"
    = Some [NumCol [num 10 1; num 20 1; num 30 1]] /\
  amount_groups demo_no_trip "trip_type_name" = Some [] /\
  anova_trip_type f_oneway demo_thursday
    = Some (Some (CannotPerform
        "Cannot perform ANOVA test on trip types - need at least 2 groups with data")) /\
  anova_trip_type f_oneway demo_no_trip = anova_trip_type f_oneway demo_thursday /\
  anova_weekday f_oneway demo_thursday
    = Some (CannotPerform
        "Cannot perform ANOVA test on weekdays - need at least 2 weekdays with data (found 1)") /\
  anova_weekday f_oneway demo_no_trip
    = Some (CannotPerform
        "Cannot perform ANOVA test on weekdays - need at least 2 weekdays with data (found 0)") /\
  anova_week f_oneway demo_no_trip
    = Some (CannotPerform
        "Cannot perform ANOVA test on weeks - need at least 2 weeks with data (found 0)").
Proof. repeat split; reflexivity. Qed.


End TestProperties.


(** ** Well-formed frames through the pipeline *)

Lemma select_mask_length_eq {A B : Type} m (xs : list A) (ys : list B) :
  length xs = length ys ->
  length (select_mask m xs) = length (select_mask m ys).
Proof.
  revert xs ys. induction m as [|b m IH]; intros [|x xs] [|y ys] H;
    simpl in *; try discriminate; auto.
  destruct b; simpl; auto.
Qed.

Lemma take_rows_wf m df : wf_frame df = true -> wf_frame (take_rows m df) = true.
Proof.
  unfold wf_frame, take_rows, len. simpl. rewrite !forallb_forall.
  intros H nc Hin. apply in_map_iff in Hin. destruct Hin as ([n c] & <- & Hin).
  simpl. apply Nat.eqb_eq. rewrite col_select_length.
  apply select_mask_length_eq. rewrite cells_length.
  apply Nat.eqb_eq. exact (H _ Hin).
Qed.

Lemma select_wf name v df df' :
  wf_frame df = true -> select name v df = Some df' -> wf_frame df' = true.
Proof.
  unfold select. intros Hwf H. destruct (get df name); simpl in H; [|discriminate].
  injection H as <-. now apply take_rows_wf.
Qed.

Lemma optional_select_wf (skip : bool) name v df df' :
  wf_frame df = true ->
  (if skip then Some df else select name v df) = Some df' ->
  wf_frame df' = true.
Proof.
  intros Hwf H. destruct skip; [now injection H as <-|].
  now apply select_wf with name v df.
Qed.

(** Every view the sidebar filters return is well formed. *)
Lemma apply_filters_wf df s view :
  wf_frame df = true -> apply_filters df s = Some view -> wf_frame view = true.
Proof.
  unfold apply_filters. intros Hwf H.
  destruct (if String.eqb (selected_week s) "All Weeks" then _ else _)
    as [d1|] eqn:E1; simpl in H; [|discriminate].
  apply optional_select_wf in E1; [|exact Hwf].
  destruct (select "weekday" _ d1) as [d2|] eqn:E2; simpl in H; [|discriminate].
  apply select_wf in E2; [|exact E1].
  destruct (select "payment_type_name" _ d2) as [d3|] eqn:E3; simpl in H;
    [|discriminate].
  apply select_wf in E3; [|exact E2].
  destruct (select "passenger_count" _ d3) as [d4|] eqn:E4; simpl in H;
    [|discriminate].
  apply select_wf in E4; [|exact E3].
  destruct (has_column df "trip_type_name").
  - destruct (select "trip_type_name" _ d4) as [d5|] eqn:E5; simpl in H;
      [|discriminate].
    apply select_wf in E5; [|exact E4]. now apply select_wf in H.
  - simpl in H. now apply select_wf in H.
Qed.

(** So is every frame of the tests tab. *)
Lemma test_filters_wf df weekday payment week test_df :
  wf_frame df = true ->
  test_filters df weekday payment week = Some test_df ->
  wf_frame test_df = true.
Proof.
  unfold test_filters. intros Hwf H.
  destruct (if String.eqb weekday "All" then _ else _) as [d1|] eqn:E1;
    simpl in H; [|discriminate].
  apply optional_select_wf in E1; [|exact Hwf].
  destruct (if String.eqb payment "All" then _ else _) as [d2|] eqn:E2;
    simpl in H; [|discriminate].
  apply optional_select_wf in E2; [|exact E1].
  now apply optional_select_wf in H.
Qed.

Lemma set_col_wf df n c :
  wf_frame df = true -> col_len c = len df -> wf_frame (set_col df n c) = true.
Proof.
  unfold wf_frame, set_col, len. simpl. intros H Hc.
  induction (cols df) as [|[m b] l IH]; simpl in *.
  - now rewrite Hc, Nat.eqb_refl.
  - apply andb_prop in H. destruct H as [Hb Hl].
    destruct (String.eqb m n); simpl.
    + now rewrite Hc, Nat.eqb_refl.
    + now rewrite Hb, IH.
Qed.

Lemma map_cols_wf f df :
  (forall c, col_len (f c) = col_len c) ->
  wf_frame df = true -> wf_frame (map_cols f df) = true.
Proof.
  unfold wf_frame, map_cols, len. simpl. intros Hf H.
  rewrite forallb_forall in *. intros nc Hin. apply in_map_iff in Hin.
  destruct Hin as (x & <- & Hin). simpl. rewrite Hf. now apply H.
Qed.

Lemma ffill_from_length {A : Type} (last : option A) xs :
  length (ffill_from last xs) = length xs.
Proof.
  revert last. induction xs as [|x xs IH]; intros last; simpl; auto.
Qed.

Lemma fill_missing_wf df : wf_frame df = true -> wf_frame (fill_missing df) = true.
Proof.
  intros H. unfold fill_missing, ffill_frame, fillna_median.
  apply map_cols_wf; [|apply map_cols_wf; auto].
  - intros [xs|xs|xs]; simpl; apply ffill_from_length.
  - intros [xs|xs|xs]; simpl; auto. apply length_map.
Qed.

Lemma series_map_length table c : col_len (series_map table c) = col_len c.
Proof. destruct c; simpl; apply length_map. Qed.

Lemma drop_columns_wf names df :
  wf_frame df = true -> wf_frame (drop_columns names df) = true.
Proof.
  unfold wf_frame, drop_columns, len. simpl. rewrite !forallb_forall.
  intros H nc Hin. apply filter_In in Hin. now apply H.
Qed.

Lemma zip_with_length {A B C : Type} (f : A -> B -> C) l m :
  length l = length m -> length (zip_with f l m) = length l.
Proof.
  revert m. induction l as [|a l IH]; intros [|b m] H; simpl in *;
    try discriminate; auto.
Qed.

Lemma get_time_length df n ts :
  wf_frame df = true -> get_time df n = Some ts -> length ts = len df.
Proof.
  unfold get_time. intros Hwf H.
  destruct (get df n) as [[xs|xs|xs]|] eqn:E; simpl in H; try discriminate.
  injection H as <-. exact (wf_frame_get _ _ _ Hwf E).
Qed.

(** [load_data] turns a well-formed frame into a well-formed frame. *)
Lemma load_data_wf raw df :
  wf_frame raw = true -> load_data raw = Some df -> wf_frame df = true.
Proof.
  intros Hwf Hl. unfold load_data in Hl.
  destruct (derive_columns raw) as [d|] eqn:Ed; simpl in Hl; [|discriminate].
  assert (Hd : wf_frame d = true).
  { unfold derive_columns in Ed.
    set (d0 := drop_columns _ raw) in *.
    assert (H0 : wf_frame d0 = true) by now apply drop_columns_wf.
    destruct (get_time d0 "lpep_dropoff_datetime") as [dropoff|] eqn:E1;
      simpl in Ed; [|discriminate].
    destruct (get_time d0 "lpep_pickup_datetime") as [pickup|] eqn:E2;
      simpl in Ed; [|discriminate].
    pose proof (get_time_length _ _ _ H0 E1) as L1.
    pose proof (get_time_length _ _ _ H0 E2) as L2.
    destruct (trip_durations dropoff pickup) as [durations|] eqn:Et;
      simpl in Ed; [|discriminate].
    apply trip_durations_some in Et. destruct Et as [_ ->].
    rewrite !get_time_set_other, E1 in Ed by reflexivity. simpl in Ed.
    rewrite !get_time_set_other, E1 in Ed by reflexivity. simpl in Ed.
    rewrite !get_time_set_other, E2 in Ed by reflexivity. simpl in Ed.
    injection Ed as <-.
    repeat (apply set_col_wf;
            [|unfold set_col, len; simpl; rewrite ?length_map; assumption]).
    apply set_col_wf; [exact H0|]. simpl.
    rewrite zip_with_length; congruence. }
  apply fill_missing_wf in Hd. unfold name_columns in Hl.
  destruct (get (fill_missing d) "payment_type") as [pt|] eqn:Ep;
    simpl in Hl; [|discriminate].
  assert (H1 : wf_frame (set_col (fill_missing d) "payment_type_name"
                                 (series_map payment_mapping pt)) = true).
  { apply set_col_wf; auto. rewrite series_map_length.
    exact (wf_frame_get _ _ _ Hd Ep). }
  destruct (has_column _ "trip_type"); [|now injection Hl as <-].
  destruct (get _ "trip_type") as [tt|] eqn:Et; simpl in Hl; [|discriminate].
  injection Hl as <-. apply set_col_wf; auto. rewrite series_map_length.
  exact (wf_frame_get _ _ _ H1 Et).
Qed.

(** ** The draw is without replacement *)

Lemma remove_nth_NoDup k (l : list nat) : NoDup l -> NoDup (remove_nth k l).
Proof.
  revert k. induction l as [|a l IH]; intros [|k] H; simpl; auto.
  - now inversion H.
  - inversion H as [|? ? Hna Hl]; subst. constructor; auto.
    intros Hin. apply Hna. now apply remove_nth_incl in Hin.
Qed.

Lemma nth_not_in_remove_nth k (l : list nat) d :
  NoDup l -> (k < length l)%nat -> ~ In (nth k l d) (remove_nth k l).
Proof.
  revert k. induction l as [|a l IH]; intros [|k] H Hk; simpl in *; try lia.
  - now inversion H.
  - inversion H as [|? ? Hna Hl]; subst. intros [E|Hin].
    + apply Hna. rewrite E. apply nth_In. lia.
    + apply (IH k); auto. lia.
Qed.

Lemma draw_NoDup entropy n pool : NoDup pool -> NoDup (draw entropy n pool).
Proof.
  revert entropy pool. induction n as [|n IH]; intros entropy pool H;
    [constructor|].
  destruct pool as [|p0 pool']; [constructor|].
  cbn [draw]. set (pool := p0 :: pool') in *.
  assert (Hk : (Nat.modulo (hd O entropy) (length pool) < length pool)%nat).
  { apply Nat.mod_upper_bound. simpl. lia. }
  constructor.
  - intros Hin. apply draw_incl in Hin.
    now apply (nth_not_in_remove_nth _ pool p0 H Hk).
  - apply IH. now apply remove_nth_NoDup.
Qed.

(** No position is drawn twice, and every position is a row of the view. *)
Lemma choice_distinct entropy n population positions :
  choice entropy n population = Some positions ->
  NoDup positions /\ length positions = n /\
  forall i, In i positions -> (i < population)%nat.
Proof.
  unfold choice. destruct (Nat.ltb_spec population n) as [|Hle]; [discriminate|].
  intros [= <-]. split; [apply draw_NoDup, seq_NoDup|]. split.
  - apply draw_length. now rewrite length_seq.
  - intros i Hi. apply draw_incl in Hi. apply in_seq in Hi. lia.
Qed.

(** * Further properties of the loader *)

Lemma assoc_drop_in {A : Type} (names : list string) (n : string)
      (l : list (string * A)) :
  existsb (fun m => String.eqb m n) names = true ->
  assoc n (filter (fun nc => negb (existsb (String.eqb (fst nc)) names)) l) = None.
Proof.
  intros Hn. induction l as [|[m b] r IH]; simpl; auto.
  destruct (existsb (String.eqb m) names) eqn:E; simpl; auto.
  destruct (String.eqb m n) eqn:Em; auto.
  apply String.eqb_eq in Em. subst m. exfalso.
  assert (Hd : existsb (String.eqb n) names = true).
  { rewrite <- Hn. clear. induction names as [|x r IH]; simpl; auto.
    now rewrite IH, String.eqb_sym. }
  congruence.
Qed.

Lemma get_drop_other names df n :
  existsb (fun m => String.eqb m n) names = false ->
  get (drop_columns names df) n = get df n.
Proof. intros H. unfold get, drop_columns. cbn [cols]. now apply assoc_drop. Qed.

Lemma get_drop_in names df n :
  existsb (fun m => String.eqb m n) names = true ->
  get (drop_columns names df) n = None.
Proof. intros H. unfold get, drop_columns. cbn [cols]. now apply assoc_drop_in. Qed.

(** [derive_columns] succeeds exactly on the two timestamp columns, and then
    returns this frame. *)
Lemma derive_columns_some raw dropoff pickup :
  get_time raw "lpep_dropoff_datetime" = Some dropoff ->
  get_time raw "lpep_pickup_datetime" = Some pickup ->
  existsb (fun b : bool => b) (zip_with sub_overflows dropoff pickup) = false ->
  let day_of_month := map (option_map (fun t => qcell (Calendar.day t))) pickup in
  let week := map (option_map week_of_month) day_of_month in
  derive_columns raw
  = Some (set_col (set_col (set_col (set_col (set_col (set_col
            (drop_columns dropped_names raw)
            "trip_duration" (NumCol (zip_with trip_duration dropoff pickup)))
            "weekday" (ObjCol (map (option_map Calendar.day_name) dropoff)))
            "hourofday"
            (NumCol (map (option_map (fun t => qcell (Calendar.hour t))) dropoff)))
            "day_of_month" (NumCol day_of_month))
            "week_of_month" (NumCol week))
            "week_name" (ObjCol (map (map_codes week_names) week))).
Proof.
  intros Ed Ep Ho. cbv zeta. unfold derive_columns.
  assert (Hd : forall n, existsb (fun m => String.eqb m n) dropped_names = false ->
                         get_time (drop_columns dropped_names raw) n = get_time raw n).
  { intros n Hn. unfold get_time. now rewrite get_drop_other. }
  fold dropped_names.
  rewrite !Hd, Ed, Ep by reflexivity. cbn [bind].
  unfold trip_durations. rewrite Ho. cbn [bind].
  rewrite !get_time_set_other, !Hd, Ed by reflexivity. cbn [bind].
  rewrite !get_time_set_other, !Hd, Ed by reflexivity. cbn [bind].
  rewrite !get_time_set_other, !Hd, Ep by reflexivity. cbn [bind].
  reflexivity.
Qed.

Lemma derive_columns_times raw d :
  derive_columns raw = Some d ->
  exists dropoff pickup,
    get_time raw "lpep_dropoff_datetime" = Some dropoff /\
    get_time raw "lpep_pickup_datetime" = Some pickup /\
    existsb (fun b : bool => b) (zip_with sub_overflows dropoff pickup) = false.
Proof.
  intros H. destruct (derive_columns_inv _ _ H) as (a & b & Ha & Hb & _).
  exists a, b. split; [exact Ha|]. split; [exact Hb|].
  exact (derive_columns_no_overflow raw d a b H Ha Hb).
Qed.

Lemma derive_columns_none raw :
  derive_columns raw = None <->
  get_time raw "lpep_dropoff_datetime" = None \/
  get_time raw "lpep_pickup_datetime" = None \/
  exists dropoff pickup,
    get_time raw "lpep_dropoff_datetime" = Some dropoff /\
    get_time raw "lpep_pickup_datetime" = Some pickup /\
    existsb (fun b : bool => b) (zip_with sub_overflows dropoff pickup) = true.
Proof.
  split.
  - intros H.
    destruct (get_time raw "lpep_dropoff_datetime") as [a|] eqn:Ea; auto.
    destruct (get_time raw "lpep_pickup_datetime") as [b|] eqn:Eb; auto.
    destruct (existsb (fun b : bool => b) (zip_with sub_overflows a b)) eqn:Eo.
    + right. right. exists a, b. auto.
    + rewrite (derive_columns_some raw a b Ea Eb Eo) in H. discriminate.
  - intros H. destruct (derive_columns raw) as [d|] eqn:E; auto.
    destruct (derive_columns_times _ _ E) as (a & b & Ha & Hb & Ho).
    destruct H as [H|[H|(a' & b' & Ha' & Hb' & Ho')]]; congruence.
Qed.

(** A column of the file that is neither dropped nor assigned to is carried
    over by [derive_columns]. *)
Lemma get_derive_other raw d n :
  derive_columns raw = Some d ->
  existsb (fun m => String.eqb m n) dropped_names = false ->
  existsb (fun m => String.eqb m n) derived_names = false ->
  get d n = get raw n.
Proof.
  intros H Hdrop Hder.
  destruct (derive_columns_times _ _ H) as (a & b & Ha & Hb & Ho).
  rewrite (derive_columns_some raw a b Ha Hb Ho) in H. injection H as <-.
  unfold derived_names in Hder. cbn [existsb] in Hder.
  repeat (apply orb_false_elim in Hder; destruct Hder as [? Hder]).
  rewrite !get_set_other by assumption.
  now apply get_drop_other.
Qed.

Lemma get_derive_dropped raw d n :
  derive_columns raw = Some d ->
  existsb (fun m => String.eqb m n) dropped_names = true ->
  get d n = None.
Proof.
  intros H Hdrop.
  destruct (derive_columns_times _ _ H) as (a & b & Ha & Hb & Ho).
  rewrite (derive_columns_some raw a b Ha Hb Ho) in H. injection H as <-.
  assert (Hder : existsb (fun m => String.eqb m n) derived_names = false).
  { unfold dropped_names in Hdrop. cbn [existsb] in Hdrop.
    apply orb_prop in Hdrop.
    destruct Hdrop as [E|E]; [|apply orb_prop in E; destruct E as [E|E]; [|discriminate]];
      apply String.eqb_eq in E; subst n; reflexivity. }
  unfold derived_names in Hder. cbn [existsb] in Hder.
  repeat (apply orb_false_elim in Hder; destruct Hder as [? Hder]).
  rewrite !get_set_other by assumption.
  now apply get_drop_in.
Qed.

Lemma has_column_set_other df n n' c :
  String.eqb n n' = false ->
  has_column (set_col df n c) n' = has_column df n'.
Proof.
  intros H. apply eq_true_iff_eq. rewrite !has_column_get.
  now rewrite get_set_other.
Qed.

(** What [name_columns] assigns. *)
Lemma name_columns_inv d df :
  name_columns d = Some df ->
  exists payment_type,
    get d "payment_type" = Some payment_type /\
    get df "payment_type_name" = Some (series_map payment_mapping payment_type) /\
    match get d "trip_type" with
    | Some trip_type =>
        get df "trip_type_name" = Some (series_map trip_type_mapping trip_type)
    | None => get df "trip_type_name" = get d "trip_type_name"
    end.
Proof.
  unfold name_columns. intros H.
  destruct (get d "payment_type") as [pt|]; cbn [bind] in H; [|discriminate].
  exists pt. split; [reflexivity|].
  rewrite has_column_set_other in H by reflexivity.
  rewrite get_set_other in H by reflexivity.
  destruct (has_column d "trip_type") eqn:Eh.
  - destruct (get d "trip_type") as [tt|]; cbn [bind] in H; [|discriminate].
    injection H as <-. split.
    + rewrite get_set_other by reflexivity. apply get_set_same.
    + apply get_set_same.
  - injection H as <-.
    destruct (get d "trip_type") as [tt|] eqn:Et.
    + apply not_true_iff_false in Eh. exfalso. apply Eh.
      apply has_column_get. congruence.
    + split; [apply get_set_same|]. now rewrite get_set_other.
Qed.

Lemma name_columns_none d :
  name_columns d = None <-> get d "payment_type" = None.
Proof.
  unfold name_columns. split.
  - destruct (get d "payment_type") as [pt|]; auto. cbn [bind].
    rewrite has_column_set_other, get_set_other by reflexivity.
    destruct (has_column d "trip_type") eqn:Eh; [|discriminate].
    apply has_column_get in Eh.
    destruct (get d "trip_type"); [discriminate|congruence].
  - now intros ->.
Qed.

(** X1. [load_data] raises exactly when the file lacks a timestamp column
    (or holds it with another dtype), or lacks the payment type column, or
    has a row with both timestamps whose difference does not fit int64
    nanoseconds; the optional columns never make it fail. *)
Theorem load_data_fails_iff raw :
  load_data raw = None <->
  get_time raw "lpep_dropoff_datetime" = None \/
  get_time raw "lpep_pickup_datetime" = None \/
  get raw "payment_type" = None \/
  exists dropoff pickup i d p,
    get_time raw "lpep_dropoff_datetime" = Some dropoff /\
    get_time raw "lpep_pickup_datetime" = Some pickup /\
    nth_error dropoff i = Some (Some d) /\
    nth_error pickup i = Some (Some p) /\
    ~ (int64_min <= d - p <= int64_max).
Proof.
  unfold load_data.
  destruct (derive_columns raw) as [d|] eqn:Ed; cbn [bind].
  - rewrite name_columns_none, get_fill_missing.
    rewrite (get_derive_other raw d "payment_type" Ed) by reflexivity.
    destruct (derive_columns_times _ _ Ed) as (a & b & Ha & Hb & Ho).
    rewrite Ha, Hb.
    destruct (get raw "payment_type") as [c|]; cbn [option_map]; split.
    + intros H. exfalso. revert H. simpl. discriminate.
    + intros [H|[H|[H|(a' & b' & i & x & y & [= <-] & [= <-] & Hx & Hy & Hf)]]];
        try discriminate.
      exfalso. apply Hf. exact (no_overflow_row a b i x y Ho Hx Hy).
    + intros _. right. right. now left.
    + reflexivity.
  - apply derive_columns_none in Ed. split; [|reflexivity]. intros _.
    destruct Ed as [H|[H|(a & b & Ha & Hb & Ho)]]; auto.
    right. right. right. apply overflow_row in Ho.
    destruct Ho as (i & x & y & Hx & Hy & Hf).
    exists a, b, i, x, y. repeat split; auto.
    unfold fits_int64 in Hf. apply andb_false_iff in Hf. lia.
Qed.

Lemma load_data_fails_iff_witness :
  load_data (drop_columns ["payment_type"%string] demo_raw) = None /\
  load_data demo_overflow = None /\
  load_data demo_raw <> None.
Proof.
  split; [|split].
  - apply (proj2 (load_data_fails_iff _)). right. right. left. reflexivity.
  - apply (proj2 (load_data_fails_iff _)). right. right. right.
    exists [Some (Calendar.timestamp 2262 1 1 0)],
           [Some (Calendar.timestamp 1678 1 1 0)], O,
           (Calendar.timestamp 2262 1 1 0), (Calendar.timestamp 1678 1 1 0).
    repeat split. vm_compute. intros [_ H]. now apply H.
  - intros H. apply (proj1 (load_data_fails_iff _)) in H.
    destruct H as [H|[H|[H|(a & b & i & x & y & [= <-] & [= <-] & Hx & Hy & Hf)]]];
      try discriminate.
    apply Hf. clear Hf.
    destruct i as [|[|[|[|[|[|i]]]]]]; vm_compute in Hx, Hy;
      try congruence; injection Hx as <-; injection Hy as <-;
      vm_compute; split; discriminate.
Defined.

Lemma index_set_col df n c : index (set_col df n c) = index df.
Proof. reflexivity. Qed.

Lemma load_data_index raw df : load_data raw = Some df -> index df = index raw.
Proof.
  unfold load_data. intros H.
  destruct (derive_columns raw) as [d|] eqn:Ed; cbn [bind] in H; [|discriminate].
  assert (Hd : index d = index raw).
  { destruct (derive_columns_times _ _ Ed) as (a & b & Ha & Hb & Ho).
    rewrite (derive_columns_some raw a b Ha Hb Ho) in Ed. now injection Ed as <-. }
  rewrite <- Hd. unfold name_columns in H.
  destruct (get (fill_missing d) "payment_type"); cbn [bind] in H; [|discriminate].
  destruct (has_column _ "trip_type").
  - destruct (get _ "trip_type"); cbn [bind] in H; [|discriminate].
    now injection H as <-.
  - now injection H as <-.
Qed.

(** X2. [load_data] keeps the rows of the file: the row labels are
    unchanged, and when every column of the file has one cell per row so has
    every column of the result, the derived ones included. *)
Theorem load_data_keeps_rows raw df :
  load_data raw = Some df ->
  index df = index raw /\
  len df = len raw /\
  (wf_frame raw = true ->
   wf_frame df = true /\
   forall n c, get df n = Some c -> col_len c = len raw).
Proof.
  intros H. pose proof (load_data_index raw df H) as Hi.
  split; [exact Hi|]. split; [unfold len; now rewrite Hi|].
  intros Hwf. pose proof (load_data_wf raw df Hwf H) as Hwf'.
  split; [exact Hwf'|]. intros n c Hc.
  rewrite (wf_frame_get df n c Hwf' Hc). unfold len. now rewrite Hi.
Qed.

Lemma load_data_keeps_rows_witness :
  index demo_df = [0; 1; 2; 3; 4]%nat /\
  forall n c, get demo_df n = Some c -> col_len c = 5%nat.
Proof.
  destruct (load_data_keeps_rows demo_raw demo_df eq_refl) as (Hi & _ & Hwf).
  split; [exact Hi|]. exact (proj2 (Hwf eq_refl)).
Defined.

(** A column of the file that [load_data] neither drops nor assigns to. *)
Lemma load_data_get_other raw df n :
  load_data raw = Some df ->
  existsb (fun m => String.eqb m n) dropped_names = false ->
  existsb (fun m => String.eqb m n) derived_names = false ->
  String.eqb "payment_type_name" n = false ->
  String.eqb "trip_type_name" n = false ->
  get df n = option_map (fun c => ffill_col (fillna_median_col c)) (get raw n).
Proof.
  unfold load_data. intros H Hn Hder Hp Ht.
  destruct (derive_columns raw) as [d|] eqn:Ed; cbn [bind] in H; [|discriminate].
  rewrite (get_name_columns _ _ _ H Hp Ht), get_fill_missing.
  now rewrite (get_derive_other raw d n Ed Hn Hder).
Qed.

(** X3. The loaded frame never has the columns [ehail_fee] and
    [fare_amount], whether or not the file had them; every other column of
    the file that [load_data] does not assign to is kept under its name,
    with its missing cells filled. *)
Theorem load_data_columns raw df :
  load_data raw = Some df ->
  has_column df "ehail_fee" = false /\
  has_column df "fare_amount" = false /\
  forall n,
    existsb (fun m => String.eqb m n) dropped_names = false ->
    existsb (fun m => String.eqb m n) derived_names = false ->
    String.eqb "payment_type_name" n = false ->
    String.eqb "trip_type_name" n = false ->
    get df n = option_map (fun c => ffill_col (fillna_median_col c)) (get raw n).
Proof.
  unfold load_data. intros H.
  destruct (derive_columns raw) as [d|] eqn:Ed; cbn [bind] in H; [|discriminate].
  assert (Hdrop : forall n,
            existsb (fun m => String.eqb m n) dropped_names = true ->
            has_column df n = false).
  { intros n Hn. apply not_true_iff_false. rewrite has_column_get.
    intros Hg. apply Hg.
    assert (Hp : String.eqb "payment_type_name" n = false /\
                 String.eqb "trip_type_name" n = false).
    { unfold dropped_names in Hn. cbn [existsb] in Hn.
      apply orb_prop in Hn.
      destruct Hn as [E|E]; [|apply orb_prop in E; destruct E as [E|E]; [|discriminate]];
        apply String.eqb_eq in E; subst n; split; reflexivity. }
    destruct Hp as [Hp Ht].
    rewrite (get_name_columns _ _ _ H Hp Ht), get_fill_missing.
    now rewrite (get_derive_dropped raw d n Ed Hn). }
  split; [now apply Hdrop|]. split; [now apply Hdrop|].
  intros n Hn Hder Hp Ht.
  rewrite (get_name_columns _ _ _ H Hp Ht), get_fill_missing.
  now rewrite (get_derive_other raw d n Ed Hn Hder).
Qed.

Lemma load_data_columns_witness :
  has_column demo_raw "fare_amount" = true /\
  has_column demo_df "fare_amount" = false /\
  get demo_df "store_and_fwd_flag"
  = Some (ObjCol [None; Some "N"; Some "N"; Some "Y"; Some "Y"]%string).
Proof.
  destruct (load_data_columns demo_raw demo_df eq_refl) as (_ & Hf & Hk).
  split; [reflexivity|]. split; [exact Hf|].
  rewrite (Hk "store_and_fwd_flag"%string eq_refl eq_refl eq_refl eq_refl).
  reflexivity.
Defined.

(** ** The weekday and the hour of the dropoff *)

Lemma weekday_index_range t : 0 <= Calendar.weekday_index t < 7.
Proof. unfold Calendar.weekday_index. apply Z.mod_pos_bound. lia. Qed.

Lemma day_name_is_weekday t : In (Calendar.day_name t) Calendar.day_names.
Proof.
  unfold Calendar.day_name. apply nth_In.
  pose proof (weekday_index_range t). simpl. lia.
Qed.

(** [dt.hour] of the instant [h] hours and [rest] nanoseconds into a day. *)
Lemma hour_of_civil y m d h rest :
  0 <= h < 24 -> 0 <= rest < Calendar.ns_per_hour ->
  Calendar.hour (Calendar.timestamp y m d (h * Calendar.ns_per_hour + rest)) = h.
Proof.
  unfold Calendar.hour, Calendar.timestamp, Calendar.ns_per_day,
    Calendar.ns_per_hour, Calendar.ns_per_second.
  generalize (Calendar.days_from_civil y m d). intros days Hh Hr.
  Z.div_mod_to_equations. lia.
Qed.

(** [dt.day_name()] is the same all day and repeats every seven days, and
    the week from Monday 1970-01-05 to Sunday 1970-01-11 carries the seven
    names in order. *)
Lemma day_name_of_civil :
  (forall y m d off, 0 <= off < Calendar.ns_per_day ->
     Calendar.day_name (Calendar.timestamp y m d off)
     = Calendar.day_name (Calendar.timestamp y m d 0)) /\
  (forall t, Calendar.day_name (t + 7 * Calendar.ns_per_day) = Calendar.day_name t) /\
  map (fun k => Calendar.day_name (Calendar.timestamp 1970 1 (5 + k) 0))
      [0; 1; 2; 3; 4; 5; 6]
  = ["Monday"; "Tuesday"; "Wednesday"; "Thursday"; "Friday"; "Saturday";
     "Sunday"]%string.
Proof.
  split; [|split; [|reflexivity]].
  - intros y m d off Hoff. unfold Calendar.day_name. f_equal. f_equal.
    unfold Calendar.weekday_index, Calendar.days_since_epoch,
      Calendar.timestamp, Calendar.ns_per_day, Calendar.ns_per_second in *.
    generalize (Calendar.days_from_civil y m d). intros days.
    Z.div_mod_to_equations. lia.
  - intros t. unfold Calendar.day_name. f_equal. f_equal.
    unfold Calendar.weekday_index, Calendar.days_since_epoch,
      Calendar.ns_per_day, Calendar.ns_per_second.
    Z.div_mod_to_equations. lia.
Qed.

(** X4. In the loaded frame every row whose dropoff timestamp is present in
    the file carries the weekday name of that timestamp, one of the seven
    names the sidebar offers, and its hour, a whole number from 0 to 23.
    The hour of the instant [h] hours into a day is [h]; the weekday name
    is the same all day, repeats every seven days and runs from Monday
    1970-01-05 to Sunday 1970-01-11. *)
Theorem weekday_and_hour_of_loaded_rows raw df dropoff i t :
  load_data raw = Some df ->
  get_time raw "lpep_dropoff_datetime" = Some dropoff ->
  nth_error dropoff i = Some (Some t) ->
  (cell_at df "weekday" i = Some (Some (SStr (Calendar.day_name t))) /\
   In (SStr (Calendar.day_name t)) weekday_order /\
   cell_at df "hourofday" i = Some (Some (SNum (inject_Z (Calendar.hour t)))) /\
   0 <= Calendar.hour t <= 23) /\
  (forall y m d h rest,
     0 <= h < 24 -> 0 <= rest < Calendar.ns_per_hour ->
     Calendar.hour (Calendar.timestamp y m d (h * Calendar.ns_per_hour + rest)) = h) /\
  (forall y m d off, 0 <= off < Calendar.ns_per_day ->
     Calendar.day_name (Calendar.timestamp y m d off)
     = Calendar.day_name (Calendar.timestamp y m d 0)) /\
  (forall t', Calendar.day_name (t' + 7 * Calendar.ns_per_day) = Calendar.day_name t') /\
  map (fun k => Calendar.day_name (Calendar.timestamp 1970 1 (5 + k) 0))
      [0; 1; 2; 3; 4; 5; 6]
  = ["Monday"; "Tuesday"; "Wednesday"; "Thursday"; "Friday"; "Saturday";
     "Sunday"]%string.
Proof.
  intros Hl Hd Hi.
  split; [|split; [exact hour_of_civil|exact day_name_of_civil]].
  destruct (derive_columns raw) as [d1|] eqn:Ed;
    [|unfold load_data in Hl; rewrite Ed in Hl; discriminate].
  destruct (derive_columns_inv _ _ Ed)
    as (dropoff' & pickup & Hd' & _ & _ & Hw & Hh & _).
  rewrite Hd in Hd'. injection Hd' as <-.
  split; [|split; [|split]].
  - apply (load_data_keeps raw d1); auto.
    unfold cell_at. rewrite Hw. simpl. now rewrite !nth_error_map, Hi.
  - unfold weekday_order. apply in_map, day_name_is_weekday.
  - apply (load_data_keeps raw d1); auto.
    unfold cell_at. rewrite Hh. simpl. now rewrite !nth_error_map, Hi.
  - apply hour_range.
Qed.

Lemma weekday_and_hour_of_loaded_rows_witness :
  cell_at demo_df "weekday" 4 = Some (Some (SStr "Friday")) /\
  cell_at demo_df "hourofday" 4 = Some (Some (SNum 0)) /\
  Calendar.hour (Calendar.timestamp 2023 9 1 600000000000) = 0 /\
  Calendar.day_name (Calendar.timestamp 2023 9 1 600000000000)
  = Calendar.day_name (Calendar.timestamp 2023 9 1 0).
Proof.
  destruct (weekday_and_hour_of_loaded_rows demo_raw demo_df _ 4%nat
              (Calendar.timestamp 2023 9 1 600000000000) eq_refl eq_refl eq_refl)
    as ((Hw & _ & Hh & _) & Hhour & Hday & _).
  split; [exact Hw|]. split; [exact Hh|]. split.
  - apply (Hhour 2023 9 1 0 600000000000);
      unfold Calendar.ns_per_hour, Calendar.ns_per_second; lia.
  - apply Hday. unfold Calendar.ns_per_day, Calendar.ns_per_second. lia.
Defined.

(** ** The payment and trip type labels *)

Lemma map_codes_label table x s :
  map_codes table x = Some s ->
  exists k q, In (k, s) table /\ x = Some q /\ (q == inject_Z k)%Q.
Proof.
  unfold map_codes. destruct x as [q|]; [|discriminate].
  destruct (find _ table) as [[k s']|] eqn:E; simpl; [|discriminate].
  intros [= <-]. apply find_some in E. destruct E as [Hin Hq].
  exists k, q. split; auto. split; auto. now apply Qeq_bool_iff.
Qed.

Lemma nth_error_series_map table c i :
  nth_error (cells (series_map table c)) i
  = match nth_error (cells c) i with
    | Some (Some (SNum q)) => Some (option_map SStr (map_codes table (Some q)))
    | Some _ => Some None
    | None => None
    end.
Proof.
  destruct c as [xs|xs|xs]; simpl; rewrite !nth_error_map;
    destruct (nth_error xs i) as [[v|]|]; reflexivity.
Qed.

Lemma load_data_payment raw df :
  load_data raw = Some df ->
  exists payment_type,
    get df "payment_type" = Some payment_type /\
    get df "payment_type_name" = Some (series_map payment_mapping payment_type).
Proof.
  unfold load_data. intros H.
  destruct (derive_columns raw) as [d|]; cbn [bind] in H; [|discriminate].
  destruct (name_columns_inv _ _ H) as (pt & Hpt & Hname & _).
  exists pt. split; [|exact Hname].
  now rewrite (get_name_columns _ _ "payment_type" H eq_refl eq_refl).
Qed.

Lemma Qeq_bool_false q r : ~ (q == r)%Q -> Qeq_bool q r = false.
Proof.
  intros H. destruct (Qeq_bool q r) eqn:E; [|reflexivity].
  apply Qeq_bool_eq in E. contradiction.
Qed.

(** A value that is no key of the table has no label. *)
Lemma map_codes_other table q :
  (forall k s, In (k, s) table -> ~ (q == inject_Z k)%Q) ->
  map_codes table (Some q) = None.
Proof.
  intros H. unfold map_codes.
  destruct (find (fun kv => Qeq_bool q (inject_Z (fst kv))) table)
    as [[k s]|] eqn:E; [|reflexivity].
  apply find_some in E. destruct E as [Hin Hq]. cbn [fst] in Hq.
  apply Qeq_bool_eq in Hq. now apply H in Hin.
Qed.

(** X5. In the loaded frame the payment label of a row is decided by the
    payment code of the same row: code 1, 2 or 3 gives "Credit Card", "Cash"
    or "No Charge"; any other number, whole or not, a missing cell and a
    cell that is no number give a missing label and no error.  So a label,
    when present, is one of the three the sidebar offers. *)
Theorem payment_type_name_of_loaded_rows raw df :
  load_data raw = Some df ->
  (forall i q k,
     cell_at df "payment_type" i = Some (Some (SNum q)) ->
     (q == inject_Z k)%Q ->
     cell_at df "payment_type_name" i
     = Some (option_map SStr (code_label payment_mapping k))) /\
  (forall i q,
     cell_at df "payment_type" i = Some (Some (SNum q)) ->
     ~ (q == 1)%Q -> ~ (q == 2)%Q -> ~ (q == 3)%Q ->
     cell_at df "payment_type_name" i = Some None) /\
  (forall i,
     cell_at df "payment_type" i = Some None ->
     cell_at df "payment_type_name" i = Some None) /\
  (forall i s,
     cell_at df "payment_type" i = Some (Some s) ->
     (forall q, s <> SNum q) ->
     cell_at df "payment_type_name" i = Some None) /\
  (forall i s,
     cell_at df "payment_type_name" i = Some (Some s) ->
     In s [SStr "Credit Card"; SStr "Cash"; SStr "No Charge"]) /\
  code_label payment_mapping 1 = Some "Credit Card"%string /\
  code_label payment_mapping 2 = Some "Cash"%string /\
  code_label payment_mapping 3 = Some "No Charge"%string /\
  (forall k, ~ 1 <= k <= 3 -> code_label payment_mapping k = None).
Proof.
  intros H. destruct (load_data_payment raw df H) as (pt & Hpt & Hname).
  unfold cell_at. rewrite Hpt, Hname. cbn [bind].
  split; [|split; [|split; [|split; [|split; [|split; [|split; [|split]]]]]]];
    try reflexivity.
  - intros i q k Hc Hq. rewrite nth_error_series_map, Hc.
    now rewrite (map_codes_integer _ _ _ Hq).
  - intros i q Hc H1 H2 H3. rewrite nth_error_series_map, Hc.
    rewrite map_codes_other; [reflexivity|].
    intros k s Hin. simpl in Hin.
    destruct Hin as [[= <- _]|[[= <- _]|[[= <- _]|[]]]]; assumption.
  - intros i Hc. now rewrite nth_error_series_map, Hc.
  - intros i s Hc Hs. rewrite nth_error_series_map, Hc.
    destruct s as [q| |]; [now specialize (Hs q)|reflexivity|reflexivity].
  - intros i s. rewrite nth_error_series_map.
    destruct (nth_error (cells pt) i) as [[[q|l|t]|]|]; try discriminate.
    destruct (map_codes payment_mapping (Some q)) as [l|] eqn:E; [|discriminate].
    intros [= <-]. apply map_codes_label in E.
    destruct E as (k & q' & Hin & _). simpl in Hin.
    destruct Hin as [[= _ <-]|[[= _ <-]|[[= _ <-]|[]]]]; simpl; auto.
  - intros k Hk. unfold code_label, payment_mapping. cbn [find fst].
    destruct (Z.eqb_spec 1 k); [lia|].
    destruct (Z.eqb_spec 2 k); [lia|].
    destruct (Z.eqb_spec 3 k); [lia|reflexivity].
Qed.

Lemma payment_type_name_of_loaded_rows_witness :
  cell_at demo_df "payment_type_name" 1 = Some (Some (SStr "Cash")) /\
  cell_at demo_df "payment_type" 4 = Some (Some (SNum (3 # 2))) /\
  cell_at demo_df "payment_type_name" 4 = Some None /\
  cell_at demo_codes_df "payment_type_name" 1 = Some None.
Proof.
  destruct (payment_type_name_of_loaded_rows demo_raw demo_df eq_refl)
    as (Hcode & Hother & _).
  split; [|split; [reflexivity|split]].
  - apply (Hcode 1%nat (2 # 1)%Q 2); reflexivity.
  - apply (Hother 4%nat (3 # 2)%Q); [reflexivity|discriminate..].
  - assert (Hl : load_data demo_codes = Some demo_codes_df)
      by (vm_compute; reflexivity).
    destruct (payment_type_name_of_loaded_rows demo_codes demo_codes_df Hl)
      as (_ & Hother' & _).
    apply (Hother' 1%nat (4 # 1)%Q); [reflexivity|discriminate..].
Defined.

Lemma load_data_trip_type raw df :
  load_data raw = Some df ->
  match get df "trip_type" with
  | Some trip_type =>
      get df "trip_type_name" = Some (series_map trip_type_mapping trip_type)
  | None =>
      get df "trip_type_name"
      = option_map (fun c => ffill_col (fillna_median_col c))
                   (get raw "trip_type_name")
  end.
Proof.
  unfold load_data. intros H.
  destruct (derive_columns raw) as [d|] eqn:Ed; cbn [bind] in H; [|discriminate].
  destruct (name_columns_inv _ _ H) as (pt & _ & _ & Htt).
  rewrite (get_name_columns _ _ "trip_type" H eq_refl eq_refl).
  destruct (get (fill_missing d) "trip_type") as [tt|]; [exact Htt|].
  rewrite Htt, get_fill_missing.
  now rewrite (get_derive_other raw d "trip_type_name" Ed).
Qed.

Lemma load_data_has_trip_type_name raw df :
  load_data raw = Some df ->
  has_column df "trip_type_name"
  = has_column raw "trip_type" || has_column raw "trip_type_name".
Proof.
  intros H. pose proof (load_data_trip_type raw df H) as Htt.
  rewrite (load_data_get_other raw df "trip_type" H) in Htt by reflexivity.
  apply eq_true_iff_eq. rewrite orb_true_iff, !has_column_get.
  destruct (get raw "trip_type") as [c|]; simpl in Htt; rewrite Htt.
  - split; [left|]; discriminate.
  - destruct (get raw "trip_type_name"); simpl; intuition congruence.
Qed.

(** X6. The trip type labels exist in the loaded frame exactly when the
    file has a trip type column (or already has a column of that name);
    when the file has the codes, code 1 gives "Street-hail", code 2 gives
    "Dispatch", and any other number, whole or not, a missing cell and a
    cell that is no number give a missing label. *)
Theorem trip_type_name_of_loaded_rows raw df :
  load_data raw = Some df ->
  has_column df "trip_type_name"
  = has_column raw "trip_type" || has_column raw "trip_type_name" /\
  (has_column raw "trip_type" = true ->
   (forall i q k,
      cell_at df "trip_type" i = Some (Some (SNum q)) ->
      (q == inject_Z k)%Q ->
      cell_at df "trip_type_name" i
      = Some (option_map SStr (code_label trip_type_mapping k))) /\
   (forall i q,
      cell_at df "trip_type" i = Some (Some (SNum q)) ->
      ~ (q == 1)%Q -> ~ (q == 2)%Q ->
      cell_at df "trip_type_name" i = Some None) /\
   (forall i,
      cell_at df "trip_type" i = Some None ->
      cell_at df "trip_type_name" i = Some None) /\
   (forall i s,
      cell_at df "trip_type" i = Some (Some s) ->
      (forall q, s <> SNum q) ->
      cell_at df "trip_type_name" i = Some None) /\
   (forall i s,
      cell_at df "trip_type_name" i = Some (Some s) ->
      In s [SStr "Street-hail"; SStr "Dispatch"])) /\
  code_label trip_type_mapping 1 = Some "Street-hail"%string /\
  code_label trip_type_mapping 2 = Some "Dispatch"%string /\
  (forall k, ~ 1 <= k <= 2 -> code_label trip_type_mapping k = None).
Proof.
  intros H. pose proof (load_data_trip_type raw df H) as Htt.
  assert (Hcol : get df "trip_type"
                 = option_map (fun c => ffill_col (fillna_median_col c))
                              (get raw "trip_type")).
  { now apply load_data_get_other. }
  split; [|split; [|split; [reflexivity|split; [reflexivity|]]]].
  - now apply load_data_has_trip_type_name.
  - intros Hraw. apply has_column_get in Hraw. rewrite Hcol in Htt.
    destruct (get raw "trip_type") as [c|]; [|congruence]. simpl in Htt.
    unfold cell_at. rewrite Hcol, Htt. cbn [bind option_map].
    split; [|split; [|split; [|split]]].
    + intros i q k Hc Hq. rewrite nth_error_series_map, Hc.
      now rewrite (map_codes_integer _ _ _ Hq).
    + intros i q Hc H1 H2. rewrite nth_error_series_map, Hc.
      rewrite map_codes_other; [reflexivity|].
      intros k s Hin. simpl in Hin.
      destruct Hin as [[= <- _]|[[= <- _]|[]]]; assumption.
    + intros i Hc. now rewrite nth_error_series_map, Hc.
    + intros i s Hc Hs. rewrite nth_error_series_map, Hc.
      destruct s as [q| |]; [now specialize (Hs q)|reflexivity|reflexivity].
    + intros i s. rewrite nth_error_series_map.
      destruct (nth_error (cells _) i) as [[[q|l|t]|]|]; try discriminate.
      destruct (map_codes trip_type_mapping (Some q)) as [l|] eqn:E; [|discriminate].
      intros [= <-]. apply map_codes_label in E.
      destruct E as (k & q' & Hin & _). simpl in Hin.
      destruct Hin as [[= _ <-]|[[= _ <-]|[]]]; simpl; auto.
  - intros k Hk. unfold code_label, trip_type_mapping. cbn [find fst].
    destruct (Z.eqb_spec 1 k); [lia|].
    destruct (Z.eqb_spec 2 k); [lia|reflexivity].
Qed.

Lemma trip_type_name_of_loaded_rows_witness :
  has_column demo_df "trip_type_name" = true /\
  cell_at demo_df "trip_type_name" 3 = Some (Some (SStr "Dispatch")) /\
  (cell_at demo_codes_df "trip_type" 1 = Some (Some (SNum 3)) /\
   cell_at demo_codes_df "trip_type_name" 1 = Some None) /\
  (cell_at demo_codes_df "trip_type" 4 = Some (Some (SNum (3 # 2))) /\
   cell_at demo_codes_df "trip_type_name" 4 = Some None) /\
  option_map (fun df => has_column df "trip_type_name")
             (load_data (drop_columns ["trip_type"%string] demo_raw))
  = Some false.
Proof.
  destruct (trip_type_name_of_loaded_rows demo_raw demo_df eq_refl)
    as (Hhas & Hcells & _).
  assert (Hl : load_data demo_codes = Some demo_codes_df)
    by (vm_compute; reflexivity).
  destruct (trip_type_name_of_loaded_rows demo_codes demo_codes_df Hl)
    as (_ & Hcodes & _).
  destruct (Hcodes eq_refl) as (_ & Hother & _).
  split; [rewrite Hhas; reflexivity|]. split; [|split; [|split]].
  - apply (proj1 (Hcells eq_refl) 3%nat (2 # 1)%Q 2); reflexivity.
  - split; [reflexivity|].
    apply (Hother 1%nat (3 # 1)%Q); [reflexivity|discriminate..].
  - split; [reflexivity|].
    apply (Hother 4%nat (3 # 2)%Q); [reflexivity|discriminate..].
  - destruct (load_data (drop_columns ["trip_type"%string] demo_raw))
      as [df|] eqn:Hdf; [|vm_compute in Hdf; discriminate].
    destruct (trip_type_name_of_loaded_rows _ df Hdf) as (H & _).
    simpl. rewrite H. reflexivity.
Defined.

(** ** What is left missing after the two fill steps *)

(** X7. After [load_data], a numeric column of the file that has at least
    one value has no missing cell left: every cell that was present is
    unchanged and every cell that was missing holds the median of the
    column. *)
Theorem loaded_numeric_column_is_complete raw df n xs :
  load_data raw = Some df ->
  get raw n = Some (NumCol xs) ->
  existsb (fun m => String.eqb m n) dropped_names = false ->
  existsb (fun m => String.eqb m n) derived_names = false ->
  String.eqb "payment_type_name" n = false ->
  String.eqb "trip_type_name" n = false ->
  present xs <> [] ->
  exists m,
    median xs = Some m /\
    get df n = Some (NumCol (map (fillna_value (Some m)) xs)) /\
    forall i, cell_at df n i
              = match nth_error xs i with
                | Some (Some v) => Some (Some (SNum v))
                | Some None => Some (Some (SNum m))
                | None => None
                end.
Proof.
  intros H Hg Hdrop Hder Hp Ht Hpres.
  destruct (median xs) as [m|] eqn:Em; [|now apply median_nan in Em].
  exists m. split; [reflexivity|].
  assert (Hcol : get df n = Some (NumCol (map (fillna_value (Some m)) xs))).
  { rewrite (load_data_get_other raw df n H Hdrop Hder Hp Ht), Hg. simpl.
    rewrite Em. do 2 f_equal. apply ffill_from_no_gap.
    intros x Hx. apply in_map_iff in Hx.
    destruct Hx as ([v|] & <- & _); discriminate. }
  split; [exact Hcol|]. intros i. unfold cell_at. rewrite Hcol. simpl.
  rewrite !nth_error_map. now destruct (nth_error xs i) as [[v|]|].
Qed.

Lemma loaded_numeric_column_is_complete_witness :
  get demo_df "total_amount"
  = Some (NumCol [num 10 1; num 20 1; num 30 1; Some ((20 + 30) / 2)%Q; num 44 1]).
Proof.
  destruct (loaded_numeric_column_is_complete demo_raw demo_df "total_amount"
              [num 10 1; num 20 1; num 30 1; None; num 44 1]
              eq_refl eq_refl eq_refl eq_refl eq_refl eq_refl)
    as (m & Hm & Hcol & _); [discriminate|].
  rewrite Hcol. injection Hm as <-. reflexivity.
Defined.

Lemma nearest_preceding_none {A : Type} (xs : list (option A)) i :
  nearest_preceding xs i = None <->
  forall j v, (j <= i)%nat -> nth_error xs j <> Some (Some v).
Proof.
  induction i as [|i IH].
  - change (nearest_preceding xs 0)
      with (match nth_error xs 0 with
            | Some (Some v) => Some v
            | _ => None
            end).
    destruct (nth_error xs 0) as [[v|]|] eqn:E; split; intros H;
      try discriminate; try reflexivity.
    + exfalso. apply (H 0%nat v); auto.
    + intros j w Hj. assert (j = 0%nat) as -> by lia. rewrite E. discriminate.
    + intros j w Hj. assert (j = 0%nat) as -> by lia. rewrite E. discriminate.
  - change (nearest_preceding xs (S i))
      with (match nth_error xs (S i) with
            | Some (Some v) => Some v
            | _ => nearest_preceding xs i
            end).
    destruct (nth_error xs (S i)) as [[v|]|] eqn:E.
    + split; [discriminate|]. intros H. exfalso. apply (H (S i) v); auto.
    + rewrite IH. split; intros H j w Hj.
      * destruct (Nat.eq_dec j (S i)) as [->|Hne]; [rewrite E; discriminate|].
        apply H. lia.
      * apply H. lia.
    + rewrite IH. split; intros H j w Hj.
      * destruct (Nat.eq_dec j (S i)) as [->|Hne]; [rewrite E; discriminate|].
        apply H. lia.
      * apply H. lia.
Qed.

Lemma ffill_from_idempotent {A : Type} (last : option A) xs :
  ffill_from last (ffill_from last xs) = ffill_from last xs.
Proof.
  revert last. induction xs as [|x xs IH]; intros last; simpl; auto.
  assert (E : fillna_value last (fillna_value last x) = fillna_value last x).
  { destruct x; simpl; auto. now destruct last. }
  rewrite E. f_equal. apply IH.
Qed.

(** X8. Forward fill keeps the length of a column and every present cell,
    and is idempotent; after it a cell is still missing exactly when every
    cell from the top of the column down to it was missing. *)
Theorem ffill_leaves_leading_gaps {A : Type} (xs : list (option A)) :
  length (ffill xs) = length xs /\
  ffill (ffill xs) = ffill xs /\
  (forall i v, nth_error xs i = Some (Some v) ->
               nth_error (ffill xs) i = Some (Some v)) /\
  (forall i, (i < length xs)%nat ->
     (nth_error (ffill xs) i = Some None <->
      forall j, (j <= i)%nat -> nth_error xs j = Some None)).
Proof.
  split; [apply ffill_from_length|]. split; [apply ffill_from_idempotent|].
  split; [intros i v; apply ffill_from_keeps|].
  intros i Hi. rewrite nth_error_ffill by exact Hi. split.
  - intros [= H]. intros j Hj.
    destruct (nth_error xs j) as [[v|]|] eqn:E; auto.
    + exfalso. now apply (proj1 (nearest_preceding_none xs i) H j v).
    + apply nth_error_None in E. lia.
  - intros H. f_equal. apply nearest_preceding_none.
    intros j v Hj. rewrite (H j Hj). discriminate.
Qed.

Lemma ffill_leaves_leading_gaps_witness :
  ffill [None; None; Some 7; None; Some 9; None]
  = [None; None; Some 7; Some 7; Some 9; Some 9] /\
  nth_error (ffill [None; None; Some 7; None; Some 9; None]) 1 = Some None.
Proof.
  split; [reflexivity|].
  destruct (ffill_leaves_leading_gaps [None; None; Some 7; None; Some 9; None])
    as (_ & _ & _ & H).
  apply (H 1%nat); [simpl; lia|].
  intros [|[|j]] Hj; [reflexivity|reflexivity|lia].
Defined.

(** * Further properties of the filters *)

Lemma apply_filters_chain df s : apply_filters df s = select_all (criteria df s) df.
Proof.
  unfold apply_filters, criteria.
  destruct (String.eqb (selected_week s) "All Weeks");
    destruct (has_column df "trip_type_name"); simpl;
    repeat (match goal with
            | |- context [select ?n ?v ?d] =>
                destruct (select n v d); simpl; try reflexivity
            end).
Qed.

Lemma test_filters_chain df w p k :
  test_filters df w p k = select_all (test_criteria w p k) df.
Proof.
  unfold test_filters, test_criteria.
  destruct (String.eqb w "All"); destruct (String.eqb p "All");
    destruct (String.eqb k "All"); simpl;
    repeat (match goal with
            | |- context [select ?n ?v ?d] =>
                destruct (select n v d); simpl; try reflexivity
            end);
    reflexivity.
Qed.

Lemma select_mask_zip_andb m a b :
  select_mask m (zip_with andb a b)
  = zip_with andb (select_mask m a) (select_mask m b).
Proof.
  revert a b. induction m as [|x m IH]; intros [|y a] [|z b]; simpl; auto.
  - destruct x; simpl; now destruct (select_mask m a).
  - destruct x; simpl; now rewrite IH.
Qed.

Lemma criterion_mask_take_rows m df nv :
  criterion_mask (take_rows m df) nv
  = option_map (select_mask m) (criterion_mask df nv).
Proof.
  unfold criterion_mask. rewrite get_take_rows.
  destruct (get df (fst nv)); simpl; auto.
  now rewrite mask_eq_col_select.
Qed.

Lemma combined_mask_take_rows m l df :
  combined_mask l (take_rows m df)
  = option_map (option_map (select_mask m)) (combined_mask l df).
Proof.
  induction l as [|nv l IH]; simpl; auto.
  rewrite criterion_mask_take_rows, IH.
  destruct (criterion_mask df nv) as [a|]; simpl; auto.
  destruct (combined_mask l df) as [[b|]|]; simpl; auto.
  now rewrite select_mask_zip_andb.
Qed.

(** The chain of filters is one filter by the AND of all masks. *)
Lemma select_all_is_and l df : select_all l df = filter_by_all l df.
Proof.
  revert df. induction l as [|[n v] l IH]; intros df; [reflexivity|].
  cbn [select_all]. unfold filter_by_all. cbn [combined_mask].
  unfold select, criterion_mask. cbn [fst snd].
  destruct (get df n) as [c|]; cbn [bind]; auto.
  rewrite IH. unfold filter_by_all. rewrite combined_mask_take_rows.
  destruct (combined_mask l df) as [[m|]|]; cbn [bind option_map take_rows_opt];
    auto.
  now rewrite take_rows_twice.
Qed.

Lemma zip_with_andb_assoc a b c :
  zip_with andb a (zip_with andb b c) = zip_with andb (zip_with andb a b) c.
Proof.
  revert b c. induction a as [|x a IH]; intros [|y b] [|z c]; simpl; auto.
  now rewrite IH, andb_assoc.
Qed.

Lemma combined_mask_perm l l' df :
  Permutation.Permutation l l' -> combined_mask l df = combined_mask l' df.
Proof.
  induction 1 as [|x l l' _ IH|x y l|l l' l'' _ IH1 _ IH2].
  - reflexivity.
  - simpl. now rewrite IH.
  - simpl.
    destruct (criterion_mask df x) as [a|]; destruct (criterion_mask df y) as [b|];
      cbn [bind]; auto.
    destruct (combined_mask l df) as [[m|]|]; cbn [bind]; auto.
    + do 2 f_equal. rewrite !zip_with_andb_assoc. f_equal.
      apply zip_with_andb_comm.
    + do 2 f_equal. apply zip_with_andb_comm.
  - congruence.
Qed.

(** X9. The sidebar chain is one boolean index: it keeps the rows at which
    all supplied predicates hold, every mask being that of the unfiltered
    frame; and the same filters applied in any other order return the same
    view, or raise together. *)
Theorem apply_filters_is_and df s :
  apply_filters df s = filter_by_all (criteria df s) df /\
  forall l, Permutation.Permutation (criteria df s) l ->
            select_all l df = apply_filters df s.
Proof.
  split.
  - now rewrite apply_filters_chain, select_all_is_and.
  - intros l Hl. rewrite apply_filters_chain, !select_all_is_and.
    unfold filter_by_all. now rewrite (combined_mask_perm _ _ df Hl).
Qed.

Lemma apply_filters_is_and_witness :
  select_all [("hourofday"%string, SNum 10); ("weekday"%string, SStr "Thursday");
              ("passenger_count"%string, SNum 1);
              ("trip_type_name"%string, SStr "Street-hail");
              ("payment_type_name"%string, SStr "Credit Card")] demo_df
  = apply_filters demo_df
      (mkSelection "All Weeks" "Thursday" "Credit Card" 1 "Street-hail" 10).
Proof.
  apply (proj2 (apply_filters_is_and demo_df
                  (mkSelection "All Weeks" "Thursday" "Credit Card" 1
                               "Street-hail" 10))).
  change (criteria demo_df
            (mkSelection "All Weeks" "Thursday" "Credit Card" 1 "Street-hail" 10))
    with [("weekday"%string, SStr "Thursday");
          ("payment_type_name"%string, SStr "Credit Card");
          ("passenger_count"%string, SNum 1);
          ("trip_type_name"%string, SStr "Street-hail");
          ("hourofday"%string, SNum 10)].
  apply Permutation.Permutation_sym.
  apply Permutation.Permutation_cons_app with
    (l1 := [("weekday"%string, SStr "Thursday");
            ("payment_type_name"%string, SStr "Credit Card");
            ("passenger_count"%string, SNum 1);
            ("trip_type_name"%string, SStr "Street-hail")]) (l2 := []).
  rewrite app_nil_r. apply Permutation.perm_skip.
  apply Permutation.Permutation_cons_app with
    (l1 := [("payment_type_name"%string, SStr "Credit Card")])
    (l2 := [("trip_type_name"%string, SStr "Street-hail")]).
  simpl. apply Permutation.Permutation_cons_app with
    (l1 := [("payment_type_name"%string, SStr "Credit Card")]) (l2 := []).
  apply Permutation.Permutation_refl.
Defined.

Lemma forallb_select_mask {A : Type} (p : A -> bool) m xs :
  forallb p xs = true -> forallb p (select_mask m xs) = true.
Proof.
  revert xs. induction m as [|b m IH]; intros [|x xs]; simpl; auto.
  intros H. apply andb_prop in H. destruct H as [Hx Hxs].
  destruct b; simpl; [rewrite Hx; simpl|]; apply IH; exact Hxs.
Qed.

Lemma forallb_select_own {A : Type} (p : A -> bool) xs :
  forallb p (select_mask (map p xs) xs) = true.
Proof.
  induction xs as [|x xs IH]; simpl; auto.
  destruct (p x) eqn:E; simpl; [rewrite E; simpl|]; exact IH.
Qed.

Lemma all_match_take_rows m df n v :
  all_match df n v = true -> all_match (take_rows m df) n v = true.
Proof.
  unfold all_match. rewrite get_take_rows.
  destruct (get df n) as [c|]; simpl; [|discriminate].
  rewrite cells_col_select. apply forallb_select_mask.
Qed.

Lemma all_match_select n v df df' :
  select n v df = Some df' -> all_match df' n v = true.
Proof.
  unfold select, all_match. destruct (get df n) as [c|] eqn:E; [|discriminate].
  cbn [bind]. intros [= <-]. rewrite get_take_rows, E. simpl.
  rewrite cells_col_select. apply forallb_select_own.
Qed.

Lemma select_all_keeps_match l df view n v :
  select_all l df = Some view ->
  all_match df n v = true -> all_match view n v = true.
Proof.
  revert df. induction l as [|[m w] l IH]; intros df H Hm; simpl in H.
  - now injection H as <-.
  - unfold select in H. destruct (get df m) as [c|]; cbn [bind] in H; [|discriminate].
    apply (IH _ H). now apply all_match_take_rows.
Qed.

Lemma select_all_sound l df view n v :
  select_all l df = Some view -> In (n, v) l -> all_match view n v = true.
Proof.
  revert df. induction l as [|[m w] l IH]; intros df H Hin; [contradiction|].
  simpl in H. destruct (select m w df) as [df'|] eqn:E; cbn [bind] in H;
    [|discriminate].
  destruct Hin as [[= -> ->]|Hin].
  - apply (select_all_keeps_match l df'); auto. now apply all_match_select with df.
  - now apply (IH df').
Qed.

(** X10. Every row of the view the sidebar chain returns satisfies every
    filter: its weekday, payment label, passenger count and hour are the
    selected ones, and so are its week label unless "All Weeks" is chosen,
    and its trip type when the frame has trip type labels. *)
Theorem apply_filters_sound df s view :
  apply_filters df s = Some view ->
  all_match view "weekday" (SStr (selected_weekday s)) = true /\
  all_match view "payment_type_name" (SStr (selected_payment s)) = true /\
  all_match view "passenger_count" (SNum (selected_passenger s)) = true /\
  all_match view "hourofday" (SNum (selected_hour s)) = true /\
  (String.eqb (selected_week s) "All Weeks" = false ->
   all_match view "week_name" (SStr (selected_week s)) = true) /\
  (has_column df "trip_type_name" = true ->
   all_match view "trip_type_name" (SStr (selected_trip_type s)) = true).
Proof.
  rewrite apply_filters_chain. intros H.
  assert (Hin : forall n v, In (n, v) (criteria df s) -> all_match view n v = true).
  { intros n v. now apply select_all_sound with df. }
  unfold criteria in Hin.
  repeat split; try (intros Hc; rewrite Hc in Hin); apply Hin;
    rewrite !in_app_iff; simpl; tauto.
Qed.

Lemma apply_filters_sound_witness :
  exists view,
    apply_filters demo_df
      (mkSelection "1st Week" "Thursday" "Credit Card" 1 "Street-hail" 10)
    = Some view /\
    len view = 1%nat /\
    all_match view "weekday" (SStr "Thursday") = true /\
    all_match view "week_name" (SStr "1st Week") = true.
Proof.
  eexists. split; [reflexivity|]. split; [reflexivity|].
  destruct (apply_filters_sound demo_df
              (mkSelection "1st Week" "Thursday" "Credit Card" 1 "Street-hail" 10)
              _ eq_refl) as (Hw & _ & _ & _ & Hk & _).
  split; [exact Hw|]. apply Hk. reflexivity.
Defined.

(** ** When the filters raise *)

Lemma select_all_fails l df :
  select_all l df = None <-> exists n v, In (n, v) l /\ get df n = None.
Proof.
  rewrite select_all_is_and. unfold filter_by_all.
  assert (E : combined_mask l df = None <->
              exists n v, In (n, v) l /\ get df n = None).
  { induction l as [|[n v] l IH]; simpl.
    - split; [discriminate|]. intros (n & v & [] & _).
    - unfold criterion_mask. cbn [fst snd].
      destruct (get df n) as [c|] eqn:Ec; cbn [bind].
      + destruct (combined_mask l df) as [m|]; cbn [bind].
        * split; [discriminate|]. intros (n' & v' & [[= <- <-]|Hin] & Hg).
          -- congruence.
          -- assert (Hnone : Some m = None) by (apply (proj2 IH); eauto).
             discriminate.
        * split; [|reflexivity]. intros _.
          destruct (proj1 IH eq_refl) as (n' & v' & Hin & Hg). eauto.
      + split; [|reflexivity]. intros _. exists n, v. auto. }
  rewrite <- E. destruct (combined_mask l df); simpl; split; congruence.
Qed.

Lemma load_data_has_derived raw df n :
  load_data raw = Some df ->
  In n ["week_name"; "weekday"; "hourofday"; "payment_type_name"]%string ->
  get df n <> None.
Proof.
  intros H Hin.
  destruct (load_data_payment raw df H) as (pt & _ & Hname).
  unfold load_data in H.
  destruct (derive_columns raw) as [d|] eqn:Ed; cbn [bind] in H; [|discriminate].
  destruct (derive_columns_inv _ _ Ed)
    as (a & b & _ & _ & _ & Hw & Hh & _ & _ & Hk).
  simpl in Hin. destruct Hin as [<-|[<-|[<-|[<-|[]]]]].
  - rewrite (get_name_columns _ _ "week_name" H eq_refl eq_refl), get_fill_missing, Hk.
    discriminate.
  - rewrite (get_name_columns _ _ "weekday" H eq_refl eq_refl), get_fill_missing, Hw.
    discriminate.
  - rewrite (get_name_columns _ _ "hourofday" H eq_refl eq_refl), get_fill_missing, Hh.
    discriminate.
  - rewrite Hname. discriminate.
Qed.

(** X11. On a loaded frame the sidebar chain can raise for one reason only,
    a file without a [passenger_count] column, whatever is selected; the
    filters of the tests tab never raise. *)
Theorem filters_fail_iff raw df :
  load_data raw = Some df ->
  (forall s, apply_filters df s = None <-> get raw "passenger_count" = None) /\
  (forall w p k, test_filters df w p k <> None).
Proof.
  intros H.
  assert (Hpc : get df "passenger_count" = None <-> get raw "passenger_count" = None).
  { rewrite (load_data_get_other raw df "passenger_count" H) by reflexivity.
    destruct (get raw "passenger_count"); simpl; split; congruence. }
  split.
  - intros s. rewrite apply_filters_chain, select_all_fails, <- Hpc. split.
    + intros (n & v & Hin & Hg). unfold criteria in Hin.
      rewrite !in_app_iff in Hin.
      destruct Hin as [Hin|[Hin|[Hin|Hin]]].
      * destruct (String.eqb (selected_week s) "All Weeks"); [contradiction|].
        destruct Hin as [[= <- _]|[]]. exfalso.
        apply (load_data_has_derived raw df "week_name" H); simpl; tauto.
      * destruct Hin as [[= <- _]|[[= <- _]|[[= <- _]|[]]]]; auto; exfalso.
        -- apply (load_data_has_derived raw df "weekday" H); simpl; tauto.
        -- apply (load_data_has_derived raw df "payment_type_name" H); simpl; tauto.
      * destruct (has_column df "trip_type_name") eqn:Eh; [|contradiction].
        destruct Hin as [[= <- _]|[]]. apply has_column_get in Eh. contradiction.
      * destruct Hin as [[= <- _]|[]]. exfalso.
        apply (load_data_has_derived raw df "hourofday" H); simpl; tauto.
    + intros Hg. exists "passenger_count"%string, (SNum (selected_passenger s)).
      split; [|exact Hg]. unfold criteria. rewrite !in_app_iff. simpl. tauto.
  - intros w p k. rewrite test_filters_chain. intros Hn.
    apply select_all_fails in Hn. destruct Hn as (n & v & Hin & Hg).
    unfold test_criteria in Hin. rewrite !in_app_iff in Hin.
    destruct Hin as [Hin|[Hin|Hin]].
    + destruct (String.eqb w "All"); [contradiction|].
      destruct Hin as [[= <- _]|[]].
      apply (load_data_has_derived raw df "weekday" H); simpl; tauto.
    + destruct (String.eqb p "All"); [contradiction|].
      destruct Hin as [[= <- _]|[]].
      apply (load_data_has_derived raw df "payment_type_name" H); simpl; tauto.
    + destruct (String.eqb k "All"); [contradiction|].
      destruct Hin as [[= <- _]|[]].
      apply (load_data_has_derived raw df "week_name" H); simpl; tauto.
Qed.

Lemma filters_fail_iff_witness :
  apply_filters demo_df
    (mkSelection "All Weeks" "Monday" "Cash" 9 "Dispatch" 23) <> None /\
  test_filters demo_df "Sunday" "No Charge" "5th Week" <> None.
Proof.
  destruct (filters_fail_iff demo_raw demo_df eq_refl) as (Hs & Ht).
  split; [|apply Ht].
  intros Hn. apply (proj1 (Hs _)) in Hn. discriminate.
Defined.

(** ** The weekday chart of the main view *)

Lemma lookup_reindex_weekday {A : Type} (s : list (scalar * A)) d :
  In d weekday_order ->
  lookup d (reindex weekday_order s) = Some (lookup d s).
Proof.
  intros Hd. simpl in Hd.
  repeat (destruct Hd as [<-|Hd]; [reflexivity|]). contradiction.
Qed.

Lemma present_all_match v (xs : list (option scalar)) :
  forallb (cell_eqb v) xs = true ->
  length (present xs) = length xs /\
  forall y, In y (present xs) -> scalar_eqb y v = true.
Proof.
  induction xs as [|[x|] xs IH]; simpl; intros H.
  - split; [reflexivity|]. intros y [].
  - apply andb_prop in H. destruct H as [Hx Hxs].
    destruct (IH Hxs) as [Hl Ha]. split; [now rewrite Hl|].
    intros y [<-|Hy]; auto.
  - discriminate.
Qed.

Lemma count_of_all v d (vs : list scalar) :
  (forall y, In y vs -> scalar_eqb y v = true) ->
  count_of d vs = if scalar_eqb v d then length vs else 0%nat.
Proof.
  intros H. unfold count_of. destruct (scalar_eqb v d) eqn:E.
  - induction vs as [|y vs IH]; simpl; auto.
    assert (Hy : scalar_eqb y v = true) by (apply H; now left).
    rewrite (scalar_eqb_sym d y), (scalar_eqb_congr y v d Hy), E. simpl.
    f_equal. apply IH. intros z Hz. apply H. now right.
  - induction vs as [|y vs IH]; simpl; auto.
    assert (Hy : scalar_eqb y v = true) by (apply H; now left).
    rewrite (scalar_eqb_sym d y), (scalar_eqb_congr y v d Hy), E.
    apply IH. intros z Hz. apply H. now right.
Qed.

Lemma scalar_eqb_str a d : scalar_eqb (SStr a) d = true <-> d = SStr a.
Proof.
  destruct d as [q|b|t]; simpl; split; try discriminate.
  - intros H. apply String.eqb_eq in H. now subst.
  - intros [= ->]. apply String.eqb_refl.
Qed.

(** X12. In the main view the weekday chart has at most one bar: the
    weekdays other than the selected one always carry NaN, and the selected
    weekday carries the number of trips of the view, or NaN when the view is
    empty. *)
Theorem main_view_weekday_counts df s view :
  wf_frame df = true ->
  apply_filters df s = Some view ->
  exists counts,
    weekday_counts view = Some counts /\
    (forall d, In d weekday_order -> d <> SStr (selected_weekday s) ->
               lookup d counts = Some None) /\
    (In (SStr (selected_weekday s)) weekday_order ->
     lookup (SStr (selected_weekday s)) counts
     = Some (if Nat.eqb (len view) 0 then None else Some (len view))).
Proof.
  intros Hwf H.
  pose proof (apply_filters_wf df s view Hwf H) as Hwfv.
  rewrite apply_filters_chain in H.
  assert (Hm : all_match view "weekday" (SStr (selected_weekday s)) = true).
  { apply (select_all_sound _ df view _ _ H). unfold criteria.
    rewrite !in_app_iff. simpl. tauto. }
  unfold all_match in Hm. unfold weekday_counts.
  destruct (get view "weekday") as [c|] eqn:Ec; [|discriminate]. cbn [bind].
  eexists. split; [reflexivity|].
  destruct (present_all_match _ _ Hm) as [Hlen Hall].
  assert (Hn : length (present (cells c)) = len view).
  { rewrite Hlen, cells_length. exact (wf_frame_get _ _ _ Hwfv Ec). }
  split.
  - intros d Hd Hne. rewrite lookup_reindex_weekday by exact Hd.
    rewrite lookup_value_counts. cbv zeta.
    rewrite (count_of_all _ d _ Hall).
    destruct (scalar_eqb (SStr (selected_weekday s)) d) eqn:E; [|reflexivity].
    apply scalar_eqb_str in E. contradiction.
  - intros Hd. rewrite lookup_reindex_weekday by exact Hd.
    rewrite lookup_value_counts. cbv zeta.
    rewrite (count_of_all _ _ _ Hall), scalar_eqb_refl, Hn. reflexivity.
Qed.

Lemma main_view_weekday_counts_witness :
  exists view counts,
    apply_filters demo_df
      (mkSelection "All Weeks" "Thursday" "Credit Card" 1 "Street-hail" 10)
    = Some view /\
    weekday_counts view = Some counts /\
    lookup (SStr "Thursday") counts = Some (Some 1%nat) /\
    lookup (SStr "Friday") counts = Some None.
Proof.
  eexists.
  destruct (main_view_weekday_counts demo_df
              (mkSelection "All Weeks" "Thursday" "Credit Card" 1 "Street-hail" 10)
              _ eq_refl eq_refl) as (counts & Hc & Hother & Hsel).
  exists counts. split; [reflexivity|]. split; [exact Hc|]. split.
  - cbn [selected_weekday] in Hsel. rewrite Hsel; [reflexivity|]. simpl. tauto.
  - apply Hother; [simpl; tauto|discriminate].
Defined.

(** * Further properties of the aggregates *)

Lemma sum_nat_insert_sorted {A : Type} (le : A -> A -> bool) (f : A -> nat) a l :
  sum_nat (map f (insert_sorted le a l)) = (f a + sum_nat (map f l))%nat.
Proof.
  induction l as [|b l IH]; simpl; auto.
  destruct (le a b); simpl; auto. rewrite IH. lia.
Qed.

Lemma sum_nat_sort {A : Type} (le : A -> A -> bool) (f : A -> nat) l :
  sum_nat (map f (sort le l)) = sum_nat (map f l).
Proof.
  induction l as [|a l IH]; simpl; auto.
  now rewrite sum_nat_insert_sorted, IH.
Qed.

Lemma existsb_eqb_flip v l :
  existsb (scalar_eqb v) l = existsb (fun u => scalar_eqb u v) l.
Proof.
  induction l as [|a l IH]; simpl; auto. now rewrite IH, scalar_eqb_sym.
Qed.

Lemma distinct_dedup l : distinct_keys (dedup scalar_eqb l) = true.
Proof.
  induction l as [|a l IH]; [reflexivity|]. rewrite dedup_cons.
  destruct (existsb (scalar_eqb a) (dedup scalar_eqb l)) eqn:E; auto.
  simpl. now rewrite E, IH.
Qed.

Lemma filter_length_or {B : Type} (p q : B -> bool) (ws : list B) :
  (forall w, p w = true -> q w = false) ->
  length (filter (fun w => p w || q w) ws)
  = (length (filter p ws) + length (filter q ws))%nat.
Proof.
  intros H. induction ws as [|w ws IH]; simpl; auto.
  destruct (p w) eqn:Ep; simpl.
  - rewrite (H w Ep). simpl. now rewrite IH.
  - destruct (q w); simpl; rewrite IH; lia.
Qed.

(** Distinct keys split the rows into disjoint classes. *)
Lemma partition_count {B : Type} (key : B -> scalar) ks (ws : list B) :
  distinct_keys ks = true ->
  sum_nat (map (fun k => length (filter (fun w => scalar_eqb k (key w)) ws)) ks)
  = length (filter (fun w => existsb (fun k => scalar_eqb k (key w)) ks) ws).
Proof.
  induction ks as [|a ks IH]; simpl; intros Hd.
  - induction ws; simpl; auto.
  - apply andb_prop in Hd. destruct Hd as [Ha Hks].
    rewrite IH by exact Hks.
    rewrite (filter_length_or (fun w => scalar_eqb a (key w))
               (fun w => existsb (fun k => scalar_eqb k (key w)) ks)); auto.
    intros w Hw. apply not_true_iff_false. intros Hex.
    apply existsb_exists in Hex. destruct Hex as (k & Hk & Hkw).
    apply negb_true_iff in Ha.
    assert (Hak : existsb (scalar_eqb a) ks = true).
    { apply existsb_exists. exists k. split; auto.
      apply scalar_eqb_trans with (key w); auto. now rewrite scalar_eqb_sym. }
    congruence.
Qed.

Lemma filter_all {B : Type} (p : B -> bool) (ws : list B) :
  (forall w, In w ws -> p w = true) -> filter p ws = ws.
Proof.
  induction ws as [|w ws IH]; simpl; intros H; auto.
  rewrite (H w) by now left. f_equal. apply IH. intros x Hx. apply H. now right.
Qed.

(** The counts of [value_counts] add up to the number of present cells. *)
Lemma value_counts_total c :
  sum_nat (map snd (value_counts c)) = length (present (cells c)).
Proof.
  unfold value_counts. cbv zeta. set (vs := present (cells c)).
  rewrite map_map. cbn [snd]. unfold count_of.
  pose proof (partition_count (fun w : scalar => w) (dedup scalar_eqb vs) vs
                (distinct_dedup vs)) as P.
  cbv beta in P.
  transitivity (length (filter (fun w => existsb (fun k => scalar_eqb k w)
                                                 (dedup scalar_eqb vs)) vs)).
  { rewrite <- P. f_equal. }
  f_equal. apply filter_all. intros w Hw. rewrite existsb_dedup.
  apply existsb_exists. exists w. split; auto. apply scalar_eqb_refl.
Qed.

Lemma scalar_leb_total a b : scalar_leb a b = false -> scalar_leb b a = true.
Proof.
  destruct a as [x|x|x], b as [y|y|y]; simpl; try discriminate; auto.
  - intros H. apply Qle_bool_iff. apply not_true_iff_false in H.
    rewrite Qle_bool_iff in H. destruct (Qlt_le_dec y x) as [Hlt|Hle].
    + now apply Qlt_le_weak.
    + contradiction.
  - intros H. destruct (String.leb_total x y) as [E|E]; congruence.
  - intros H. apply Z.leb_gt in H. apply Z.leb_le. lia.
Qed.

Lemma In_value_counts c k n :
  In (k, n) (value_counts c) ->
  n = count_of k (present (cells c)) /\ (0 < n)%nat /\ In (Some k) (cells c).
Proof.
  unfold value_counts. cbv zeta. intros H. apply in_map_iff in H.
  destruct H as (v & [= <- <-] & Hv). apply In_dedup in Hv.
  split; [reflexivity|]. split; [|now apply In_present].
  destruct (count_of v (present (cells c))) eqn:E; [|lia].
  apply count_of_zero in E. apply not_true_iff_false in E. exfalso. apply E.
  apply existsb_exists. exists v. split; auto. apply scalar_eqb_refl.
Qed.

Lemma value_counts_covers c v :
  In (Some v) (cells c) ->
  exists k, scalar_eqb k v = true /\
            In (k, count_of v (present (cells c))) (value_counts c).
Proof.
  intros Hv. apply In_present in Hv.
  assert (E : existsb (fun u => scalar_eqb u v)
                      (dedup scalar_eqb (present (cells c))) = true).
  { rewrite existsb_dedup. apply existsb_exists. exists v. split; auto.
    apply scalar_eqb_refl. }
  apply existsb_exists in E. destruct E as (k & Hk & Hkv).
  exists k. split; auto. unfold value_counts. cbv zeta. apply in_map_iff.
  exists k. split; auto. f_equal. now apply count_of_congr.
Qed.

Lemma sorted_value_counts c :
  let sc := sort_index (value_counts c) in
  sorted_by key_leb sc = true /\
  sum_nat (map snd sc) = length (present (cells c)) /\
  (forall k n, In (k, n) sc ->
     n = count_of k (present (cells c)) /\ (0 < n)%nat /\ In (Some k) (cells c)) /\
  (forall v, In (Some v) (cells c) ->
     exists k, scalar_eqb k v = true /\
               In (k, count_of v (present (cells c))) sc).
Proof.
  cbv zeta. unfold sort_index. split; [|split; [|split]].
  - apply sort_sorted. intros x y. apply scalar_leb_total.
  - now rewrite sum_nat_sort, value_counts_total.
  - intros k n H. apply In_sort in H. now apply In_value_counts.
  - intros v Hv. destruct (value_counts_covers c v Hv) as (k & Hk & Hin).
    exists k. split; auto. now apply In_sort.
Qed.

(** X13. The counts per hour and per week label list one entry for each
    value that occurs in the view, in ascending order of the value; every
    entry is the positive number of rows with that value, and the entries
    add up to the number of rows whose value is not missing.  A value that
    does not occur has no entry (these two charts are not reindexed). *)
Theorem counts_in_key_order df name counts :
  (name = "hourofday"%string /\ hour_counts df = Some counts) \/
  (name = "week_name"%string /\ week_counts df = Some counts) ->
  exists c,
    get df name = Some c /\
    sorted_by key_leb counts = true /\
    sum_nat (map snd counts) = length (present (cells c)) /\
    (forall k n, In (k, n) counts ->
       n = count_of k (present (cells c)) /\ (0 < n)%nat /\
       In (Some k) (cells c)) /\
    (forall v, In (Some v) (cells c) ->
       exists k, scalar_eqb k v = true /\
                 In (k, count_of v (present (cells c))) counts).
Proof.
  unfold hour_counts, week_counts.
  intros [[-> H]|[-> H]];
    (destruct (get df _) as [c|]; cbn [bind] in H; [|discriminate]);
    injection H as <-; exists c; split; try reflexivity;
    apply (sorted_value_counts c).
Qed.

Lemma counts_in_key_order_witness :
  hour_counts demo_df
  = Some [(SNum 0, 1%nat); (SNum 1, 1%nat); (SNum 9, 1%nat); (SNum 10, 1%nat);
          (SNum 11, 1%nat)] /\
  exists c, get demo_df "week_name" = Some c /\
            option_map (fun counts => sum_nat (map snd counts)) (week_counts demo_df)
            = Some (length (present (cells c))).
Proof.
  split; [reflexivity|].
  destruct (week_counts demo_df) as [counts|] eqn:E; [|discriminate].
  destruct (counts_in_key_order demo_df "week_name" counts (or_intror (conj eq_refl E)))
    as (c & Hc & _ & Hsum & _).
  exists c. split; [exact Hc|]. simpl. now rewrite Hsum.
Defined.

(** ** Mean amount per weekday and per week *)

Lemma existsb_insert_sorted {A : Type} (le : A -> A -> bool) (p : A -> bool) a l :
  existsb p (insert_sorted le a l) = p a || existsb p l.
Proof.
  induction l as [|b l IH]; simpl; auto.
  destruct (le a b); simpl; auto. rewrite IH.
  destruct (p a), (p b); reflexivity.
Qed.

Lemma existsb_sort {A : Type} (le : A -> A -> bool) (p : A -> bool) l :
  existsb p (sort le l) = existsb p l.
Proof.
  induction l as [|a l IH]; simpl; auto.
  now rewrite existsb_insert_sorted, IH.
Qed.

Lemma mask_eq_congr c k d : scalar_eqb k d = true -> mask_eq c k = mask_eq c d.
Proof.
  intros H. unfold mask_eq. apply map_ext. intros [y|]; simpl; auto.
  rewrite (scalar_eqb_sym y k), (scalar_eqb_sym y d).
  now apply scalar_eqb_congr.
Qed.

Lemma select_mask_all_false {A : Type} m (xs : list A) :
  (forall b, In b m -> b = false) -> select_mask m xs = [].
Proof.
  revert xs. induction m as [|b m IH]; intros [|x xs] H; simpl; auto.
  rewrite (H b) by now left. apply IH. intros y Hy. apply H. now right.
Qed.

Lemma mask_eq_absent c d :
  existsb (fun u => scalar_eqb u d) (present (cells c)) = false ->
  forall b, In b (mask_eq c d) -> b = false.
Proof.
  intros H b Hb. unfold mask_eq in Hb. apply in_map_iff in Hb.
  destruct Hb as ([y|] & <- & Hy); simpl; auto.
  apply not_true_iff_false. intros E. apply not_true_iff_false in H. apply H.
  apply existsb_exists. exists y. split; auto. now apply In_present.
Qed.

Lemma series_mean_numeric xs :
  series_mean (NumCol xs)
  = Some (match present xs with
          | [] => None
          | vs => Some (Qsum vs / inject_Z (Z.of_nat (length vs)))%Q
          end).
Proof. unfold series_mean. now destruct (present xs). Qed.

Lemma group_means_numeric df name c xs :
  get df name = Some c ->
  get df "total_amount" = Some (NumCol xs) ->
  group_means df name
  = Some (map (fun k => (k, mean_where c k xs)) (group_keys c)).
Proof.
  intros Hc Ha. unfold group_means. rewrite Hc, Ha. cbn [bind].
  induction (group_keys c) as [|k ks IH]; [reflexivity|].
  cbn [mapM map].
  change (col_select (mask_eq c k) (NumCol xs))
    with (NumCol (select_mask (mask_eq c k) xs)).
  rewrite series_mean_numeric. cbn [bind]. rewrite IH. reflexivity.
Qed.

Lemma lookup_group_means c xs d :
  match lookup d (map (fun k => (k, mean_where c k xs)) (group_keys c)) with
  | Some m => m
  | None => None
  end = mean_where c d xs.
Proof.
  unfold lookup. rewrite find_map_pair.
  destruct (find (fun u => scalar_eqb u d) (group_keys c)) as [k|] eqn:E; simpl.
  - apply find_some in E. destruct E as [_ Hk].
    unfold mean_where. now rewrite (mask_eq_congr c k d Hk).
  - apply find_none_existsb in E. unfold group_keys in E.
    rewrite existsb_sort, existsb_dedup in E.
    unfold mean_where.
    now rewrite (select_mask_all_false _ xs (mask_eq_absent c d E)).
Qed.

(** X14. The mean amount per weekday lists the seven weekdays in the order
    Monday to Sunday, and the mean amount per week the five week labels in
    order; each label carries the mean total amount of the rows of the view
    with that label, and NaN when the view has no such row. *)
Theorem avg_amount_spec df xs :
  get df "total_amount" = Some (NumCol xs) ->
  (forall c, get df "weekday" = Some c ->
     exists means,
       avg_amount df = Some means /\
       map fst means = weekday_order /\
       forall d, In d weekday_order -> lookup d means = Some (mean_where c d xs)) /\
  (forall c, get df "week_name" = Some c ->
     exists means,
       avg_amount_by_week df = Some means /\
       map fst means = week_order /\
       forall d, In d week_order -> lookup d means = Some (mean_where c d xs)).
Proof.
  intros Ha. split; intros c Hc.
  - unfold avg_amount. rewrite (group_means_numeric df _ c xs Hc Ha). cbn [bind].
    eexists. split; [reflexivity|]. split.
    + unfold reindex_float. rewrite map_map. cbn [fst]. apply map_id.
    + intros d Hd. rewrite <- (lookup_group_means c xs d).
      simpl in Hd. repeat (destruct Hd as [<-|Hd]; [reflexivity|]). contradiction.
  - unfold avg_amount_by_week. rewrite (group_means_numeric df _ c xs Hc Ha).
    cbn [bind]. eexists. split; [reflexivity|]. split.
    + unfold reindex_float. rewrite map_map. cbn [fst]. apply map_id.
    + intros d Hd. rewrite <- (lookup_group_means c xs d).
      simpl in Hd. repeat (destruct Hd as [<-|Hd]; [reflexivity|]). contradiction.
Qed.

Lemma avg_amount_spec_witness :
  exists means,
    avg_amount demo_df = Some means /\
    (exists m, lookup (SStr "Thursday") means = Some (Some m) /\ (m == 20 # 1)%Q) /\
    lookup (SStr "Monday") means = Some None.
Proof.
  destruct (avg_amount_spec demo_df _ eq_refl) as (Hw & _).
  destruct (Hw _ eq_refl) as (means & Hm & _ & Hl).
  exists means. split; [exact Hm|]. split.
  - rewrite Hl by (simpl; tauto). eexists. split; [reflexivity|]. reflexivity.
  - rewrite Hl; [reflexivity|]. simpl. tauto.
Defined.

(** ** The sample keeps whole rows *)

Lemma mapM_nth_error {A B : Type} (f : A -> option B) l bs i :
  mapM f l = Some bs ->
  nth_error bs i = match nth_error l i with
                   | Some a => f a
                   | None => None
                   end.
Proof.
  revert bs i. induction l as [|a l IH]; intros bs i H; simpl in H.
  - injection H as <-. now destruct i.
  - destruct (f a) as [b|] eqn:Eb; cbn [bind] in H; [|discriminate].
    destruct (mapM f l) as [bs'|] eqn:E; cbn [bind] in H; [|discriminate].
    injection H as <-. destruct i as [|i]; simpl; auto.
Qed.

Lemma mapM_length {A B : Type} (f : A -> option B) l bs :
  mapM f l = Some bs -> length bs = length l.
Proof.
  revert bs. induction l as [|a l IH]; intros bs H; simpl in H.
  - now injection H as <-.
  - destruct (f a) as [b|]; cbn [bind] in H; [|discriminate].
    destruct (mapM f l) as [bs'|] eqn:E; cbn [bind] in H; [|discriminate].
    injection H as <-. simpl. f_equal. now apply IH.
Qed.

Lemma pick_map {A B : Type} (g : A -> B) positions (xs : list A) :
  pick positions (map g xs) = option_map (map g) (pick positions xs).
Proof.
  unfold pick. induction positions as [|p ps IH]; simpl; auto.
  rewrite nth_error_map. destruct (nth_error xs p); simpl; auto.
  rewrite IH. now destruct (mapM (nth_error xs) ps).
Qed.

Lemma cells_col_pick positions c c' :
  col_pick positions c = Some c' ->
  pick positions (cells c) = Some (cells c').
Proof.
  destruct c as [xs|xs|xs]; simpl; rewrite pick_map;
    destruct (pick positions xs); simpl; intros [= <-]; reflexivity.
Qed.

Lemma assoc_mapM_cols (f : column -> option column) l l' n :
  mapM (fun nc => c <- f (snd nc) ;; Some (fst nc, c)) l = Some l' ->
  assoc n l' = match assoc n l with
               | Some c => f c
               | None => None
               end.
Proof.
  revert l'. induction l as [|[m c] l IH]; intros l' H; simpl in H.
  - now injection H as <-.
  - destruct (f c) as [c'|] eqn:Ec; cbn [bind] in H; [|discriminate].
    destruct (mapM _ l) as [r|] eqn:E; cbn [bind] in H; [|discriminate].
    injection H as <-. simpl. destruct (String.eqb m n); auto.
Qed.

Lemma assoc_mapM_cols_some (f : column -> option column) l l' n c :
  mapM (fun nc => c <- f (snd nc) ;; Some (fst nc, c)) l = Some l' ->
  assoc n l = Some c -> f c <> None.
Proof.
  revert l'. induction l as [|[m b] l IH]; intros l' H Ha; simpl in *;
    [discriminate|].
  destruct (f b) as [b'|] eqn:Eb; cbn [bind] in H; [|discriminate].
  destruct (mapM _ l) as [r|] eqn:E; cbn [bind] in H; [|discriminate].
  destruct (String.eqb m n).
  - injection Ha as <-. congruence.
  - now apply (IH r).
Qed.

(** A row of [df.iloc[positions]] is the row of [df] at that position, in
    every column. *)
Lemma iloc_rows positions df s :
  iloc positions df = Some s ->
  length (index s) = length positions /\
  (forall i p, nth_error positions i = Some p ->
     nth_error (index s) i = nth_error (index df) p /\
     forall name, cell_at s name i = cell_at df name p).
Proof.
  unfold iloc. intros H.
  destruct (pick positions (index df)) as [labels|] eqn:El; cbn [bind] in H;
    [|discriminate].
  destruct (mapM _ (cols df)) as [cs|] eqn:Ec; cbn [bind] in H; [|discriminate].
  injection H as <-. cbn [index]. split; [exact (mapM_length _ _ _ El)|].
  intros i p Hp. split.
  - rewrite (mapM_nth_error _ _ _ i El), Hp. reflexivity.
  - intros name. unfold cell_at, get. cbn [cols].
    rewrite (assoc_mapM_cols _ _ _ name Ec).
    destruct (assoc name (cols df)) as [c|] eqn:Ea; cbn [bind]; auto.
    pose proof (assoc_mapM_cols_some _ _ _ name c Ec Ea) as Hsome.
    destruct (col_pick positions c) as [c'|] eqn:Ec'; [|congruence]. cbn [bind].
    apply cells_col_pick in Ec'.
    rewrite (mapM_nth_error _ _ _ i Ec'), Hp. reflexivity.
Qed.

(** X15. The scatter-plot sample is made of whole rows of the view: it is
    the view at [min(1000, len)] distinct row positions, so every sampled
    row carries the label and the cells of one row of the view and no row
    is taken twice; a view of at most 1000 rows is sampled in full, in a
    shuffled order. *)
Theorem sample_df_rows entropy df s :
  sample_df entropy df = Some s ->
  exists positions,
    NoDup positions /\
    length positions = Nat.min 1000 (len df) /\
    (forall p, In p positions -> (p < len df)%nat) /\
    len s = length positions /\
    (forall i p, nth_error positions i = Some p ->
       nth_error (index s) i = nth_error (index df) p /\
       forall name, cell_at s name i = cell_at df name p) /\
    ((len df <= 1000)%nat -> Permutation positions (seq 0 (len df))).
Proof.
  unfold sample_df, sample. intros H.
  destruct (choice entropy (sample_size df) (len df)) as [positions|] eqn:Ec;
    cbn [bind] in H; [|discriminate].
  destruct (choice_distinct _ _ _ _ Ec) as (Hnd & Hlen & Hlt).
  destruct (iloc_rows _ _ _ H) as (Hl & Hrows).
  exists positions. split; [exact Hnd|]. split; [exact Hlen|].
  split; [exact Hlt|]. split; [exact Hl|]. split; [exact Hrows|].
  intros Hsmall. apply NoDup_Permutation_bis; auto.
  - rewrite length_seq, Hlen. unfold sample_size. lia.
  - intros p Hp. apply in_seq. specialize (Hlt p Hp). lia.
Qed.

Lemma sample_df_rows_witness :
  exists s positions,
    sample_df [3; 1; 4; 1; 5]%nat demo_df = Some s /\
    Permutation positions [0; 1; 2; 3; 4]%nat /\
    len s = 5%nat.
Proof.
  destruct (sample_df [3; 1; 4; 1; 5]%nat demo_df) as [s|] eqn:E;
    [|vm_compute in E; discriminate].
  destruct (sample_df_rows _ _ _ E) as (positions & _ & Hlen & _ & Hs & _ & Hperm).
  exists s, positions. split; [reflexivity|]. split.
  - apply Hperm. vm_compute. repeat constructor.
  - rewrite Hs, Hlen. reflexivity.
Defined.

(** ** The raw data preview *)

Lemma cells_col_head n c : cells (col_head n c) = firstn n (cells c).
Proof. destruct c; simpl; now rewrite firstn_map. Qed.

Lemma get_head n df name :
  get (head n df) name = option_map (col_head n) (get df name).
Proof. apply assoc_map_cols. Qed.

Lemma nth_error_firstn_lt {A : Type} n (l : list A) i :
  (i < n)%nat -> nth_error (firstn n l) i = nth_error l i.
Proof.
  revert l i. induction n as [|n IH]; intros l i H; [lia|].
  destruct l as [|a l]; [now destruct i|]. destruct i as [|i]; simpl; auto.
  apply IH. lia.
Qed.

Lemma head_all n df :
  wf_frame df = true -> (len df <= n)%nat -> head n df = df.
Proof.
  intros Hwf Hle. unfold wf_frame in Hwf. rewrite forallb_forall in Hwf.
  unfold head. destruct df as [idx cs]. unfold len in *. cbn [index cols] in *.
  f_equal.
  - apply firstn_all2. exact Hle.
  - rewrite <- (map_id cs) at 2. apply map_ext_in. intros [m c] Hin.
    cbn [fst snd]. f_equal. specialize (Hwf _ Hin). apply Nat.eqb_eq in Hwf.
    cbn [snd] in Hwf.
    destruct c as [xs|xs|xs]; cbn [col_head col_len] in *; f_equal;
      apply firstn_all2; lia.
Qed.

(** X16. The raw data preview is the first [min(100, len)] rows of the
    view, in order and with every column: a row below position 100 is shown
    as it is, no row from position 100 on is shown, and a view of at most
    100 rows is shown whole. *)
Theorem raw_data_preview_spec df :
  len (raw_data_preview df) = Nat.min 100 (len df) /\
  index (raw_data_preview df) = firstn 100 (index df) /\
  (forall name, has_column (raw_data_preview df) name = has_column df name) /\
  (forall name i, (i < 100)%nat ->
     cell_at (raw_data_preview df) name i = cell_at df name i) /\
  (forall i, (100 <= i)%nat -> nth_error (index (raw_data_preview df)) i = None) /\
  (wf_frame df = true -> wf_frame (raw_data_preview df) = true) /\
  (wf_frame df = true -> (len df <= 100)%nat -> raw_data_preview df = df).
Proof.
  unfold raw_data_preview.
  split; [unfold len, head; cbn [index]; apply length_firstn|].
  split; [reflexivity|]. split; [|split; [|split; [|split]]].
  - intros name. apply eq_true_iff_eq. rewrite !has_column_get, get_head.
    destruct (get df name); simpl; split; congruence.
  - intros name i Hi. unfold cell_at. rewrite get_head.
    destruct (get df name) as [c|]; simpl; auto.
    rewrite cells_col_head. now apply nth_error_firstn_lt.
  - intros i Hi. apply nth_error_None. cbn [head index].
    rewrite length_firstn. lia.
  - unfold wf_frame, head, len. cbn [index cols]. rewrite !forallb_forall.
    intros H nc Hin. apply in_map_iff in Hin. destruct Hin as ([n c] & <- & Hin).
    cbn [snd]. apply Nat.eqb_eq. specialize (H _ Hin). apply Nat.eqb_eq in H.
    cbn [snd] in H. rewrite <- cells_length, cells_col_head, !length_firstn.
    now rewrite cells_length, H.
  - apply head_all.
Qed.

Lemma raw_data_preview_spec_witness :
  raw_data_preview demo_df = demo_df /\
  cell_at (raw_data_preview demo_df) "weekday" 4 = cell_at demo_df "weekday" 4.
Proof.
  destruct (raw_data_preview_spec demo_df) as (_ & _ & _ & Hc & _ & _ & Hall).
  split.
  - apply Hall; [reflexivity|]. vm_compute. repeat constructor.
  - apply Hc. repeat constructor.
Defined.

(** * Further properties of the statistical tests *)

Lemma distinct_insert_sorted le a l :
  distinct_keys (insert_sorted le a l)
  = negb (existsb (scalar_eqb a) l) && distinct_keys l.
Proof.
  induction l as [|b l IH]; [reflexivity|].
  cbn [insert_sorted]. destruct (le a b); [reflexivity|].
  cbn [distinct_keys existsb]. rewrite IH, existsb_insert_sorted.
  rewrite (scalar_eqb_sym b a).
  destruct (scalar_eqb a b), (existsb (scalar_eqb b) l),
    (existsb (scalar_eqb a) l), (distinct_keys l); reflexivity.
Qed.

Lemma distinct_sort le l : distinct_keys (sort le l) = distinct_keys l.
Proof.
  induction l as [|a l IH]; [reflexivity|].
  simpl. now rewrite distinct_insert_sorted, existsb_sort, IH.
Qed.

(** The keys of [groupby] are the different values of the key column: no
    two of them are equal, each occurs, and each value that occurs equals
    one of them. *)
Lemma group_keys_spec c :
  distinct_keys (group_keys c) = true /\
  (forall k, In k (group_keys c) -> In (Some k) (cells c)) /\
  (forall v, In (Some v) (cells c) ->
             existsb (fun k => scalar_eqb k v) (group_keys c) = true).
Proof.
  unfold group_keys. split; [|split].
  - rewrite distinct_sort. apply distinct_dedup.
  - apply group_keys_present.
  - intros v Hv. rewrite existsb_sort, existsb_dedup.
    apply existsb_exists. exists v. split; [now apply In_present|].
    apply scalar_eqb_refl.
Qed.

Lemma amount_groups_some df name c amount :
  get df name = Some c ->
  get df "total_amount" = Some amount ->
  amount_groups df name
  = Some (map (fun k => col_select (mask_eq c k) amount) (group_keys c)).
Proof.
  intros Hc Ha. unfold amount_groups, groupby. rewrite Hc. cbn [bind].
  apply mapM_map_some. intros k _. cbn [snd]. now rewrite get_take_rows, Ha.
Qed.

Section MoreTestProperties.

Variable f_oneway : list column -> option Q * option Q.
Variable chi2_contingency :
  list (list nat) -> option Q * option Q * nat * list (list Q).

(** X17. With the amounts present, the ANOVA by weekday and the ANOVA by
    week never raise; each runs the library test on one group of amounts
    per different key value of the frame, exactly when there are two or
    more different values, and otherwise reports how many it found. *)
Theorem anova_by_weekday_and_week df amount :
  wf_frame df = true ->
  get df "total_amount" = Some amount ->
  (forall c, get df "weekday" = Some c ->
     let groups := map (fun k => col_select (mask_eq c k) amount) (group_keys c) in
     let n := length (group_keys c) in
     distinct_keys (group_keys c) = true /\
     ((2 <= n)%nat ->
      anova_weekday f_oneway df
      = Some (Performed (fst (f_oneway groups)) (snd (f_oneway groups))
                        (below_alpha (snd (f_oneway groups))))) /\
     ((n < 2)%nat ->
      anova_weekday f_oneway df
      = Some (CannotPerform
          ("Cannot perform ANOVA test on weekdays - need at least 2 weekdays with data (found "
             ++ show_nat n ++ ")")%string))) /\
  (forall c, get df "week_name" = Some c ->
     let groups := map (fun k => col_select (mask_eq c k) amount) (group_keys c) in
     let n := length (group_keys c) in
     distinct_keys (group_keys c) = true /\
     ((2 <= n)%nat ->
      anova_week f_oneway df
      = Some (Performed (fst (f_oneway groups)) (snd (f_oneway groups))
                        (below_alpha (snd (f_oneway groups))))) /\
     ((n < 2)%nat ->
      anova_week f_oneway df
      = Some (CannotPerform
          ("Cannot perform ANOVA test on weeks - need at least 2 weeks with data (found "
             ++ show_nat n ++ ")")%string))).
Proof.
  intros Hwf Ha. split; intros c Hc groups n.
  - pose proof (amount_groups_some df "weekday" c amount Hc Ha) as Hg.
    fold groups in Hg.
    assert (Hlen : length groups = n) by (unfold groups, n; apply length_map).
    split; [apply group_keys_spec|].
    destruct (anova_weekday_cases f_oneway df groups Hwf Hg) as [[Hn ->]|[Hn ->]];
      rewrite Hlen in *; split; intros Hn'; try lia; reflexivity.
  - pose proof (amount_groups_some df "week_name" c amount Hc Ha) as Hg.
    fold groups in Hg.
    assert (Hlen : length groups = n) by (unfold groups, n; apply length_map).
    split; [apply group_keys_spec|].
    destruct (anova_week_cases f_oneway df groups Hwf Hg) as [[Hn ->]|[Hn ->]];
      rewrite Hlen in *; split; intros Hn'; try lia; reflexivity.
Qed.

End MoreTestProperties.

Lemma anova_by_weekday_and_week_witness :
  (exists statistic p significant,
     anova_weekday f_statistic demo_all = Some (Performed statistic p significant)) /\
  anova_week f_statistic demo_thursday
  = Some (Performed (Some (0 # 1)%Q) None false) /\
  anova_weekday f_statistic demo_thursday
  = Some (CannotPerform
      "Cannot perform ANOVA test on weekdays - need at least 2 weekdays with data (found 1)").
Proof.
  destruct (anova_by_weekday_and_week f_statistic demo_all _ eq_refl eq_refl)
    as (Hday & _).
  destruct (anova_by_weekday_and_week f_statistic demo_thursday _ eq_refl eq_refl)
    as (Hday' & Hweek').
  split; [|split].
  - destruct (Hday _ eq_refl) as (_ & Hrun & _).
    rewrite Hrun; [eauto|]. vm_compute. repeat constructor.
  - destruct (Hweek' _ eq_refl) as (_ & Hrun & _).
    rewrite Hrun; [reflexivity|]. vm_compute. repeat constructor.
  - destruct (Hday' _ eq_refl) as (_ & _ & Hskip).
    rewrite Hskip; [reflexivity|]. vm_compute. repeat constructor.
Defined.

(** ** The contingency table *)

Lemma filter_filter_and {B : Type} (p q : B -> bool) (l : list B) :
  filter q (filter p l) = filter (fun x => p x && q x) l.
Proof.
  induction l as [|x l IH]; simpl; auto.
  destruct (p x); simpl; [destruct (q x); now rewrite IH|exact IH].
Qed.

Lemma keys_cover {B : Type} (key : B -> scalar) (ws : list B) w :
  In w ws ->
  existsb (fun k => scalar_eqb k (key w))
          (sort scalar_leb (dedup scalar_eqb (map key ws))) = true.
Proof.
  intros Hw. rewrite existsb_sort, existsb_dedup. apply existsb_exists.
  exists (key w). split; [now apply in_map|apply scalar_eqb_refl].
Qed.

Lemma keys_distinct {B : Type} (key : B -> scalar) (ws : list B) :
  distinct_keys (sort scalar_leb (dedup scalar_eqb (map key ws))) = true.
Proof. rewrite distinct_sort. apply distinct_dedup. Qed.

Lemma key_has_row {B : Type} (key : B -> scalar) (ws : list B) k :
  In k (sort scalar_leb (dedup scalar_eqb (map key ws))) ->
  (0 < length (filter (fun w => scalar_eqb k (key w)) ws))%nat.
Proof.
  intros Hk. apply In_sort in Hk. apply In_dedup in Hk.
  apply in_map_iff in Hk. destruct Hk as (w & <- & Hw).
  induction ws as [|x ws IH]; [contradiction|]. simpl.
  destruct Hw as [->|Hw].
  - rewrite scalar_eqb_refl. simpl. lia.
  - destruct (scalar_eqb (key w) (key x)); simpl; [lia|auto].
Qed.

(** The rows of one class, split by a second key, add up to the class. *)
Lemma class_total {B : Type} (key : B -> scalar) (p : B -> bool) (ws : list B) :
  sum_nat (map (fun k => length (filter (fun w => p w && scalar_eqb k (key w)) ws))
               (sort scalar_leb (dedup scalar_eqb (map key ws))))
  = length (filter p ws).
Proof.
  set (ks := sort scalar_leb (dedup scalar_eqb (map key ws))).
  transitivity
    (sum_nat (map (fun k => length (filter (fun w => scalar_eqb k (key w))
                                           (filter p ws))) ks)).
  { f_equal. apply map_ext. intros k. now rewrite filter_filter_and. }
  rewrite (partition_count key ks (filter p ws)) by apply keys_distinct.
  f_equal. apply filter_all. intros w Hw. apply filter_In in Hw.
  apply keys_cover. tauto.
Qed.

Lemma nth_map_default {A : Type} (f : A -> nat) l j d :
  (j < length l)%nat -> nth j (map f l) O = f (nth j l d).
Proof.
  intros H. rewrite (nth_indep _ O (f d)) by now rewrite length_map.
  apply map_nth.
Qed.

Lemma map_nth_all {A : Type} (l : list A) d :
  map (fun j => nth j l d) (seq O (length l)) = l.
Proof.
  induction l as [|a l IH]; [reflexivity|].
  cbn [length seq map nth]. f_equal.
  rewrite <- seq_shift, map_map. exact IH.
Qed.

(** X18. The contingency table is rectangular, one row per different trip
    type and one column per different payment label among the rows that
    have both; it counts each such row exactly once, and every row total
    and every column total is positive, so no expected frequency of the
    chi-square test is zero. *)
Theorem crosstab_marginals a b :
  let t := crosstab a b in
  length (counts t) = length (row_labels t) /\
  (forall row, In row (counts t) -> length row = length (col_labels t)) /\
  distinct_keys (row_labels t) = true /\
  distinct_keys (col_labels t) = true /\
  sum_nat (row_totals t) = length (labelled_pairs a b) /\
  sum_nat (col_totals t) = length (labelled_pairs a b) /\
  (forall n, In n (row_totals t) -> (0 < n)%nat) /\
  (forall n, In n (col_totals t) -> (0 < n)%nat).
Proof.
  cbv zeta. unfold crosstab, row_totals, col_totals. cbn [counts row_labels col_labels].
  fold (labelled_pairs a b). set (pairs := labelled_pairs a b).
  set (rows := sort scalar_leb (dedup scalar_eqb (map fst pairs))).
  set (columns := sort scalar_leb (dedup scalar_eqb (map snd pairs))).
  assert (Hrow : forall r,
            sum_nat (map (fun c => length (filter (pair_eqb (r, c)) pairs)) columns)
            = length (filter (fun w => scalar_eqb r (fst w)) pairs)).
  { intros r. apply (class_total snd (fun w => scalar_eqb r (fst w)) pairs). }
  assert (Hcol : forall c,
            sum_nat (map (fun r => length (filter (pair_eqb (r, c)) pairs)) rows)
            = length (filter (fun w => scalar_eqb c (snd w)) pairs)).
  { intros c.
    rewrite <- (class_total fst (fun w => scalar_eqb c (snd w)) pairs).
    fold rows. f_equal. apply map_ext. intros r. f_equal. apply filter_ext.
    intros w. unfold pair_eqb. cbn [fst snd]. apply andb_comm. }
  assert (Hcoltot : forall j, (j < length columns)%nat ->
            sum_nat (map (fun row => nth j row O)
                       (map (fun r => map (fun c => length (filter (pair_eqb (r, c)) pairs))
                                          columns) rows))
            = length (filter (fun w => scalar_eqb (nth j columns (SNum 0)) (snd w)) pairs)).
  { intros j Hj. rewrite map_map. rewrite <- Hcol. f_equal. apply map_ext.
    intros r.
    apply (nth_map_default (fun c => length (filter (pair_eqb (r, c)) pairs))
                           columns j (SNum 0) Hj). }
  split; [apply length_map|]. split.
  { intros row Hin. apply in_map_iff in Hin. destruct Hin as (r & <- & _).
    apply length_map. }
  split; [apply keys_distinct|]. split; [apply keys_distinct|].
  assert (Hcols : map (fun j => sum_nat (map (fun row => nth j row O)
                    (map (fun r => map (fun c => length (filter (pair_eqb (r, c)) pairs))
                                       columns) rows)))
                      (seq O (length columns))
                  = map (fun c => length (filter (fun w => scalar_eqb c (snd w)) pairs))
                        columns).
  { transitivity
      (map (fun c => length (filter (fun w => scalar_eqb c (snd w)) pairs))
           (map (fun j => nth j columns (SNum 0)) (seq O (length columns))));
      [|now rewrite map_nth_all].
    rewrite map_map.
    apply map_ext_in. intros j Hj. apply in_seq in Hj. apply Hcoltot. lia. }
  split.
  { rewrite map_map. erewrite map_ext by (intros r; apply Hrow).
    rewrite (partition_count fst rows pairs) by apply keys_distinct.
    f_equal. apply filter_all. intros w Hw. now apply keys_cover. }
  split.
  { rewrite Hcols.
    rewrite (partition_count snd columns pairs) by apply keys_distinct.
    f_equal. apply filter_all. intros w Hw. now apply keys_cover. }
  split.
  - intros n Hn. rewrite map_map in Hn. apply in_map_iff in Hn.
    destruct Hn as (r & <- & Hr). rewrite Hrow. now apply key_has_row.
  - intros n Hn. rewrite Hcols in Hn. apply in_map_iff in Hn.
    destruct Hn as (c & <- & Hc). now apply key_has_row.
Qed.

Lemma crosstab_marginals_witness :
  exists trip_type payment,
    get demo_all "trip_type_name" = Some trip_type /\
    get demo_all "payment_type_name" = Some payment /\
    counts (crosstab trip_type payment) = [[1; 0]; [1; 2]]%nat /\
    row_totals (crosstab trip_type payment) = [1; 3]%nat /\
    length (labelled_pairs trip_type payment) = 4%nat.
Proof.
  eexists. eexists. split; [reflexivity|]. split; [reflexivity|].
  split; [reflexivity|]. split; [reflexivity|].
  destruct (crosstab_marginals
              (ObjCol [Some "Street-hail"; Some "Street-hail"; Some "Street-hail";
                       Some "Dispatch"; Some "Street-hail"]%string)
              (ObjCol [Some "Credit Card"; Some "Cash"; Some "Credit Card";
                       Some "Cash"; None]%string))
    as (_ & _ & _ & _ & Htot & _).
  rewrite <- Htot. reflexivity.
Defined.

(** ** The tests that need the trip type *)

Lemma get_take_rows_opt m df n :
  get (take_rows_opt m df) n = None <-> get df n = None.
Proof.
  destruct m as [m|]; simpl; [|tauto]. rewrite get_take_rows.
  destruct (get df n); simpl; split; congruence.
Qed.

Lemma select_all_get l df view n :
  select_all l df = Some view -> (get view n = None <-> get df n = None).
Proof.
  rewrite select_all_is_and. unfold filter_by_all.
  destruct (combined_mask l df) as [m|]; cbn [bind]; [|discriminate].
  intros [= <-]. apply get_take_rows_opt.
Qed.

Lemma select_all_has_column l df view n :
  select_all l df = Some view -> has_column view n = has_column df n.
Proof.
  intros H. apply eq_true_iff_eq. rewrite !has_column_get.
  pose proof (select_all_get l df view n H). tauto.
Qed.

Section OptionalTests.

Variable f_oneway : list column -> option Q * option Q.
Variable chi2_contingency :
  list (list nat) -> option Q * option Q * nat * list (list Q).

(** X19. On a frame of the tests tab the trip type ANOVA and the chi-square
    test are skipped, without error, exactly when the file has neither a
    trip type column nor trip type labels; otherwise the chi-square test
    always returns a report, and so does the trip type ANOVA when the file
    has the amounts. *)
Theorem trip_type_tests_are_optional raw df w p k test_df :
  load_data raw = Some df ->
  test_filters df w p k = Some test_df ->
  has_column test_df "trip_type_name"
  = has_column raw "trip_type" || has_column raw "trip_type_name" /\
  (has_column test_df "trip_type_name" = false ->
   anova_trip_type f_oneway test_df = Some None /\
   chi_square chi2_contingency test_df = Some None) /\
  (has_column test_df "trip_type_name" = true ->
   (exists report, chi_square chi2_contingency test_df = Some (Some report)) /\
   (get raw "total_amount" <> None ->
    exists report, anova_trip_type f_oneway test_df = Some (Some report))).
Proof.
  intros Hl Ht. rewrite test_filters_chain in Ht.
  split; [|split].
  - rewrite (select_all_has_column _ _ _ _ Ht).
    now apply load_data_has_trip_type_name.
  - intros Hno. unfold anova_trip_type, chi_square. now rewrite Hno.
  - intros Hyes. unfold anova_trip_type, chi_square. rewrite Hyes.
    pose proof (proj1 (has_column_get _ _) Hyes) as Htt.
    destruct (get test_df "trip_type_name") as [tt|] eqn:Ett; [|congruence].
    split.
    + assert (Hp : get test_df "payment_type_name" <> None).
      { intros Hn. apply (select_all_get _ _ _ _ Ht) in Hn.
        destruct (load_data_payment raw df Hl) as (pt & _ & Hname). congruence. }
      destruct (get test_df "payment_type_name") as [pay|]; [|congruence].
      cbn [bind]. destruct (chi2_guard (crosstab tt pay)); [|eauto].
      destruct (chi2_contingency _) as [[[chi2 pv] dof] expected]. eauto.
    + intros Hraw.
      assert (Ha : get test_df "total_amount" <> None).
      { intros Hn. apply (select_all_get _ _ _ _ Ht) in Hn.
        rewrite (load_data_get_other raw df "total_amount" Hl) in Hn by reflexivity.
        destruct (get raw "total_amount"); [discriminate|congruence]. }
      destruct (get test_df "total_amount") as [amount|] eqn:Ea; [|congruence].
      rewrite (amount_groups_some test_df "trip_type_name" tt amount Ett Ea).
      cbn [bind]. eauto.
Qed.

End OptionalTests.

Lemma trip_type_tests_are_optional_witness :
  (exists report, chi_square pearson demo_thursday = Some (Some report)) /\
  option_map (fun df => (anova_trip_type f_statistic df, chi_square pearson df))
             (load_data (drop_columns ["trip_type"%string] demo_raw))
  = Some (Some None, Some None).
Proof.
  split.
  - destruct (trip_type_tests_are_optional f_statistic pearson demo_raw demo_df
                "Thursday" "All" "All" demo_thursday eq_refl eq_refl)
      as (Hhas & _ & Hyes).
    apply Hyes. rewrite Hhas. reflexivity.
  - destruct (load_data (drop_columns ["trip_type"%string] demo_raw))
      as [df|] eqn:Hdf; [|vm_compute in Hdf; discriminate].
    destruct (trip_type_tests_are_optional f_statistic pearson _ df
                "All" "All" "All" df Hdf eq_refl)
      as (Hhas & Hno & _).
    destruct Hno as [Ha Hc]; [rewrite Hhas; reflexivity|].
    simpl. now rewrite Ha, Hc.
Defined.

(** * Further properties of the main view *)

Lemma dedup_constant v vs :
  (forall y, In y vs -> y = v) -> vs <> [] -> dedup scalar_eqb vs = [v].
Proof.
  induction vs as [|a vs IH]; intros H Hne; [congruence|].
  rewrite dedup_cons. assert (a = v) as -> by (apply H; now left).
  destruct vs as [|b vs]; [reflexivity|].
  rewrite IH; [|intros y Hy; apply H; now right|discriminate].
  simpl. now rewrite scalar_eqb_refl.
Qed.

Lemma filter_constant v vs :
  (forall y, In y vs -> y = v) -> filter (scalar_eqb v) vs = vs.
Proof.
  intros H. apply filter_all. intros w Hw. rewrite (H w Hw).
  apply scalar_eqb_refl.
Qed.

(** The counts of a column whose cells all hold one label. *)
Lemma value_counts_constant c l :
  forallb (cell_eqb (SStr l)) (cells c) = true ->
  value_counts c
  = if Nat.eqb (col_len c) 0 then [] else [(SStr l, col_len c)].
Proof.
  intros H. destruct (present_all_match _ _ H) as [Hlen Hall].
  assert (Heq : forall y, In y (present (cells c)) -> y = SStr l).
  { intros y Hy. specialize (Hall y Hy). rewrite scalar_eqb_sym in Hall.
    now apply scalar_eqb_str in Hall. }
  rewrite <- cells_length, <- Hlen. unfold value_counts. cbv zeta.
  destruct (present (cells c)) as [|a vs] eqn:E; [reflexivity|].
  rewrite (dedup_constant (SStr l) (a :: vs)) by (auto; discriminate).
  cbn [map length Nat.eqb]. unfold count_of.
  now rewrite (filter_constant (SStr l) (a :: vs)).
Qed.

(** X20. In the main view the two pie charts have one slice: the payment
    counts hold the selected payment label with the number of trips of the
    view, and nothing when the view is empty; so do the trip type counts
    when the frame has trip type labels, and without them the trip type
    chart is skipped. *)
Theorem main_view_pie_counts df s view :
  wf_frame df = true ->
  apply_filters df s = Some view ->
  payment_counts view
  = Some (if Nat.eqb (len view) 0 then []
          else [(SStr (selected_payment s), len view)]) /\
  (has_column df "trip_type_name" = true ->
   trip_counts view
   = Some (Some (if Nat.eqb (len view) 0 then []
                 else [(SStr (selected_trip_type s), len view)]))) /\
  (has_column df "trip_type_name" = false -> trip_counts view = Some None).
Proof.
  intros Hwf H.
  pose proof (apply_filters_wf df s view Hwf H) as Hwfv.
  rewrite apply_filters_chain in H.
  assert (Hhas : has_column view "trip_type_name" = has_column df "trip_type_name").
  { now apply select_all_has_column with (criteria df s). }
  assert (Hin : forall n v, In (n, v) (criteria df s) -> all_match view n v = true).
  { intros n v. now apply select_all_sound with df. }
  split; [|split].
  - assert (Hm : all_match view "payment_type_name" (SStr (selected_payment s)) = true).
    { apply Hin. unfold criteria. rewrite !in_app_iff. simpl. tauto. }
    unfold all_match in Hm. unfold payment_counts.
    destruct (get view "payment_type_name") as [c|] eqn:Ec; [|discriminate].
    cbn [bind]. rewrite (value_counts_constant c _ Hm).
    now rewrite (wf_frame_get _ _ _ Hwfv Ec).
  - intros Hc.
    assert (Hm : all_match view "trip_type_name" (SStr (selected_trip_type s)) = true).
    { apply Hin. unfold criteria. rewrite Hc, !in_app_iff. simpl. tauto. }
    unfold all_match in Hm. unfold trip_counts. rewrite Hhas, Hc.
    destruct (get view "trip_type_name") as [c|] eqn:Ec; [|discriminate].
    cbn [bind]. rewrite (value_counts_constant c _ Hm).
    now rewrite (wf_frame_get _ _ _ Hwfv Ec).
  - intros Hc. unfold trip_counts. now rewrite Hhas, Hc.
Qed.

Lemma main_view_pie_counts_witness :
  exists view,
    apply_filters demo_df
      (mkSelection "All Weeks" "Thursday" "Credit Card" 1 "Street-hail" 10)
    = Some view /\
    payment_counts view = Some [(SStr "Credit Card", 1%nat)] /\
    payment_counts demo_monday = Some [].
Proof.
  eexists. split; [reflexivity|]. split.
  - destruct (main_view_pie_counts demo_df
                (mkSelection "All Weeks" "Thursday" "Credit Card" 1 "Street-hail" 10)
                _ eq_refl eq_refl) as (Hp & _).
    rewrite Hp. reflexivity.
  - destruct (main_view_pie_counts demo_df
                (mkSelection "All Weeks" "Monday" "Credit Card" 1 "Street-hail" 10)
                demo_monday eq_refl eq_refl) as (Hp & _).
    rewrite Hp. reflexivity.
Defined.

(** ** The weeks of a month *)

(** X21. The week number splits the days of a month into consecutive
    blocks of seven that start on day 1: a day is in week [w] exactly when
    it lies from [7 (w - 1) + 1] to [7 w]; so the week number never
    decreases with the day, and days 29 to 31 form week 5. *)
Theorem week_of_month_blocks (d w : Z) :
  ((week_of_month (inject_Z d) == inject_Z w)%Q <->
   7 * (w - 1) + 1 <= d <= 7 * w) /\
  (forall d', d <= d' ->
     (week_of_month (inject_Z d) <= week_of_month (inject_Z d'))%Q) /\
  (29 <= d <= 31 -> (week_of_month (inject_Z d) == inject_Z 5)%Q).
Proof.
  split; [|split].
  - rewrite week_of_month_integer, inject_Z_injective.
    split; intros H; Z.div_mod_to_equations; lia.
  - intros d' Hd. rewrite !week_of_month_integer. rewrite <- Zle_Qle.
    Z.div_mod_to_equations. lia.
  - intros Hd. rewrite week_of_month_integer, inject_Z_injective.
    Z.div_mod_to_equations. lia.
Qed.

Lemma week_of_month_blocks_witness :
  (week_of_month (inject_Z 14) == inject_Z 2)%Q /\
  (week_of_month (inject_Z 15) == inject_Z 3)%Q /\
  (week_of_month (inject_Z 30) == inject_Z 5)%Q.
Proof.
  split; [|split].
  - apply (proj1 (week_of_month_blocks 14 2)). lia.
  - apply (proj1 (week_of_month_blocks 15 3)). lia.
  - apply (proj2 (proj2 (week_of_month_blocks 30 0))). lia.
Defined.

(** ** The key metrics along the pipeline *)










